(** * Media-asset lifecycle of the Patwa Toli backend

    A shallow embedding of the Cloudinary helper
    (backend/controllers/cloudinaryHelper.js), of the upload middleware
    (backend/middleware/uploadMiddleware.js) and of the story, event,
    business, user and post controllers, together with the properties of
    the media lifecycle they implement.

    Conventions.  A handler runs in a monad that reads the environment
    (libraries, the remote store, faults of the document store), threads
    the document store and logs every call that leaves the process.  The
    [protect] middleware has run: a request carries the authenticated
    user.  A response is its status, success flag, message and document;
    the population of references and the console output are left out.
    The casting, defaults and validation of the Mongoose schemas belong to
    the document store, whose refusals are faults of its primitives; a
    path that the schema of a model does not have is not stored. *)

From Stdlib Require Import ZArith NArith Ascii String.
From stdpp Require Import base option list gmap.

Local Open Scope Z_scope.

(** ** JavaScript strings

    A JavaScript string is a sequence of UTF-16 code units. *)

Abbreviation jsstring := (list N).

Definition cu (a : ascii) : N := N_of_ascii a.

(** A string literal of the source (ASCII only). *)
Definition lit (s : string) : jsstring := cu <$> list_ascii_of_string s.

Module JS.

(** Truthiness of a value that is either absent ([undefined]/[null]) or a
    string: only a non-empty string is truthy. *)
Definition truthy (v : option jsstring) : bool :=
  match v with
  | Some (_ :: _) => true
  | _ => false
  end.

(** [a || b] on such values. *)
Definition or_else (a b : option jsstring) : option jsstring :=
  if truthy a then a else b.

(** [String.prototype.startsWith] (position 0). *)
Fixpoint startsWith (s p : jsstring) : bool :=
  match p, s with
  | [], _ => true
  | c :: p', d :: s' => (d =? c)%N && startsWith s' p'
  | _ :: _, [] => false
  end.

(** [String.prototype.includes]. *)
Fixpoint includes (s sub : jsstring) : bool :=
  startsWith s sub ||
  match s with
  | [] => false
  | _ :: s' => includes s' sub
  end.

(** [String.prototype.split] with a one-code-unit separator. *)
Fixpoint split (sep : N) (s : jsstring) : list jsstring :=
  match s with
  | [] => [[]]
  | c :: s' =>
      if (c =? sep)%N then [] :: split sep s'
      else match split sep s' with
           | p :: ps => (c :: p) :: ps
           | [] => [[c]]
           end
  end.

(** [Array.prototype.join]. *)
Fixpoint join (sep : jsstring) (l : list jsstring) : jsstring :=
  match l with
  | [] => []
  | [x] => x
  | x :: l' => x ++ sep ++ join sep l'
  end.

(** [Array.prototype.findIndex]: the first index whose element satisfies
    the predicate, or -1. *)
Fixpoint findIndex_from {A} (p : A -> bool) (l : list A) (i : Z) : Z :=
  match l with
  | [] => -1
  | x :: l' => if p x then i else findIndex_from p l' (i + 1)
  end.

Definition findIndex {A} (p : A -> bool) (l : list A) : Z :=
  findIndex_from p l 0.

(** [Array.prototype.indexOf] on an array of strings (strict equality). *)
Definition indexOf (l : list jsstring) (x : jsstring) : Z :=
  findIndex (fun y => bool_decide (y = x)) l.

(** [Array.prototype.slice(start)] for a non-negative start. *)
Definition slice {A} (l : list A) (start : Z) : list A :=
  drop (Z.to_nat start) l.

(** [String.prototype.lastIndexOf] of one code unit, or -1. *)
Fixpoint lastIndexOf_from (c : N) (s : jsstring) (i acc : Z) : Z :=
  match s with
  | [] => acc
  | d :: s' => lastIndexOf_from c s' (i + 1) (if (d =? c)%N then i else acc)
  end.

Definition lastIndexOf (s : jsstring) (c : N) : Z :=
  lastIndexOf_from c s 0 (-1).

(** [s.substring(from)] and [s.substring(0, to)] for non-negative bounds. *)
Definition substring_from (s : jsstring) (from : Z) : jsstring :=
  drop (Z.to_nat from) s.

Definition substring_to (s : jsstring) (to : Z) : jsstring :=
  take (Z.to_nat to) s.

(** White space and line terminators skipped by [parseInt] and removed by
    [String.prototype.trim]. *)
Definition isStrWhiteSpaceChar (c : N) : bool :=
  ((9 <=? c) && (c <=? 13) || (c =? 32) || (c =? 160) || (c =? 5760)
   || (8192 <=? c) && (c <=? 8202) || (c =? 8232) || (c =? 8233)
   || (c =? 8239) || (c =? 8287) || (c =? 12288) || (c =? 65279))%N.

Fixpoint trimStart (s : jsstring) : jsstring :=
  match s with
  | c :: s' => if isStrWhiteSpaceChar c then trimStart s' else s
  | [] => []
  end.

Definition trim (s : jsstring) : jsstring :=
  reverse (trimStart (reverse (trimStart s))).

(** The value of a code unit as a digit (radix up to 36). *)
Definition digitValue (c : N) : option Z :=
  if ((48 <=? c) && (c <=? 57))%N then Some (Z.of_N c - 48)
  else if ((97 <=? c) && (c <=? 122))%N then Some (Z.of_N c - 87)
  else if ((65 <=? c) && (c <=? 90))%N then Some (Z.of_N c - 55)
  else None.

(** The longest prefix of radix-[R] digits, as a number; [None] when the
    prefix is empty. *)
Fixpoint parseDigits (R : Z) (s : jsstring) (acc : option Z) : option Z :=
  match s with
  | [] => acc
  | c :: s' =>
      match digitValue c with
      | Some d =>
          if d <? R then parseDigits R s' (Some (R * default 0 acc + d))
          else acc
      | None => acc
      end
  end.

(** [parseInt(s)] without a radix argument; [None] is [NaN].  The value is
    the mathematical integer (the source only tests it with [isNaN]). *)
Definition parseInt (s : jsstring) : option Z :=
  let s1 := trimStart s in
  let '(sign, s2) :=
    match s1 with
    | c :: s' =>
        if (c =? cu "-")%N then (-1, s')
        else if (c =? cu "+")%N then (1, s')
        else (1, s1)
    | [] => (1, s1)
    end in
  let '(R, s3) :=
    match s2 with
    | z :: x :: s' =>
        if ((z =? cu "0") && ((x =? cu "x") || (x =? cu "X")))%N
        then (16, s') else (10, s2)
    | _ => (10, s2)
    end in
  match parseDigits R s3 None with
  | Some n => Some (sign * n)
  | None => None
  end.

Definition isNaN (v : option Z) : bool :=
  match v with
  | None => true
  | Some _ => false
  end.

End JS.

(** ** cloudinaryHelper.js: the reference resolver *)

(** The predicate of the [findIndex] call: a part that starts with [v] and
    whose remainder [parseInt] reads as a number. *)
Definition isVersionPart (part : jsstring) : bool :=
  JS.startsWith part (lit "v") &&
  negb (JS.isNaN (JS.parseInt (JS.substring_from part 1))).

(** [getPublicIdFromUrl(url)].  The argument is [None] for a missing
    ([undefined]/[null]) url; the result is [None] for [null]. *)
Definition getPublicIdFromUrl (url : option jsstring) : option jsstring :=
  match url with
  | None => None
  | Some url =>
      if negb (JS.truthy (Some url)) || negb (JS.includes url (lit "cloudinary.com"))
      then None
      else
        let parts := JS.split (cu "/") url in
        let uploadIndex := JS.indexOf parts (lit "upload") in
        let transformationIndex := JS.findIndex isVersionPart parts in
        if (uploadIndex =? -1) || (transformationIndex =? -1)
           || (transformationIndex <=? uploadIndex)
           || (Z.of_nat (length parts) <=? transformationIndex + 1)
        then None
        else
          let publicIdWithExt :=
            JS.join (lit "/") (JS.slice parts (transformationIndex + 1)) in
          let lastDotIndex := JS.lastIndexOf publicIdWithExt (cu ".") in
          if lastDotIndex =? -1 then Some publicIdWithExt
          else Some (JS.substring_to publicIdWithExt lastDotIndex)
  end.

(** ** Values exchanged with the environment *)

(** A JavaScript [Error] object, as far as the handlers read it. *)
Record Error := {
  e_name : jsstring;
  e_message : jsstring;
  e_statusCode : option Z;
  e_code : option jsstring;
  e_field : option jsstring;
}.

(** [new Error(message)]. *)
Definition new_Error (message : jsstring) : Error :=
  {| e_name := lit "Error"; e_message := message;
     e_statusCode := None; e_code := None; e_field := None |}.

(** [const err = new Error(message); err.statusCode = code;]. *)
Definition new_Error_status (message : jsstring) (code : Z) : Error :=
  {| e_name := lit "Error"; e_message := message;
     e_statusCode := Some code; e_code := None;
     e_field := None |}.

(** The messages that multer attaches to the two error codes met here. *)
Definition multer_message (code : jsstring) : jsstring :=
  if bool_decide (code = lit "LIMIT_FILE_SIZE") then lit "File too large"
  else if bool_decide (code = lit "LIMIT_UNEXPECTED_FILE") then lit "Unexpected field"
  else [].

(** [new multer.MulterError(code, field)]. *)
Definition new_MulterError (code field : jsstring) : Error :=
  {| e_name := lit "MulterError"; e_message := multer_message code;
     e_statusCode := None; e_code := Some code; e_field := Some field |}.

(** The settled state of a promise; for a synchronous call, [Rejected] is a
    thrown exception. *)
Inductive Outcome (A : Type) : Type :=
  | Resolved (a : A)
  | Rejected (e : Error).
Arguments Resolved {A} a.
Arguments Rejected {A} e.

(** A [Buffer]: its length and its bytes. *)
Record Buffer := {
  byteLength : N;
  byteAt : N -> N;
}.

(** The file object that multer attaches to the request ([req.file]). *)
Record File := {
  fieldname : jsstring;
  originalname : jsstring;
  mimetype : jsstring;
  buffer : option Buffer;
  filesize : N;
}.

(** What the handlers read of the result of [cloudinary.uploader.upload]. *)
Record UploadApiResponse := {
  secure_url : option jsstring;
  public_id : option jsstring;
}.

(** What [deleteFromCloudinary] reads of the result of
    [cloudinary.uploader.destroy], or the object it builds itself. *)
Record DestroyResult := {
  d_result : option jsstring;
  d_message : option jsstring;
}.

(** ** Documents

    The fields of the Mongoose models that the controllers read or write.
    A field that may be missing from a document is an [option]; a date is
    its time value, [None] for an invalid date. *)

Abbreviation ObjectId := N.
Abbreviation JSDate := (option Z).

Record Story := {
  s_id : ObjectId;
  s_user : ObjectId;
  s_mediaType : jsstring;
  s_mediaUrl : option jsstring;
  s_publicId : option jsstring;
  s_caption : jsstring;
  s_expiresAt : JSDate;
}.

Record Event := {
  ev_id : ObjectId;
  ev_title : jsstring;
  ev_description : jsstring;
  ev_category : jsstring;
  ev_eventDate : JSDate;
  ev_location : jsstring;
  ev_organizer : ObjectId;
  ev_attendees : list ObjectId;
  ev_image : option jsstring;
  ev_imagePublicId : option jsstring;
}.

Record Business := {
  b_id : ObjectId;
  b_name : jsstring;
  b_description : jsstring;
  b_category : jsstring;
  b_address : jsstring;
  b_phone : option jsstring;
  b_website : option jsstring;
  b_email : option jsstring;
  b_owner : ObjectId;
  b_image : option jsstring;
  b_imagePublicId : option jsstring;
}.

Record User := {
  u_id : ObjectId;
  u_username : jsstring;
  u_fullname : jsstring;
  u_fathername : jsstring;
  u_dob : JSDate;
  u_address : jsstring;
  u_phone : jsstring;
  u_email : jsstring;
  u_bio : jsstring;
  u_profilePic : option jsstring;
  u_verified : bool;
  u_isAdmin : bool;
}.

Record Post := {
  p_id : ObjectId;
  p_user : ObjectId;
  p_content : jsstring;
  p_image : option jsstring;
  p_video : option jsstring;
}.

(** [post.mediaPublicId]: the schema of models/post.js has no such path,
    so that the value that [createPost] hands to [new Post] under this
    name is not kept, and a loaded document shows [undefined] there. *)
Definition p_mediaPublicId (post : Post) : option jsstring := None.

(** Assignments to the fields of a loaded document ([doc.field = v]). *)

Definition set_ev_title (v : jsstring) (x : Event) : Event :=
  {| ev_id := ev_id x; ev_title := v; ev_description := ev_description x;
     ev_category := ev_category x; ev_eventDate := ev_eventDate x;
     ev_location := ev_location x; ev_organizer := ev_organizer x;
     ev_attendees := ev_attendees x; ev_image := ev_image x;
     ev_imagePublicId := ev_imagePublicId x |}.

Definition set_ev_description (v : jsstring) (x : Event) : Event :=
  {| ev_id := ev_id x; ev_title := ev_title x; ev_description := v;
     ev_category := ev_category x; ev_eventDate := ev_eventDate x;
     ev_location := ev_location x; ev_organizer := ev_organizer x;
     ev_attendees := ev_attendees x; ev_image := ev_image x;
     ev_imagePublicId := ev_imagePublicId x |}.

Definition set_ev_category (v : jsstring) (x : Event) : Event :=
  {| ev_id := ev_id x; ev_title := ev_title x;
     ev_description := ev_description x; ev_category := v;
     ev_eventDate := ev_eventDate x; ev_location := ev_location x;
     ev_organizer := ev_organizer x; ev_attendees := ev_attendees x;
     ev_image := ev_image x; ev_imagePublicId := ev_imagePublicId x |}.

Definition set_ev_eventDate (v : JSDate) (x : Event) : Event :=
  {| ev_id := ev_id x; ev_title := ev_title x;
     ev_description := ev_description x; ev_category := ev_category x;
     ev_eventDate := v; ev_location := ev_location x;
     ev_organizer := ev_organizer x; ev_attendees := ev_attendees x;
     ev_image := ev_image x; ev_imagePublicId := ev_imagePublicId x |}.

Definition set_ev_location (v : jsstring) (x : Event) : Event :=
  {| ev_id := ev_id x; ev_title := ev_title x;
     ev_description := ev_description x; ev_category := ev_category x;
     ev_eventDate := ev_eventDate x; ev_location := v;
     ev_organizer := ev_organizer x; ev_attendees := ev_attendees x;
     ev_image := ev_image x; ev_imagePublicId := ev_imagePublicId x |}.

Definition set_ev_image (v : option jsstring) (x : Event) : Event :=
  {| ev_id := ev_id x; ev_title := ev_title x;
     ev_description := ev_description x; ev_category := ev_category x;
     ev_eventDate := ev_eventDate x; ev_location := ev_location x;
     ev_organizer := ev_organizer x; ev_attendees := ev_attendees x;
     ev_image := v; ev_imagePublicId := ev_imagePublicId x |}.

Definition set_ev_imagePublicId (v : option jsstring) (x : Event) : Event :=
  {| ev_id := ev_id x; ev_title := ev_title x;
     ev_description := ev_description x; ev_category := ev_category x;
     ev_eventDate := ev_eventDate x; ev_location := ev_location x;
     ev_organizer := ev_organizer x; ev_attendees := ev_attendees x;
     ev_image := ev_image x; ev_imagePublicId := v |}.

Definition set_b_name (v : jsstring) (x : Business) : Business :=
  {| b_id := b_id x; b_name := v; b_description := b_description x;
     b_category := b_category x; b_address := b_address x;
     b_phone := b_phone x; b_website := b_website x; b_email := b_email x;
     b_owner := b_owner x; b_image := b_image x;
     b_imagePublicId := b_imagePublicId x |}.

Definition set_b_description (v : jsstring) (x : Business) : Business :=
  {| b_id := b_id x; b_name := b_name x; b_description := v;
     b_category := b_category x; b_address := b_address x;
     b_phone := b_phone x; b_website := b_website x; b_email := b_email x;
     b_owner := b_owner x; b_image := b_image x;
     b_imagePublicId := b_imagePublicId x |}.

Definition set_b_category (v : jsstring) (x : Business) : Business :=
  {| b_id := b_id x; b_name := b_name x; b_description := b_description x;
     b_category := v; b_address := b_address x; b_phone := b_phone x;
     b_website := b_website x; b_email := b_email x; b_owner := b_owner x;
     b_image := b_image x; b_imagePublicId := b_imagePublicId x |}.

Definition set_b_address (v : jsstring) (x : Business) : Business :=
  {| b_id := b_id x; b_name := b_name x; b_description := b_description x;
     b_category := b_category x; b_address := v; b_phone := b_phone x;
     b_website := b_website x; b_email := b_email x; b_owner := b_owner x;
     b_image := b_image x; b_imagePublicId := b_imagePublicId x |}.

Definition set_b_phone (v : option jsstring) (x : Business) : Business :=
  {| b_id := b_id x; b_name := b_name x; b_description := b_description x;
     b_category := b_category x; b_address := b_address x; b_phone := v;
     b_website := b_website x; b_email := b_email x; b_owner := b_owner x;
     b_image := b_image x; b_imagePublicId := b_imagePublicId x |}.

Definition set_b_website (v : option jsstring) (x : Business) : Business :=
  {| b_id := b_id x; b_name := b_name x; b_description := b_description x;
     b_category := b_category x; b_address := b_address x;
     b_phone := b_phone x; b_website := v; b_email := b_email x;
     b_owner := b_owner x; b_image := b_image x;
     b_imagePublicId := b_imagePublicId x |}.

Definition set_b_email (v : option jsstring) (x : Business) : Business :=
  {| b_id := b_id x; b_name := b_name x; b_description := b_description x;
     b_category := b_category x; b_address := b_address x;
     b_phone := b_phone x; b_website := b_website x; b_email := v;
     b_owner := b_owner x; b_image := b_image x;
     b_imagePublicId := b_imagePublicId x |}.

Definition set_b_image (v : option jsstring) (x : Business) : Business :=
  {| b_id := b_id x; b_name := b_name x; b_description := b_description x;
     b_category := b_category x; b_address := b_address x;
     b_phone := b_phone x; b_website := b_website x; b_email := b_email x;
     b_owner := b_owner x; b_image := v;
     b_imagePublicId := b_imagePublicId x |}.

Definition set_b_imagePublicId (v : option jsstring) (x : Business) : Business :=
  {| b_id := b_id x; b_name := b_name x; b_description := b_description x;
     b_category := b_category x; b_address := b_address x;
     b_phone := b_phone x; b_website := b_website x; b_email := b_email x;
     b_owner := b_owner x; b_image := b_image x; b_imagePublicId := v |}.

Definition set_u_fullname (v : jsstring) (x : User) : User :=
  {| u_id := u_id x; u_username := u_username x; u_fullname := v;
     u_fathername := u_fathername x; u_dob := u_dob x;
     u_address := u_address x; u_phone := u_phone x; u_email := u_email x;
     u_bio := u_bio x; u_profilePic := u_profilePic x;
     u_verified := u_verified x; u_isAdmin := u_isAdmin x |}.

Definition set_u_fathername (v : jsstring) (x : User) : User :=
  {| u_id := u_id x; u_username := u_username x; u_fullname := u_fullname x;
     u_fathername := v; u_dob := u_dob x; u_address := u_address x;
     u_phone := u_phone x; u_email := u_email x; u_bio := u_bio x;
     u_profilePic := u_profilePic x; u_verified := u_verified x;
     u_isAdmin := u_isAdmin x |}.

Definition set_u_dob (v : JSDate) (x : User) : User :=
  {| u_id := u_id x; u_username := u_username x; u_fullname := u_fullname x;
     u_fathername := u_fathername x; u_dob := v; u_address := u_address x;
     u_phone := u_phone x; u_email := u_email x; u_bio := u_bio x;
     u_profilePic := u_profilePic x; u_verified := u_verified x;
     u_isAdmin := u_isAdmin x |}.

Definition set_u_address (v : jsstring) (x : User) : User :=
  {| u_id := u_id x; u_username := u_username x; u_fullname := u_fullname x;
     u_fathername := u_fathername x; u_dob := u_dob x; u_address := v;
     u_phone := u_phone x; u_email := u_email x; u_bio := u_bio x;
     u_profilePic := u_profilePic x; u_verified := u_verified x;
     u_isAdmin := u_isAdmin x |}.

Definition set_u_phone (v : jsstring) (x : User) : User :=
  {| u_id := u_id x; u_username := u_username x; u_fullname := u_fullname x;
     u_fathername := u_fathername x; u_dob := u_dob x;
     u_address := u_address x; u_phone := v; u_email := u_email x;
     u_bio := u_bio x; u_profilePic := u_profilePic x;
     u_verified := u_verified x; u_isAdmin := u_isAdmin x |}.

Definition set_u_email (v : jsstring) (x : User) : User :=
  {| u_id := u_id x; u_username := u_username x; u_fullname := u_fullname x;
     u_fathername := u_fathername x; u_dob := u_dob x;
     u_address := u_address x; u_phone := u_phone x; u_email := v;
     u_bio := u_bio x; u_profilePic := u_profilePic x;
     u_verified := u_verified x; u_isAdmin := u_isAdmin x |}.

Definition set_u_bio (v : jsstring) (x : User) : User :=
  {| u_id := u_id x; u_username := u_username x; u_fullname := u_fullname x;
     u_fathername := u_fathername x; u_dob := u_dob x;
     u_address := u_address x; u_phone := u_phone x; u_email := u_email x;
     u_bio := v; u_profilePic := u_profilePic x; u_verified := u_verified x;
     u_isAdmin := u_isAdmin x |}.

Definition set_u_profilePic (v : option jsstring) (x : User) : User :=
  {| u_id := u_id x; u_username := u_username x; u_fullname := u_fullname x;
     u_fathername := u_fathername x; u_dob := u_dob x;
     u_address := u_address x; u_phone := u_phone x; u_email := u_email x;
     u_bio := u_bio x; u_profilePic := v; u_verified := u_verified x;
     u_isAdmin := u_isAdmin x |}.

(** [if (cond) doc.field = value;]: the assignment is made when the
    condition holds. *)
Definition when {R} (cond : bool) (assignment : R -> R) (doc : R) : R :=
  if cond then assignment doc else doc.

(** [doc.field = value(doc);]: an assignment whose value reads the
    document. *)
Definition assign {R A} (set : A -> R -> R) (value : R -> A) (doc : R) : R :=
  set (value doc) doc.

Inductive Doc :=
  | DStory (s : Story)
  | DEvent (e : Event)
  | DBusiness (b : Business)
  | DUser (u : User)
  | DPost (p : Post).

Inductive Model := MStory | MEvent | MBusiness | MUser | MPost.

(** The document store: one collection per model, keyed by [_id]. *)
Record Db := {
  stories : gmap ObjectId Story;
  events : gmap ObjectId Event;
  businesses : gmap ObjectId Business;
  users : gmap ObjectId User;
  posts : gmap ObjectId Post;
}.

(** ** Calls to the outside and their log *)

(** The primitives of the document store used by the controllers. *)
Inductive DbOp :=
  | FindById (m : Model) (id : ObjectId)
  | FindOneUserByEmail (email : jsstring) (except : ObjectId)
  | CountPostsOfUser (user : ObjectId)
  | Insert (d : Doc)
  | Update (d : Doc)
  | DeleteById (m : Model) (id : ObjectId).

(** One entry per call that leaves the process, with what came back. *)
Inductive Call :=
  | CFormat (ext : jsstring) (size : N) (r : Outcome (option jsstring))
  | CUpload (content folder : jsstring) (r : Outcome UploadApiResponse)
  | CDestroy (publicId resourceType : jsstring) (r : Outcome DestroyResult)
  | CDb (op : DbOp) (fault : option Error)
  | CUnlink (path : jsstring).

(** The environment: the libraries and services the code calls.  The
    answer of a service may depend on the calls made before. *)
Record Env := {
  path_extname : jsstring -> jsstring;
  toLowerCase : jsstring -> jsstring;
  Date_parse : jsstring -> JSDate;
  ObjectId_isValid : jsstring -> bool;
  castObjectId : jsstring -> option ObjectId;
  email_test : jsstring -> bool;
  website_test : jsstring -> bool;
  Date_now : list Call -> Z;
  new_ObjectId : list Call -> ObjectId;
  datauri_format : list Call -> jsstring -> Buffer -> Outcome (option jsstring);
  cloudinary_upload : list Call -> jsstring -> jsstring -> Outcome UploadApiResponse;
  cloudinary_destroy : list Call -> jsstring -> jsstring -> Outcome DestroyResult;
  db_fault : list Call -> DbOp -> option Error;
}.

(** The state threaded through a request: the store and the log. *)
Record World := {
  db : Db;
  trace : list Call;
}.

(** ** The monad of the handlers

    A computation reads the environment, threads the world and either
    returns a value or throws; awaiting a rejected promise throws. *)

Definition M (A : Type) : Type := Env -> World -> Outcome A * World.

Definition ret {A} (a : A) : M A := fun _ w => (Resolved a, w).

Definition throw {A} (e : Error) : M A := fun _ w => (Rejected e, w).

Definition bind {A B} (m : M A) (k : A -> M B) : M B :=
  fun env w =>
    match m env w with
    | (Resolved a, w') => k a env w'
    | (Rejected e, w') => (Rejected e, w')
    end.

(** [try { m } catch (e) { h(e) }]. *)
Definition try_catch {A} (m : M A) (h : Error -> M A) : M A :=
  fun env w =>
    match m env w with
    | (Resolved a, w') => (Resolved a, w')
    | (Rejected e, w') => h e env w'
    end.

Declare Scope m_scope.
Delimit Scope m_scope with M.
Notation "'let*' x ':=' m 'in' k" := (bind m (fun x => k))
  (at level 10, x pattern, m at level 100, k at level 200) : m_scope.
Notation "m ';;' k" := (bind m (fun _ => k))
  (at level 100, k at level 200, right associativity) : m_scope.

Definition ask : M Env := fun env w => (Resolved env, w).

Definition get_db : M Db := fun _ w => (Resolved (db w), w).

Definition put_db (d : Db) : M unit :=
  fun _ w => (Resolved tt, {| db := d; trace := trace w |}).

Definition get_trace : M (list Call) := fun _ w => (Resolved (trace w), w).

Definition log (c : Call) : M unit :=
  fun _ w => (Resolved tt, {| db := db w; trace := trace w ++ [c] |}).

(** Settle a promise: its value, or throw its rejection. *)
Definition settle {A} (r : Outcome A) : M A :=
  match r with
  | Resolved a => ret a
  | Rejected e => throw e
  end.

Local Open Scope m_scope.

(** ** cloudinaryHelper.js: upload and delete *)

(** The object returned by [parser.format]: its [content]. *)
Record DataURI := {
  content : option jsstring;
}.

(** [formatBufferToDataURI(file)]; [None] is [null]. *)
Definition formatBufferToDataURI (file : option File) : M (option DataURI) :=
  match file with
  | None => ret None
  | Some file =>
      match buffer file with
      | None => ret None
      | Some buf =>
          let* env := ask in
          let* t := get_trace in
          let ext := path_extname env (originalname file) in
          let r := datauri_format env t ext buf in
          log (CFormat ext (byteLength buf) r);;
          let* c := settle r in
          ret (Some {| content := c |})
      end
  end.

(** [uploadToCloudinary(file, folder)]; the result [None] is [null]. *)
Definition uploadToCloudinary (file : option File) (folder : jsstring)
  : M (option UploadApiResponse) :=
  match file with
  | None => ret None
  | Some _ =>
      let* dataUri := formatBufferToDataURI file in
      let c := dataUri ≫= content in
      if negb (JS.truthy c) then
        throw (new_Error (lit "Failed to process file buffer."))
      else
        let* env := ask in
        let* t := get_trace in
        let r := cloudinary_upload env t (default [] c) folder in
        log (CUpload (default [] c) folder r);;
        match r with
        | Resolved res =>
            ret (Some {| secure_url := secure_url res; public_id := public_id res |})
        | Rejected error =>
            throw (new_Error (lit "Cloudinary upload failed: " ++ e_message error))
        end
  end.

(** [deleteFromCloudinary(publicId, resourceType = 'auto')]. *)
Definition deleteFromCloudinary (publicId : option jsstring)
    (resourceType : option jsstring) : M DestroyResult :=
  let resourceType := default (lit "auto") resourceType in
  if negb (JS.truthy publicId) then
    ret {| d_result := Some (lit "ok");
           d_message := Some (lit "No publicId provided.") |}
  else
    let* env := ask in
    let* t := get_trace in
    let r := cloudinary_destroy env t (default [] publicId) resourceType in
    log (CDestroy (default [] publicId) resourceType r);;
    match r with
    | Resolved res => ret res
    | Rejected error =>
        throw (new_Error (lit "Cloudinary deletion error: " ++ e_message error))
    end.

(** ** The document store

    Every primitive is one call: the store may fail it (connection loss,
    schema validation, ...), which the caller sees as a rejected promise;
    otherwise it acts on the collection. *)

Definition db_call (op : DbOp) : M unit :=
  let* env := ask in
  let* t := get_trace in
  let f := db_fault env t op in
  log (CDb op f);;
  match f with
  | Some e => throw e
  | None => ret tt
  end.

(** Casting a request parameter to an [ObjectId]; Mongoose throws a
    [CastError] when it cannot. *)
Definition new_CastError (value : jsstring) : Error :=
  {| e_name := lit "CastError";
     e_message := lit "Cast to ObjectId failed for value " ++ value;
     e_statusCode := None; e_code := None; e_field := None |}.

Definition cast (id : jsstring) : M ObjectId :=
  let* env := ask in
  match castObjectId env id with
  | Some k => ret k
  | None => throw (new_CastError id)
  end.

Definition new_DuplicateKey : Error :=
  {| e_name := lit "MongoServerError";
     e_message := lit "E11000 duplicate key error";
     e_statusCode := None; e_code := Some (lit "11000"); e_field := None |}.

Definition with_stories (f : gmap ObjectId Story -> gmap ObjectId Story) (d : Db) : Db :=
  {| stories := f (stories d); events := events d; businesses := businesses d;
     users := users d; posts := posts d |}.
Definition with_events (f : gmap ObjectId Event -> gmap ObjectId Event) (d : Db) : Db :=
  {| stories := stories d; events := f (events d); businesses := businesses d;
     users := users d; posts := posts d |}.
Definition with_businesses (f : gmap ObjectId Business -> gmap ObjectId Business) (d : Db) : Db :=
  {| stories := stories d; events := events d; businesses := f (businesses d);
     users := users d; posts := posts d |}.
Definition with_users (f : gmap ObjectId User -> gmap ObjectId User) (d : Db) : Db :=
  {| stories := stories d; events := events d; businesses := businesses d;
     users := f (users d); posts := posts d |}.
Definition with_posts (f : gmap ObjectId Post -> gmap ObjectId Post) (d : Db) : Db :=
  {| stories := stories d; events := events d; businesses := businesses d;
     users := users d; posts := f (posts d) |}.

Definition doc_id (d : Doc) : ObjectId :=
  match d with
  | DStory s => s_id s
  | DEvent e => ev_id e
  | DBusiness b => b_id b
  | DUser u => u_id u
  | DPost p => p_id p
  end.

Definition db_lookup (d : Db) (m : Model) (k : ObjectId) : option Doc :=
  match m with
  | MStory => DStory <$> stories d !! k
  | MEvent => DEvent <$> events d !! k
  | MBusiness => DBusiness <$> businesses d !! k
  | MUser => DUser <$> users d !! k
  | MPost => DPost <$> posts d !! k
  end.

Definition db_put (doc : Doc) (d : Db) : Db :=
  match doc with
  | DStory s => with_stories <[s_id s := s]> d
  | DEvent e => with_events <[ev_id e := e]> d
  | DBusiness b => with_businesses <[b_id b := b]> d
  | DUser u => with_users <[u_id u := u]> d
  | DPost p => with_posts <[p_id p := p]> d
  end.

Definition db_remove (m : Model) (k : ObjectId) (d : Db) : Db :=
  match m with
  | MStory => with_stories (delete k) d
  | MEvent => with_events (delete k) d
  | MBusiness => with_businesses (delete k) d
  | MUser => with_users (delete k) d
  | MPost => with_posts (delete k) d
  end.

Definition doc_model (d : Doc) : Model :=
  match d with
  | DStory _ => MStory
  | DEvent _ => MEvent
  | DBusiness _ => MBusiness
  | DUser _ => MUser
  | DPost _ => MPost
  end.

(** [Model.findById(id)] for an id that is already an [ObjectId]. *)
Definition findById (m : Model) (k : ObjectId) : M (option Doc) :=
  db_call (FindById m k);;
  let* d := get_db in
  ret (db_lookup d m k).

(** [Model.findById(id)] for a request parameter. *)
Definition findById_param (m : Model) (id : jsstring) : M (option Doc) :=
  let* k := cast id in
  findById m k.

(** [doc.save()] of a document made with [new Model(...)]: an insert,
    which the store also refuses when the [_id] is taken. *)
Definition save_new (doc : Doc) : M Doc :=
  let* env := ask in
  let* t := get_trace in
  let* d := get_db in
  let f :=
    match db_fault env t (Insert doc) with
    | Some e => Some e
    | None =>
        match db_lookup d (doc_model doc) (doc_id doc) with
        | Some _ => Some new_DuplicateKey
        | None => None
        end
    end in
  log (CDb (Insert doc) f);;
  match f with
  | Some e => throw e
  | None => put_db (db_put doc d);; ret doc
  end.

(** [doc.save()] of a document read from the store. *)
Definition save (doc : Doc) : M Doc :=
  db_call (Update doc);;
  let* d := get_db in
  put_db (db_put doc d);;
  ret doc.

(** [doc.deleteOne()] and [Model.findByIdAndDelete(id)]. *)
Definition deleteById (m : Model) (k : ObjectId) : M unit :=
  db_call (DeleteById m k);;
  let* d := get_db in
  put_db (db_remove m k d).

Definition findByIdAndDelete (m : Model) (id : jsstring) : M unit :=
  let* k := cast id in
  deleteById m k.

(** [User.findOne({ email, _id: { $ne: userId } })], as a truth value. *)
Definition User_emailExists (email : jsstring) (userId : ObjectId) : M bool :=
  db_call (FindOneUserByEmail email userId);;
  let* d := get_db in
  ret (existsb
         (fun '(k, u) => negb (k =? userId)%N && bool_decide (u_email u = email))
         (map_to_list (users d))).

(** [Post.countDocuments({ user })]. *)
Definition Post_countByUser (userId : ObjectId) : M nat :=
  db_call (CountPostsOfUser userId);;
  let* d := get_db in
  ret (length (filter (fun '(_, p) => p_user p = userId) (map_to_list (posts d)))).

(** ** What a handler does with the request

    It sends a JSON response, or hands an error to [next]. *)

Inductive Body :=
  | NoPayload
  | Payload (d : option Doc)
  | Profile (u : User) (postCount : nat)
  | Attendees (attendees : list ObjectId).

Inductive Reply :=
  | Json (status : Z) (success : bool) (message : jsstring) (body : Body)
  | Next (e : Error).

(** The outer [try { ... } catch (error) { next(error); }] of a handler. *)
Definition handler (body : M Reply) : M Reply :=
  try_catch body (fun error => ret (Next error)).

(** The authenticated user attached by the [protect] middleware. *)
Record ReqUser := {
  user_id : ObjectId;
  user_isAdmin : bool;
}.

(** A body field that must be a string once it has passed a truthiness
    test. *)
Definition str (v : option jsstring) : jsstring := default [] v.

(** [uploadResult?.secure_url] and [uploadResult?.public_id]. *)
Definition secure_url_of (r : option UploadApiResponse) : option jsstring :=
  r ≫= secure_url.
Definition public_id_of (r : option UploadApiResponse) : option jsstring :=
  r ≫= public_id.

Definition DAY_MS : Z := 24 * 60 * 60 * 1000.

(** ** storyController.js *)

Definition createStory (user : ReqUser) (caption : option jsstring)
    (storyMediaFile : option File) : M Reply :=
  let userId := user_id user in
  match storyMediaFile with
  | None => ret (Next (new_Error (lit "Story media file is required.")))
  | Some file =>
      if JS.truthy caption && (200 <? Z.of_nat (length (str caption)))
      then ret (Next (new_Error (lit "Caption too long.")))
      else handler (
        let* mediaType :=
          if JS.startsWith (mimetype file) (lit "image") then ret (lit "image")
          else if JS.startsWith (mimetype file) (lit "video") then ret (lit "video")
          else throw (new_Error (lit "Invalid media type for story.")) in
        let* uploadResult :=
          uploadToCloudinary storyMediaFile (lit "patwa_toli/stories") in
        if negb (JS.truthy (secure_url_of uploadResult))
           || negb (JS.truthy (public_id_of uploadResult))
        then throw (new_Error (lit "Failed to upload story media to Cloudinary."))
        else
          let* env := ask in
          let* t := get_trace in
          let expiresAt := Some (Date_now env t + DAY_MS) in
          let newStory :=
            {| s_id := new_ObjectId env t;
               s_user := userId;
               s_mediaType := mediaType;
               s_mediaUrl := secure_url_of uploadResult;
               s_publicId := public_id_of uploadResult;
               s_caption := str (JS.or_else caption (Some []));
               s_expiresAt := expiresAt |} in
          let* savedStory := save_new (DStory newStory) in
          let* populatedStory := findById MStory (doc_id savedStory) in
          ret (Json 201 true (lit "Story created.") (Payload populatedStory)))
  end.

Definition deleteStory (user : ReqUser) (storyId : jsstring) : M Reply :=
  let userId := user_id user in
  let* env := ask in
  if negb (ObjectId_isValid env storyId)
  then ret (Next (new_Error (lit "Invalid story ID.")))
  else handler (
    let* story := findById_param MStory storyId in
    match story with
    | Some (DStory story) =>
        if negb (s_user story =? userId)%N
        then ret (Next (new_Error_status (lit "Forbidden.") 403))
        else
          let publicId := s_publicId story in
          (if JS.truthy publicId
           then try_catch (deleteFromCloudinary publicId None;; ret tt)
                          (fun cloudinaryError => ret tt)
           else ret tt);;
          deleteById MStory (s_id story);;
          ret (Json 200 true (lit "Story deleted.") NoPayload)
    | _ => ret (Next (new_Error_status (lit "Story not found.") 404))
    end).

(** ** eventController.js *)

Definition createEvent (user : ReqUser)
    (title description category eventDate location : option jsstring)
    (eventImageFile : option File) : M Reply :=
  let organizerId := user_id user in
  let* env := ask in
  let* t := get_trace in
  if negb (JS.truthy title) || negb (JS.truthy description)
     || negb (JS.truthy eventDate) || negb (JS.truthy location)
  then ret (Next (new_Error (lit "Missing required fields.")))
  else
    match Date_parse env (str eventDate) with
    | None => ret (Next (new_Error (lit "Invalid event date.")))
    | Some parsedDate =>
        if parsedDate <? Date_now env t
        then ret (Next (new_Error (lit "Event date cannot be in the past.")))
        else handler (
          let* imageUploadResult :=
            match eventImageFile with
            | Some _ =>
                let* r := uploadToCloudinary eventImageFile (lit "patwa_toli/events") in
                if negb (JS.truthy (secure_url_of r))
                then throw (new_Error (lit "Image upload failed."))
                else ret r
            | None => ret None
            end in
          let* t := get_trace in
          let event :=
            {| ev_id := new_ObjectId env t;
               ev_title := JS.trim (str title);
               ev_description := JS.trim (str description);
               ev_category :=
                 str (JS.or_else category (Some (lit "Community Gathering")));
               ev_eventDate := Some parsedDate;
               ev_location := JS.trim (str location);
               ev_organizer := organizerId;
               ev_attendees := [organizerId];
               ev_image := secure_url_of imageUploadResult;
               ev_imagePublicId := public_id_of imageUploadResult |} in
          let* savedEvent := save_new (DEvent event) in
          let* populatedEvent := findById MEvent (doc_id savedEvent) in
          ret (Json 201 true (lit "Event created.") (Payload populatedEvent)))
    end.

Definition updateEvent (user : ReqUser) (eventId : jsstring)
    (title description category eventDate location : option jsstring)
    (eventImageFile : option File) : M Reply :=
  let userId := user_id user in
  let isAdmin := user_isAdmin user in
  let* env := ask in
  if negb (ObjectId_isValid env eventId)
  then ret (Next (new_Error (lit "Invalid event ID.")))
  else handler (
    let* event := findById_param MEvent eventId in
    match event with
    | Some (DEvent event) =>
        if negb (ev_organizer event =? userId)%N && negb isAdmin
        then ret (Next (new_Error_status (lit "Forbidden.") 403))
        else
          let oldImagePublicId := ev_imagePublicId event in
          let event :=
            when (JS.truthy title) (set_ev_title (JS.trim (str title))) event in
          let event :=
            when (JS.truthy description)
              (set_ev_description (JS.trim (str description))) event in
          let event :=
            when (JS.truthy category) (set_ev_category (str category)) event in
          let event :=
            when (JS.truthy location)
              (set_ev_location (JS.trim (str location))) event in
          let event :=
            when (JS.truthy eventDate)
              (let d := Date_parse env (str eventDate) in
               when (negb (JS.isNaN d)) (set_ev_eventDate d))
              event in
          let* event :=
            match eventImageFile with
            | Some _ =>
                let* uploadResult :=
                  uploadToCloudinary eventImageFile (lit "patwa_toli/events") in
                if negb (JS.truthy (secure_url_of uploadResult))
                then throw (new_Error (lit "Image upload failed."))
                else
                  let event := set_ev_image (secure_url_of uploadResult) event in
                  let event :=
                    set_ev_imagePublicId (public_id_of uploadResult) event in
                  (if JS.truthy oldImagePublicId
                   then try_catch (deleteFromCloudinary oldImagePublicId None;; ret tt)
                                  (fun delErr => ret tt)
                   else ret tt);;
                  ret event
            | None => ret event
            end in
          let* updatedEvent := save (DEvent event) in
          let* populatedEvent := findById MEvent (doc_id updatedEvent) in
          ret (Json 200 true (lit "Event updated.") (Payload populatedEvent))
    | _ => ret (Next (new_Error_status (lit "Event not found.") 404))
    end).

Definition deleteEvent (user : ReqUser) (eventId : jsstring) : M Reply :=
  let userId := user_id user in
  let isAdmin := user_isAdmin user in
  let* env := ask in
  if negb (ObjectId_isValid env eventId)
  then ret (Next (new_Error (lit "Invalid event ID.")))
  else handler (
    let* event := findById_param MEvent eventId in
    match event with
    | Some (DEvent event) =>
        if negb (ev_organizer event =? userId)%N && negb isAdmin
        then ret (Next (new_Error_status (lit "Forbidden.") 403))
        else
          let publicId := ev_imagePublicId event in
          (if JS.truthy publicId
           then try_catch (deleteFromCloudinary publicId None;; ret tt)
                          (fun delErr => ret tt)
           else ret tt);;
          deleteById MEvent (ev_id event);;
          ret (Json 200 true (lit "Event deleted.") NoPayload)
    | _ => ret (Next (new_Error_status (lit "Event not found.") 404))
    end).

(** ** businessController.js *)

(** [Business.schema.path('category').enumValues] (models/Business.js). *)
Definition Business_categories : list jsstring :=
  [lit "Retail"; lit "Food & Beverage"; lit "Services"; lit "Health & Wellness";
   lit "Arts & Crafts"; lit "Professional"; lit "Online"; lit "Other"].

(** [enumValues.includes(category)]. *)
Definition is_Business_category (category : jsstring) : bool :=
  bool_decide (category ∈ Business_categories).

Definition createBusiness (user : ReqUser)
    (name description category address phone website email : option jsstring)
    (businessImageFile : option File) : M Reply :=
  let ownerId := user_id user in
  let* env := ask in
  if negb (JS.truthy name) || negb (JS.truthy description)
     || negb (JS.truthy category) || negb (JS.truthy address)
  then ret (Next (new_Error
         (lit "Missing required fields (name, description, category, address).")))
  else if JS.truthy category && negb (is_Business_category (str category))
  then ret (Next (new_Error
         (lit "Invalid category: " ++ str category ++ lit ". Must be one of "
          ++ JS.join (lit ", ") Business_categories ++ lit ".")))
  else if JS.truthy email && negb (email_test env (str email))
  then ret (Next (new_Error (lit "Invalid email format provided.")))
  else if JS.truthy website && negb (website_test env (str website))
  then ret (Next (new_Error (lit "Invalid website URL format provided.")))
  else handler (
    let* imageUploadResult :=
      match businessImageFile with
      | Some _ =>
          let* r := uploadToCloudinary businessImageFile (lit "patwa_toli/businesses") in
          if negb (JS.truthy (secure_url_of r)) || negb (JS.truthy (public_id_of r))
          then throw (new_Error (lit "Business image upload to Cloudinary failed."))
          else ret r
      | None => ret None
      end in
    let* t := get_trace in
    let business :=
      {| b_id := new_ObjectId env t;
         b_name := JS.trim (str name);
         b_description := JS.trim (str description);
         b_category := str category;
         b_address := JS.trim (str address);
         b_phone := JS.or_else phone None;
         b_website := JS.or_else website None;
         b_email :=
           if JS.truthy email then Some (JS.trim (toLowerCase env (str email)))
           else None;
         b_owner := ownerId;
         b_image := secure_url_of imageUploadResult;
         b_imagePublicId := public_id_of imageUploadResult |} in
    let* savedBusiness := save_new (DBusiness business) in
    let* populatedBusiness := findById MBusiness (doc_id savedBusiness) in
    ret (Json 201 true (lit "Business listing created successfully.")
           (Payload populatedBusiness))).

(** [value.trim() || null] for a field that was sent. *)
Definition trim_or_null (value : jsstring) : option jsstring :=
  JS.or_else (Some (JS.trim value)) None.

Definition updateBusiness (user : ReqUser) (businessId : jsstring)
    (name description category address phone website email : option jsstring)
    (businessImageFile : option File) : M Reply :=
  let userId := user_id user in
  let isAdmin := user_isAdmin user in
  let* env := ask in
  if negb (ObjectId_isValid env businessId)
  then ret (Next (new_Error (lit "Invalid business ID format.")))
  else handler (
    let* business := findById_param MBusiness businessId in
    match business with
    | Some (DBusiness business) =>
        if negb (b_owner business =? userId)%N && negb isAdmin
        then ret (Next (new_Error_status (lit "Forbidden: Not authorized.") 403))
        else
          let oldImagePublicId := b_imagePublicId business in
          let business :=
            when (JS.truthy name) (set_b_name (JS.trim (str name))) business in
          let business :=
            when (JS.truthy description)
              (set_b_description (JS.trim (str description))) business in
          let business :=
            when (JS.truthy category && is_Business_category (str category))
              (set_b_category (str category)) business in
          let business :=
            when (JS.truthy address)
              (set_b_address (JS.trim (str address))) business in
          let business :=
            when (bool_decide (is_Some phone))
              (set_b_phone (trim_or_null (str phone))) business in
          let business :=
            when (bool_decide (is_Some website))
              (set_b_website (trim_or_null (str website))) business in
          let business :=
            when (bool_decide (is_Some email))
              (set_b_email
                 (if JS.truthy email
                  then Some (JS.trim (toLowerCase env (str email)))
                  else None))
              business in
          let* business :=
            match businessImageFile with
            | Some _ =>
                let* uploadResult :=
                  uploadToCloudinary businessImageFile (lit "patwa_toli/businesses") in
                if negb (JS.truthy (secure_url_of uploadResult))
                then throw (new_Error (lit "Business image update failed."))
                else
                  let business := set_b_image (secure_url_of uploadResult) business in
                  let business :=
                    set_b_imagePublicId (public_id_of uploadResult) business in
                  (if JS.truthy oldImagePublicId
                   then try_catch (deleteFromCloudinary oldImagePublicId None;; ret tt)
                                  (fun delErr => ret tt)
                   else ret tt);;
                  ret business
            | None => ret business
            end in
          let* updatedBusiness := save (DBusiness business) in
          let* populatedBusiness := findById MBusiness (doc_id updatedBusiness) in
          ret (Json 200 true (lit "Business listing updated.")
                 (Payload populatedBusiness))
    | _ => ret (Next (new_Error_status (lit "Business listing not found.") 404))
    end).

Definition deleteBusiness (user : ReqUser) (businessId : jsstring) : M Reply :=
  let userId := user_id user in
  let isAdmin := user_isAdmin user in
  let* env := ask in
  if negb (ObjectId_isValid env businessId)
  then ret (Next (new_Error (lit "Invalid business ID format.")))
  else handler (
    let* business := findById_param MBusiness businessId in
    match business with
    | Some (DBusiness business) =>
        if negb (b_owner business =? userId)%N && negb isAdmin
        then ret (Next (new_Error_status (lit "Forbidden.") 403))
        else
          let publicIdToDelete := b_imagePublicId business in
          (if JS.truthy publicIdToDelete
           then try_catch (deleteFromCloudinary publicIdToDelete None;; ret tt)
                          (fun delErr => ret tt)
           else ret tt);;
          findByIdAndDelete MBusiness businessId;;
          ret (Json 200 true (lit "Business listing deleted successfully.") NoPayload)
    | _ => ret (Next (new_Error_status (lit "Business listing not found.") 404))
    end).

(** ** userController.js *)

Definition DEFAULT_AVATAR_PATH : jsstring :=
  lit "/uploads/profile-pics/default_avatar.png".

Definition new_TypeError (message : jsstring) : Error :=
  {| e_name := lit "TypeError"; e_message := message;
     e_statusCode := None; e_code := None; e_field := None |}.

(** The part of [updateMyProfile] after the text fields and the email:
    the profile picture, the save and the response. *)
Definition updateMyProfile_picture_and_save (user : User)
    (oldProfilePicUrl oldPublicId : option jsstring)
    (profilePicFile : option File) : M Reply :=
  let* user :=
    match profilePicFile with
    | Some _ =>
        let* uploadResult :=
          uploadToCloudinary profilePicFile (lit "patwa_toli/profile-pics") in
        if negb (JS.truthy (secure_url_of uploadResult))
           || negb (JS.truthy (public_id_of uploadResult))
        then throw (new_Error (lit "Profile picture upload failed."))
        else
          let user := set_u_profilePic (secure_url_of uploadResult) user in
          (if JS.truthy oldPublicId
              && negb (bool_decide (oldProfilePicUrl = Some DEFAULT_AVATAR_PATH))
           then try_catch (deleteFromCloudinary oldPublicId None;; ret tt)
                          (fun delErr => ret tt)
           else ret tt);;
          ret user
    | None => ret user
    end in
  let* updatedUser := save (DUser user) in
  let* responseProfile := findById MUser (doc_id updatedUser) in
  let* postCount := Post_countByUser (doc_id updatedUser) in
  match responseProfile with
  | Some (DUser profile) =>
      ret (Json 200 true (lit "Profile updated successfully")
             (Profile profile postCount))
  | _ => throw (new_TypeError
           (lit "Cannot read properties of null (reading 'toObject')"))
  end.

Definition updateMyProfile (user : ReqUser)
    (fullname fathername dob address phone email bio : option jsstring)
    (profilePicFile : option File) : M Reply :=
  let userId := user_id user in
  handler (
    let* env := ask in
    let* found := findById MUser userId in
    match found with
    | Some (DUser user) =>
        let oldProfilePicUrl := u_profilePic user in
        let oldPublicId := getPublicIdFromUrl oldProfilePicUrl in
        let user :=
          assign set_u_fullname (fun user => default (u_fullname user) fullname)
            user in
        let user :=
          assign set_u_fathername
            (fun user => default (u_fathername user) fathername) user in
        let user :=
          assign set_u_dob
            (fun user =>
               if JS.truthy dob then Date_parse env (str dob) else u_dob user)
            user in
        let user :=
          assign set_u_address (fun user => default (u_address user) address)
            user in
        let user :=
          assign set_u_phone (fun user => default (u_phone user) phone) user in
        let user :=
          assign set_u_bio (fun user => default (u_bio user) bio) user in
        let newEmailLower :=
          if JS.truthy email then Some (toLowerCase env (str email)) else None in
        if JS.truthy newEmailLower
           && negb (bool_decide (str newEmailLower = u_email user))
        then
          let* emailExists := User_emailExists (str newEmailLower) userId in
          if emailExists
          then ret (Next (new_Error_status (lit "Email already in use.") 400))
          else
            let user := set_u_email (str newEmailLower) user in
            updateMyProfile_picture_and_save user oldProfilePicUrl oldPublicId
              profilePicFile
        else
          updateMyProfile_picture_and_save user oldProfilePicUrl oldPublicId
            profilePicFile
    | _ => ret (Next (new_Error_status (lit "User not found.") 404))
    end).

(** ** postController.js *)

Definition createPost (user : ReqUser) (content : option jsstring)
    (imageFile videoFile : option File) : M Reply :=
  let userId := user_id user in
  if negb (JS.truthy content) && negb (bool_decide (is_Some imageFile))
     && negb (bool_decide (is_Some videoFile))
  then ret (Next (new_Error (lit "Post must contain text content or media.")))
  else handler (
    let* media :=
      match imageFile, videoFile with
      | Some _, _ =>
          let* r := uploadToCloudinary imageFile (lit "patwa_toli/posts") in
          ret (Some (lit "image"), r)
      | None, Some _ =>
          let* r := uploadToCloudinary videoFile (lit "patwa_toli/posts") in
          ret (Some (lit "video"), r)
      | None, None => ret (None, None)
      end in
    let postMediaType : option jsstring := fst media in
    let uploadResult : option UploadApiResponse := snd media in
    if (bool_decide (is_Some imageFile) || bool_decide (is_Some videoFile))
       && (negb (JS.truthy (secure_url_of uploadResult))
           || negb (JS.truthy (public_id_of uploadResult)))
    then throw (new_Error
           (lit "Cloudinary upload failed for post "
            ++ str (JS.or_else postMediaType (Some (lit "media"))) ++ lit "."))
    else
      let mediaUrl := uploadResult ≫= secure_url in
      (* [mediaPublicId: uploadResult.public_id] is handed to [new Post] as
         well; the schema has no such path and the value is not kept. *)
      let* env := ask in
      let* t := get_trace in
      let post :=
        {| p_id := new_ObjectId env t;
           p_user := userId;
           p_content := str (JS.or_else content (Some []));
           p_image :=
             if bool_decide (postMediaType = Some (lit "image")) then mediaUrl
             else None;
           p_video :=
             if bool_decide (postMediaType = Some (lit "video")) then mediaUrl
             else None |} in
      let* savedPost := save_new (DPost post) in
      let* populatedPost := findById MPost (doc_id savedPost) in
      ret (Json 201 true (lit "Post created successfully.") (Payload populatedPost))).

(** [deletePost] reads [post.mediaPublicId] before it derives a handle
    from the URL; on a loaded post the field is [undefined]. *)
Definition deletePost (user : ReqUser) (postId : jsstring) : M Reply :=
  let userId := user_id user in
  let* env := ask in
  if negb (ObjectId_isValid env postId)
  then ret (Next (new_Error (lit "Invalid post ID.")))
  else handler (
    let* post := findById_param MPost postId in
    match post with
    | Some (DPost post) =>
        if negb (p_user post =? userId)%N && negb (user_isAdmin user)
        then ret (Next (new_Error_status (lit "Forbidden.") 403))
        else
          let publicIdToDelete :=
            JS.or_else (p_mediaPublicId post)
              (getPublicIdFromUrl (JS.or_else (p_image post) (p_video post))) in
          (if JS.truthy publicIdToDelete
           then try_catch
                  (let resourceType :=
                     if JS.truthy (p_video post) then lit "video" else lit "image" in
                   deleteFromCloudinary publicIdToDelete (Some resourceType);;
                   ret tt)
                  (fun cloudinaryError => ret tt)
           else ret tt);;
          findByIdAndDelete MPost postId;;
          ret (Json 200 true (lit "Post deleted successfully.") NoPayload)
    | _ => ret (Next (new_Error_status (lit "Post not found.") 404))
    end).

(** ** adminController.js *)

Definition rejectUser (userIdToReject : jsstring) : M Reply :=
  try_catch (
    let* user := findById_param MUser userIdToReject in
    match user with
    | Some (DUser user) =>
        if u_verified user
        then ret (Next (new_Error_status
               (lit "Cannot reject an already verified user. Use a delete function if needed.")
               400))
        else
          (if JS.truthy (u_profilePic user)
              && negb (bool_decide
                   (u_profilePic user = Some (lit "/uploads/profile-pics/default_avatar.png")))
           then log (CUnlink (str (u_profilePic user)))
           else ret tt);;
          let deletedUsername := u_username user in
          findByIdAndDelete MUser userIdToReject;;
          ret (Json 200 true
                 (lit "User registration for " ++ deletedUsername
                  ++ lit " rejected and record deleted.") NoPayload)
    | _ => ret (Next (new_Error_status (lit "User not found.") 404))
    end)
    (fun error =>
       if bool_decide (e_name error = lit "CastError")
       then ret (Next (new_Error_status (lit "User not found (Invalid ID format).") 404))
       else ret (Next error)).

(** ** uploadMiddleware.js *)

(** A file part of a multipart request body, as multer reads it from the
    request stream. *)
Record FilePart := {
  part_fieldname : jsstring;
  part_originalname : jsstring;
  part_mimetype : jsstring;
  part_data : Buffer;
}.

Definition imageFileFilter (file : FilePart) : Outcome bool :=
  if JS.startsWith (part_mimetype file) (lit "image/") then Resolved true
  else Rejected (new_MulterError (lit "LIMIT_UNEXPECTED_FILE")
                   (lit "Only image files are allowed!")).

Definition mediaFileFilter (file : FilePart) : Outcome bool :=
  if JS.startsWith (part_mimetype file) (lit "image/")
     || JS.startsWith (part_mimetype file) (lit "video/")
  then Resolved true
  else Rejected (new_MulterError (lit "LIMIT_UNEXPECTED_FILE")
                   (lit "Only image or video files are allowed!")).

Definition FIVE_MB : N := 5 * 1024 * 1024.
Definition FIFTY_MB : N := 50 * 1024 * 1024.
Definition TEN_MB : N := 10 * 1024 * 1024.
Definition TWENTY_FIVE_MB : N := 25 * 1024 * 1024.

(** The options given to [multer({ storage, fileFilter, limits })]; the
    storage is always the memory storage. *)
Record MulterOptions := {
  fileFilter : FilePart -> Outcome bool;
  limits_fileSize : N;
}.

(** The multer library is a dependency of the repository, not part of its
    sources; this is its documented behaviour for the options above.  The
    file parts are taken in order.  A part whose field has no file left to
    receive is refused with [LIMIT_UNEXPECTED_FILE]; then the file filter
    decides from the part's headers, and its error aborts the request; a
    part that is let in and is longer than [limits.fileSize] aborts the
    request with [LIMIT_FILE_SIZE]; otherwise the memory storage keeps the
    part as a file with its buffer. *)
Fixpoint multer_files (opts : MulterOptions) (filesLeft : gmap jsstring nat)
    (parts : list FilePart) : Outcome (list File) :=
  match parts with
  | [] => Resolved []
  | part :: parts =>
      match filesLeft !! part_fieldname part with
      | Some (S n) =>
          let filesLeft := <[part_fieldname part := n]> filesLeft in
          match fileFilter opts part with
          | Rejected err => Rejected err
          | Resolved false => multer_files opts filesLeft parts
          | Resolved true =>
              if (limits_fileSize opts <? byteLength (part_data part))%N
              then Rejected (new_MulterError (lit "LIMIT_FILE_SIZE")
                               (part_fieldname part))
              else
                match multer_files opts filesLeft parts with
                | Rejected err => Rejected err
                | Resolved files =>
                    Resolved ({| fieldname := part_fieldname part;
                                 originalname := part_originalname part;
                                 mimetype := part_mimetype part;
                                 buffer := Some (part_data part);
                                 filesize := byteLength (part_data part) |} :: files)
                end
          end
      | _ => Rejected (new_MulterError (lit "LIMIT_UNEXPECTED_FILE")
                         (part_fieldname part))
      end
  end.

(** [multer(opts).single(name)]: the outcome is [req.file]. *)
Definition multer_single (opts : MulterOptions) (name : jsstring)
    (parts : list FilePart) : Outcome (option File) :=
  match multer_files opts {[ name := 1%nat ]} parts with
  | Rejected err => Rejected err
  | Resolved files => Resolved (head files)
  end.

(** [multer(opts).fields(specs)]: the outcome is [req.files], here the
    accepted files in order. *)
Definition multer_fields (opts : MulterOptions) (specs : list (jsstring * nat))
    (parts : list FilePart) : Outcome (list File) :=
  multer_files opts (list_to_map specs) parts.

(** [req.files?.[name]?.[0]]. *)
Definition first_file (name : jsstring) (files : list File) : option File :=
  head (filter (fun f => fieldname f = name) files).

Definition uploadProfilePic : list FilePart -> Outcome (option File) :=
  multer_single {| fileFilter := imageFileFilter; limits_fileSize := FIVE_MB |}
    (lit "profilePic").

Definition uploadPostMedia : list FilePart -> Outcome (list File) :=
  multer_fields {| fileFilter := mediaFileFilter; limits_fileSize := FIFTY_MB |}
    [(lit "image", 1%nat); (lit "video", 1%nat)].

Definition uploadStoryMedia : list FilePart -> Outcome (option File) :=
  multer_single {| fileFilter := mediaFileFilter; limits_fileSize := TWENTY_FIVE_MB |}
    (lit "storyMedia").

Definition uploadEventImage : list FilePart -> Outcome (option File) :=
  multer_single {| fileFilter := imageFileFilter; limits_fileSize := TEN_MB |}
    (lit "eventImage").

Definition uploadBusinessImage : list FilePart -> Outcome (option File) :=
  multer_single {| fileFilter := imageFileFilter; limits_fileSize := TEN_MB |}
    (lit "businessImage").

(** ** The routes with an upload

    [router.post(path, protect, upload, controller)]: the upload middleware
    runs before the controller and passes its error to [next] instead of
    calling the controller.  The request arrives here authenticated. *)

Definition with_upload {A} (upload : list FilePart -> Outcome A)
    (parts : list FilePart) (controller : A -> M Reply) : M Reply :=
  match upload parts with
  | Rejected err => ret (Next err)
  | Resolved files => controller files
  end.

(** POST /api/posts *)
Definition route_createPost (user : ReqUser) (content : option jsstring)
    (parts : list FilePart) : M Reply :=
  with_upload uploadPostMedia parts (fun files =>
    createPost user content (first_file (lit "image") files)
      (first_file (lit "video") files)).

(** PUT /api/users/me *)
Definition route_updateMyProfile (user : ReqUser)
    (fullname fathername dob address phone email bio : option jsstring)
    (parts : list FilePart) : M Reply :=
  with_upload uploadProfilePic parts
    (updateMyProfile user fullname fathername dob address phone email bio).

(** POST /api/stories *)
Definition route_createStory (user : ReqUser) (caption : option jsstring)
    (parts : list FilePart) : M Reply :=
  with_upload uploadStoryMedia parts (createStory user caption).

(** POST /api/events *)
Definition route_createEvent (user : ReqUser)
    (title description category eventDate location : option jsstring)
    (parts : list FilePart) : M Reply :=
  with_upload uploadEventImage parts
    (createEvent user title description category eventDate location).

(** PUT /api/events/:eventId *)
Definition route_updateEvent (user : ReqUser) (eventId : jsstring)
    (title description category eventDate location : option jsstring)
    (parts : list FilePart) : M Reply :=
  with_upload uploadEventImage parts
    (updateEvent user eventId title description category eventDate location).

(** POST /api/businesses *)
Definition route_createBusiness (user : ReqUser)
    (name description category address phone website email : option jsstring)
    (parts : list FilePart) : M Reply :=
  with_upload uploadBusinessImage parts
    (createBusiness user name description category address phone website email).

(** PUT /api/businesses/:businessId *)
Definition route_updateBusiness (user : ReqUser) (businessId : jsstring)
    (name description category address phone website email : option jsstring)
    (parts : list FilePart) : M Reply :=
  with_upload uploadBusinessImage parts
    (updateBusiness user businessId name description category address phone
       website email).

(** ** Reading the log *)

Definition is_upload (c : Call) : bool :=
  match c with CUpload _ _ _ => true | _ => false end.

Definition is_format (c : Call) : bool :=
  match c with CFormat _ _ _ => true | _ => false end.

Definition is_destroy (c : Call) : bool :=
  match c with CDestroy _ _ _ => true | _ => false end.

(** A write of a document: [save()] of a new or of a loaded document. *)
Definition is_save (c : Call) : bool :=
  match c with
  | CDb (Insert _) _ | CDb (Update _) _ => true
  | _ => false
  end.

Definition is_db_delete (c : Call) : bool :=
  match c with CDb (DeleteById _ _) _ => true | _ => false end.

(** A request served from a world with an empty log. *)
Definition fresh (d : Db) : World := {| db := d; trace := [] |}.

Definition run {A} (m : M A) (env : Env) (d : Db) : Outcome A * World :=
  m env (fresh d).

(** ** The structural shape of a media URL

    [.../upload/v<version>/<folder>/<name>.<ext>], stated on the
    [/]-separated segments of the URL and parametrised by what counts as
    a version segment. *)

Definition no_slash (x : jsstring) : Prop := cu "/" ∉ x.

(** The whole pattern, with the handle [<folder>/<name>] it denotes;
    [early] is what the segments before the version segment must not be. *)
Definition media_url_shape (version early : jsstring -> bool)
    (url handle : jsstring) : Prop :=
  exists pre mid ver folders name ext,
    url = JS.join (lit "/")
            (pre ++ lit "upload" :: mid ++ ver :: folders ++ [name ++ lit "." ++ ext]) /\
    Forall no_slash
      (pre ++ lit "upload" :: mid ++ ver :: folders ++ [name ++ lit "." ++ ext]) /\
    version ver = true /\
    Forall (fun x => early x = false) (pre ++ mid) /\
    (cu "." ∉ ext) /\
    handle = JS.join (lit "/") (folders ++ [name]).

(** Only the path: a segment [upload], later a version segment, and
    something after it. *)
Definition upload_version_path (version : jsstring -> bool) (url : jsstring) : Prop :=
  exists before ver after,
    url = JS.join (lit "/") (before ++ ver :: after) /\
    Forall no_slash (before ++ ver :: after) /\
    lit "upload" ∈ before /\
    version ver = true /\
    after ≠ [].

Definition isDigit (c : N) : bool := ((48 <=? c) && (c <=? 57))%N.

(** The version segment in the words of the specification: [v] followed
    by digits. *)
Definition v_digits (x : jsstring) : bool :=
  match x with
  | c :: d :: ds => (c =? cu "v")%N && forallb isDigit (d :: ds)
  | _ => false
  end.

Definition never (x : jsstring) : bool := false.

(** ** A test double of the environment

    The remote store answers every upload with [up] and every delete with
    [del]; the document store fails the operations that [fault] names. *)

Definition test_env (up : Outcome UploadApiResponse) (del : Outcome DestroyResult)
    (fault : DbOp -> option Error) : Env :=
  {| path_extname := fun _ => lit ".jpg";
     toLowerCase := fun s => s;
     Date_parse := fun _ => Some 1000;
     ObjectId_isValid := fun _ => true;
     castObjectId := fun s => Some (N.of_nat (length s));
     email_test := fun _ => true;
     website_test := fun _ => true;
     Date_now := fun _ => 0;
     new_ObjectId := fun t => (100 + N.of_nat (length t))%N;
     datauri_format := fun _ _ _ => Resolved (Some (lit "data:image/jpeg;base64,AAAA"));
     cloudinary_upload := fun _ _ _ => up;
     cloudinary_destroy := fun _ _ _ => del;
     db_fault := fun _ op => fault op |}.

Definition no_fault (op : DbOp) : option Error := None.

Definition empty_db : Db :=
  {| stories := ∅; events := ∅; businesses := ∅; users := ∅; posts := ∅ |}.

Definition new_image : UploadApiResponse :=
  {| secure_url :=
       Some (lit "https://res.cloudinary.com/demo/image/upload/v2/patwa_toli/new.jpg");
     public_id := Some (lit "patwa_toli/new") |}.

(** An answer of the remote store with a URL and no handle. *)
Definition url_only : UploadApiResponse :=
  {| secure_url :=
       Some (lit "https://res.cloudinary.com/demo/image/upload/v2/patwa_toli/events/e.jpg");
     public_id := None |}.

Definition destroyed (r : jsstring) : DestroyResult :=
  {| d_result := Some r; d_message := None |}.

(** A remote store where every handle is reported as not found, and one
    that is down. *)
Definition store_without_asset : Env :=
  test_env (Resolved new_image) (Resolved (destroyed (lit "not found"))) no_fault.

Definition store_down : Env :=
  test_env (Resolved new_image) (Rejected (new_Error (lit "remote store down")))
    no_fault.

(** A remote store that answers every request with success. *)
Definition store_ok : Env :=
  test_env (Resolved new_image) (Resolved (destroyed (lit "ok"))) no_fault.

(** The remote store answers with success and the document store refuses
    every update. *)
Definition store_ok_write_fails : Env :=
  test_env (Resolved new_image) (Resolved (destroyed (lit "ok")))
    (fun op => match op with
               | Update _ => Some (new_Error (lit "write failed"))
               | _ => None
               end).

(** The remote store answers every upload with a URL and no handle. *)
Definition store_url_only : Env :=
  test_env (Resolved url_only) (Resolved (destroyed (lit "ok"))) no_fault.

Definition jpeg (field : jsstring) : File :=
  {| fieldname := field; originalname := lit "photo.jpg";
     mimetype := lit "image/jpeg";
     buffer := Some {| byteLength := 2097152; byteAt := fun _ => 0%N |};
     filesize := 2097152 |}.

Definition alice : ReqUser := {| user_id := 7; user_isAdmin := false |}.

(** ** Orderings read off the log *)

(** An upload that resolved with a URL. *)
Definition upload_succeeded (c : Call) : bool :=
  match c with
  | CUpload _ _ (Resolved res) => JS.truthy (secure_url res)
  | _ => false
  end.

(** An upload that resolved with a URL and a handle. *)
Definition upload_confirmed (c : Call) : bool :=
  match c with
  | CUpload _ _ (Resolved res) =>
      JS.truthy (secure_url res) && JS.truthy (public_id res)
  | _ => false
  end.

(** A write of a document that the store accepted. *)
Definition save_succeeded (c : Call) : bool :=
  match c with
  | CDb (Insert _) None | CDb (Update _) None => true
  | _ => false
  end.

(** Every remote delete is of the handle [old], and comes after an upload
    that succeeded and before any write of a document. *)
Definition destroys_old_after_upload_before_save (old : option jsstring)
    (t : list Call) : Prop :=
  forall pre publicId resourceType r post,
    t = pre ++ CDestroy publicId resourceType r :: post ->
    Some publicId = old /\
    Exists (fun c => upload_succeeded c = true) pre /\
    Forall (fun c => is_save c = false) pre.

(** The order of the specification: every remote delete comes after an
    upload that succeeded and after a write that the store accepted. *)
Definition destroy_after_persist (t : list Call) : Prop :=
  forall pre publicId resourceType r post,
    t = pre ++ CDestroy publicId resourceType r :: post ->
    Exists (fun c => upload_succeeded c = true) pre /\
    Exists (fun c => save_succeeded c = true) pre.

(** A checker for the first order: [uploaded] and [saved] say what the
    log has shown so far. *)
Definition destroy_allowed (old : option jsstring) (uploaded saved : bool)
    (c : Call) : bool :=
  match c with
  | CDestroy publicId _ _ =>
      bool_decide (Some publicId = old) && uploaded && negb saved
  | _ => true
  end.

Fixpoint check_destroy_order (old : option jsstring) (uploaded saved : bool)
    (t : list Call) : bool :=
  match t with
  | [] => true
  | c :: t' =>
      destroy_allowed old uploaded saved c
      && check_destroy_order old (uploaded || upload_succeeded c)
           (saved || is_save c) t'
  end.

(** The handle that a replace operation finds stored before it starts. *)
Definition old_event_handle (env : Env) (d : Db) (eventId : jsstring)
  : option jsstring :=
  castObjectId env eventId ≫= fun k => events d !! k ≫= ev_imagePublicId.

Definition old_business_handle (env : Env) (d : Db) (businessId : jsstring)
  : option jsstring :=
  castObjectId env businessId ≫= fun k => businesses d !! k ≫= b_imagePublicId.

Definition old_profile_handle (d : Db) (user : ReqUser) : option jsstring :=
  users d !! user_id user ≫= fun u => getPublicIdFromUrl (u_profilePic u).

(** Logs without a remote delete, and without a local unlink. *)
Definition no_destroy (t : list Call) : Prop :=
  Forall (fun c => is_destroy c = false) t.

(** Logs in which every remote delete is of the handle [stored]: none
    when there is no such handle. *)
Definition destroys_only (stored : option jsstring) (t : list Call) : Prop :=
  Forall (fun c =>
            forall publicId resourceType r,
              c = CDestroy publicId resourceType r ->
              JS.truthy stored = true /\ publicId = str stored) t.

Definition is_unlink (c : Call) : bool :=
  match c with CUnlink _ => true | _ => false end.

Definition no_unlink (t : list Call) : Prop :=
  Forall (fun c => is_unlink c = false) t.

(** Every write of a document comes after an upload that resolved with a
    URL and a handle. *)
Definition save_after_confirmed_upload (t : list Call) : Prop :=
  forall pre c post,
    t = pre ++ c :: post -> is_save c = true ->
    Exists (fun c => upload_confirmed c = true) pre.

Fixpoint check_save_order (confirmed : bool) (t : list Call) : bool :=
  match t with
  | [] => true
  | c :: t' =>
      (if is_save c then confirmed else true)
      && check_save_order (confirmed || upload_confirmed c) t'
  end.

(** A file part longer than the limit of its upload class. *)
Definition oversize (limit : N) (part : FilePart) : Prop :=
  (limit < byteLength (part_data part))%N.

(** An upload or a request refused with a [MulterError]. *)
Definition refused_by_multer {A} (r : Outcome A) : Prop :=
  exists e, r = Rejected e /\ e_name e = lit "MulterError".

(** A request that ended in [next(err)] with a [MulterError], without any
    call to the outside. *)
Definition request_refused (r : Outcome Reply * World) (w : World) : Prop :=
  exists e, r = (Resolved (Next e), w) /\ e_name e = lit "MulterError".

(** A video of 60 MB, and the same bytes declared as plain text. *)
Definition big_video : FilePart :=
  {| part_fieldname := lit "video"; part_originalname := lit "clip.mp4";
     part_mimetype := lit "video/mp4";
     part_data := {| byteLength := 60 * 1024 * 1024; byteAt := fun _ => 0%N |} |}.

Definition big_text : FilePart :=
  {| part_fieldname := lit "video"; part_originalname := lit "notes.txt";
     part_mimetype := lit "text/plain";
     part_data := {| byteLength := 60 * 1024 * 1024; byteAt := fun _ => 0%N |} |}.

(** A file filter of the source never skips a file silently, and refuses
    with a [MulterError]. *)
Definition strict_filter (filter : FilePart -> Outcome bool) : Prop :=
  forall part,
    filter part = Resolved true \/
    exists e, filter part = Rejected e /\ e_name e = lit "MulterError".

(** The owner of a document, or an administrator. *)
Definition authorised (owner : ObjectId) (user : ReqUser) : Prop :=
  owner = user_id user \/ user_isAdmin user = true.

(** ** The outcome and the world after a computation *)

Definition post {A} (m : M A) (env : Env) (w : World)
    (Q : Outcome A -> World -> Prop) : Prop :=
  Q (fst (m env w)) (snd (m env w)).

(** ** Sample documents *)

Definition old_event : Event :=
  {| ev_id := 2; ev_title := lit "Mela"; ev_description := lit "Annual fair";
     ev_category := lit "Cultural"; ev_eventDate := Some 5000;
     ev_location := lit "Gaya"; ev_organizer := 7; ev_attendees := [7%N];
     ev_image :=
       Some (lit "https://res.cloudinary.com/demo/image/upload/v1/patwa_toli/events/old.jpg");
     ev_imagePublicId := Some (lit "patwa_toli/events/old") |}.

Definition db_with_event : Db := with_events <[2%N := old_event]> empty_db.



(** A story whose handle was not stored, although its URL would give one. *)
Definition story_without_handle : Story :=
  {| s_id := 2; s_user := 7; s_mediaType := lit "image";
     s_mediaUrl :=
       Some (lit "https://res.cloudinary.com/demo/image/upload/v1/patwa_toli/stories/abc.jpg");
     s_publicId := None; s_caption := []; s_expiresAt := Some 5000 |}.

Definition db_with_story : Db := with_stories <[2%N := story_without_handle]> empty_db.

Definition story_with_handle : Story :=
  {| s_id := 2; s_user := 7; s_mediaType := lit "image";
     s_mediaUrl :=
       Some (lit "https://res.cloudinary.com/demo/image/upload/v1/patwa_toli/stories/abc.jpg");
     s_publicId := Some (lit "patwa_toli/stories/abc"); s_caption := [];
     s_expiresAt := Some 5000 |}.

Definition a_post : Post :=
  {| p_id := 2; p_user := 7; p_content := lit "hello";
     p_image :=
       Some (lit "https://res.cloudinary.com/demo/image/upload/v1/patwa_toli/posts/pic.jpg");
     p_video := None |}.

Definition a_business : Business :=
  {| b_id := 2; b_name := lit "Loom"; b_description := lit "Handloom sarees";
     b_category := lit "Retail"; b_address := lit "Manpur"; b_phone := None;
     b_website := None; b_email := None; b_owner := 7;
     b_image :=
       Some (lit "https://res.cloudinary.com/demo/image/upload/v1/patwa_toli/businesses/b.jpg");
     b_imagePublicId := Some (lit "patwa_toli/businesses/b") |}.

Definition a_user : User :=
  {| u_id := 7; u_username := lit "alice"; u_fullname := lit "Alice";
     u_fathername := lit "Bob"; u_dob := Some 0; u_address := lit "Gaya";
     u_phone := lit "100"; u_email := lit "alice@example.com"; u_bio := [];
     u_profilePic := Some DEFAULT_AVATAR_PATH; u_verified := false;
     u_isAdmin := false |}.

Definition sample_db : Db :=
  {| stories := {[ 2%N := story_with_handle ]};
     events := {[ 2%N := old_event ]};
     businesses := {[ 2%N := a_business ]};
     users := {[ 7%N := a_user ]};
     posts := {[ 2%N := a_post ]} |}.

(** ** eventController.js: attending an event *)

Definition set_ev_attendees (v : list ObjectId) (x : Event) : Event :=
  {| ev_id := ev_id x; ev_title := ev_title x;
     ev_description := ev_description x; ev_category := ev_category x;
     ev_eventDate := ev_eventDate x; ev_location := ev_location x;
     ev_organizer := ev_organizer x; ev_attendees := v;
     ev_image := ev_image x; ev_imagePublicId := ev_imagePublicId x |}.

(** The update operators [$addToSet] and [$pull] of the document store on
    an array of ids: the first appends the id unless the array has it, the
    second removes every occurrence of it. *)
Definition addToSet (x : ObjectId) (l : list ObjectId) : list ObjectId :=
  if bool_decide (x ∈ l) then l else l ++ [x].

Definition pull (x : ObjectId) (l : list ObjectId) : list ObjectId :=
  filter (fun y => y ≠ x) l.

(** [Event.findByIdAndUpdate(id, update, { new: true })]: one call to the
    store, which finds the document and applies the update to it in one
    step; the log shows the call as the lookup by id that it starts with.
    The result is the updated document, [None] for [null]. *)
Definition Event_findByIdAndUpdate (id : jsstring) (update : Event -> Event)
  : M (option Event) :=
  let* k := cast id in
  db_call (FindById MEvent k);;
  let* d := get_db in
  match events d !! k with
  | Some event =>
      let updated := update event in
      put_db (with_events <[k := updated]> d);;
      ret (Some updated)
  | None => ret None
  end.

(** [attendEvent] and [unattendEvent].  The updated document is read with
    [.select('attendees')], and the response is
    [{ success, message, attendees: updatedEvent.attendees }]. *)
Definition attendEvent (user : ReqUser) (eventId : jsstring) : M Reply :=
  let userId := user_id user in
  let* env := ask in
  if negb (ObjectId_isValid env eventId)
  then ret (Next (new_Error (lit "Invalid ID.")))
  else handler (
    let* updatedEvent :=
      Event_findByIdAndUpdate eventId
        (assign set_ev_attendees (fun event => addToSet userId (ev_attendees event))) in
    match updatedEvent with
    | None => ret (Next (new_Error (lit "Event not found.")))
    | Some updatedEvent =>
        ret (Json 200 true (lit "Attending.") (Attendees (ev_attendees updatedEvent)))
    end).

Definition unattendEvent (user : ReqUser) (eventId : jsstring) : M Reply :=
  let userId := user_id user in
  let* env := ask in
  if negb (ObjectId_isValid env eventId)
  then ret (Next (new_Error (lit "Invalid ID.")))
  else handler (
    let* updatedEvent :=
      Event_findByIdAndUpdate eventId
        (assign set_ev_attendees (fun event => pull userId (ev_attendees event))) in
    match updatedEvent with
    | None => ret (Next (new_Error (lit "Event not found.")))
    | Some updatedEvent =>
        ret (Json 200 true (lit "Removed from attendees.")
               (Attendees (ev_attendees updatedEvent)))
    end).

(** ** storyController.js: the grouping of the story feed

    [getStoryFeed] reads the active stories of the users of the feed,
    newest first and with their [user] populated, and groups them by user
    with [stories.reduce(..., {})]; the response is [Object.values] of the
    accumulator.  The accumulator is an object keyed by the user id as a
    string; its keys keep the order in which they were added. *)

(** [story.user] once populated with [username fullname profilePic]. *)
Record FeedUser := {
  fu_id : ObjectId;
  fu_username : jsstring;
  fu_fullname : jsstring;
  fu_profilePic : option jsstring;
}.

(** A story as the query returns it; [fs_user] is [None] when the
    population found no user. *)
Record FeedStory := {
  fs_id : ObjectId;
  fs_user : option FeedUser;
  fs_mediaType : jsstring;
  fs_mediaUrl : option jsstring;
  fs_publicId : option jsstring;
  fs_caption : jsstring;
  fs_createdAt : JSDate;
}.

(** The object pushed for a story. *)
Record StoryItem := {
  i_id : ObjectId;
  i_mediaType : jsstring;
  i_mediaUrl : option jsstring;
  i_publicId : option jsstring;
  i_caption : jsstring;
  i_createdAt : JSDate;
}.

(** A value of the accumulator: [{ user, stories }]. *)
Record StoryGroup := {
  g_user : FeedUser;
  g_stories : list StoryItem;
}.

Definition storyItem (story : FeedStory) : StoryItem :=
  {| i_id := fs_id story; i_mediaType := fs_mediaType story;
     i_mediaUrl := fs_mediaUrl story; i_publicId := fs_publicId story;
     i_caption := fs_caption story; i_createdAt := fs_createdAt story |}.

(** [acc[key]]. *)
Fixpoint group_get (key : ObjectId) (acc : list (ObjectId * StoryGroup))
  : option StoryGroup :=
  match acc with
  | [] => None
  | (k, g) :: acc' => if (k =? key)%N then Some g else group_get key acc'
  end.

(** [acc[key].stories.push(item)] for a key of the accumulator. *)
Fixpoint group_push (key : ObjectId) (item : StoryItem)
    (acc : list (ObjectId * StoryGroup)) : list (ObjectId * StoryGroup) :=
  match acc with
  | [] => []
  | (k, g) :: acc' =>
      if (k =? key)%N
      then (k, {| g_user := g_user g; g_stories := g_stories g ++ [item] |}) :: acc'
      else (k, g) :: group_push key item acc'
  end.

(** The callback of [reduce]. *)
Definition groupStory (acc : list (ObjectId * StoryGroup)) (story : FeedStory)
  : list (ObjectId * StoryGroup) :=
  match fs_user story with
  | None => acc
  | Some user =>
      let userIdStr := fu_id user in
      let acc :=
        match group_get userIdStr acc with
        | None =>
            acc ++ [(userIdStr,
                     {| g_user :=
                          {| fu_id := fu_id user; fu_username := fu_username user;
                             fu_fullname := fu_fullname user;
                             fu_profilePic := fu_profilePic user |};
                        g_stories := [] |})]
        | Some _ => acc
        end in
      group_push userIdStr (storyItem story) acc
  end.

Definition groupedStories (stories : list FeedStory) : list (ObjectId * StoryGroup) :=
  fold_left groupStory stories [].

(** [Object.values(groupedStories)]. *)
Definition storyFeed (stories : list FeedStory) : list StoryGroup :=
  snd <$> groupedStories stories.

(** The stories of one user, in the order of the query. *)
Definition stories_of (userId : ObjectId) (stories : list FeedStory) : list FeedStory :=
  filter (fun story => fu_id <$> fs_user story = Some userId) stories.

(** ** More readers of the log *)

(** A call to the remote store or to the data-URI parser. *)
Definition is_remote (c : Call) : bool :=
  is_format c || is_upload c || is_destroy c.

(** A call that changes the document store. *)
Definition is_write (c : Call) : bool := is_save c || is_db_delete c.

Definition no_upload (t : list Call) : Prop :=
  Forall (fun c => is_upload c = false) t.

Definition no_remote (t : list Call) : Prop :=
  Forall (fun c => is_remote c = false) t.

Definition no_write (t : list Call) : Prop :=
  Forall (fun c => is_write c = false) t.

(** The uploads and the remote deletes of a log, in order. *)
Definition uploads (t : list Call) : list Call := List.filter is_upload t.

Definition destroys (t : list Call) : list Call := List.filter is_destroy t.

(** ** What the upload middleware hands to a controller *)

(** The file that the memory storage makes of a part. *)
Definition memoryFile (part : FilePart) : File :=
  {| fieldname := part_fieldname part;
     originalname := part_originalname part;
     mimetype := part_mimetype part;
     buffer := Some (part_data part);
     filesize := byteLength (part_data part) |}.

Definition is_image_type (mimetype : jsstring) : bool :=
  JS.startsWith mimetype (lit "image/").

Definition is_media_type (mimetype : jsstring) : bool :=
  JS.startsWith mimetype (lit "image/") || JS.startsWith mimetype (lit "video/").

(** A request that an upload middleware refuses, by the first part that
    it refuses: the parts before it are let through; the error is
    [LIMIT_FILE_SIZE] when the part comes under a field of the class that
    no part before it came under, has a type that [accepts] lets in, and
    is longer than [limit]; when the field or the type is not as the
    class wants it, the error is [LIMIT_UNEXPECTED_FILE]. *)
Definition refused_at_first {A} (upload : list FilePart -> Outcome A)
    (fields : list jsstring) (accepts : jsstring -> bool) (limit : N)
    (parts : list FilePart) : Prop :=
  exists pre part rest e,
    parts = pre ++ part :: rest /\
    (exists files, upload pre = Resolved files) /\
    upload parts = Rejected e /\
    if bool_decide (part_fieldname part ∈ fields)
       && bool_decide (part_fieldname part ∉ part_fieldname <$> pre)
       && accepts (part_mimetype part)
    then oversize limit part /\
         e = new_MulterError (lit "LIMIT_FILE_SIZE") (part_fieldname part)
    else e_name e = lit "MulterError" /\
         e_code e = Some (lit "LIMIT_UNEXPECTED_FILE").

(** A file filter of the source: it lets in the types that [accepts]
    names and refuses the others with [LIMIT_UNEXPECTED_FILE]. *)
Definition filter_of (accepts : jsstring -> bool)
    (filter : FilePart -> Outcome bool) : Prop :=
  forall part,
    if accepts (part_mimetype part) then filter part = Resolved true
    else exists e,
           filter part = Rejected e /\ e_name e = lit "MulterError" /\
           e_code e = Some (lit "LIMIT_UNEXPECTED_FILE").

(** A part under the field [name], of a type that [accepts] lets in and
    not longer than [limit]. *)
Definition part_within (name : jsstring) (accepts : jsstring -> bool) (limit : N)
    (part : FilePart) : Prop :=
  part_fieldname part = name /\
  accepts (part_mimetype part) = true /\
  (byteLength (part_data part) <= limit)%N.

(** The number of parts sent under a field. *)
Definition parts_under (name : jsstring) (parts : list FilePart) : nat :=
  length (filter (fun part => part_fieldname part = name) parts).

(** What a single-file upload middleware lets through: no file part, or
    one part within the bounds, which arrives as a file in memory; and a
    part within the bounds and shorter than the limit is let through. *)
Definition lets_through_one (upload : list FilePart -> Outcome (option File))
    (name : jsstring) (accepts : jsstring -> bool) (limit : N) : Prop :=
  (forall parts r,
     upload parts = Resolved r ->
     (parts = [] /\ r = None) \/
     (exists part,
        parts = [part] /\ r = Some (memoryFile part) /\
        part_within name accepts limit part)) /\
  (forall part,
     part_within name accepts limit part ->
     (byteLength (part_data part) < limit)%N ->
     upload [part] = Resolved (Some (memoryFile part))).

(** A JPEG image of 2 MB sent under a field. *)
Definition jpeg_part (field : jsstring) : FilePart :=
  {| part_fieldname := field; part_originalname := lit "photo.jpg";
     part_mimetype := lit "image/jpeg";
     part_data := {| byteLength := 2097152; byteAt := fun _ => 0%N |} |}.

Definition mp4_part (field : jsstring) : FilePart :=
  {| part_fieldname := field; part_originalname := lit "clip.mp4";
     part_mimetype := lit "video/mp4";
     part_data := {| byteLength := 2097152; byteAt := fun _ => 0%N |} |}.

(** The ids of the users of the stories that have one, in the order of
    the query, and the distinct values of a list of ids in the order in
    which they first occur. *)
Definition story_user_ids (stories : list FeedStory) : list ObjectId :=
  omap (fun story => fu_id <$> fs_user story) stories.

Definition first_seen (ids : list ObjectId) : list ObjectId :=
  fold_left (fun seen x => if bool_decide (x ∈ seen) then seen else seen ++ [x]) ids [].

(** Two events that differ at most in their attendees. *)
Definition same_but_attendees (e e' : Event) : Prop :=
  set_ev_attendees (ev_attendees e) e' = e.

(** Two stores that differ at most in their events. *)
Definition same_but_events (d d' : Db) : Prop :=
  stories d' = stories d /\ businesses d' = businesses d /\
  users d' = users d /\ posts d' = posts d.


(** ** Requests that are refused *)

(** A world after a request that changed nothing: the store is as it
    was, and the log has no call to the remote store, no write to the
    document store and no deletion of a local file. *)
Definition untouched (d : Db) (w : World) : Prop :=
  db w = d /\ no_remote (trace w) /\ no_write (trace w) /\ no_unlink (trace w).

(** The request handed an error to [next] and changed nothing; the error
    is [expected] unless the lookup of the document failed in the store. *)
Definition refused_with (expected : Error) (lookup : DbOp) (env : Env) (d : Db)
    (r : Outcome Reply) (w : World) : Prop :=
  untouched d w /\
  (exists e, r = Resolved (Next e)) /\
  (db_fault env [] lookup = None -> r = Resolved (Next expected)).

(** Two more users: one who owns nothing in [sample_db], and an
    administrator. *)
Definition bob : ReqUser := {| user_id := 9; user_isAdmin := false |}.

Definition carol : ReqUser := {| user_id := 8; user_isAdmin := true |}.

(** ** What the create handlers store *)

Definition same_but_stories (d d' : Db) : Prop :=
  events d' = events d /\ businesses d' = businesses d /\
  users d' = users d /\ posts d' = posts d.

Definition same_but_businesses (d d' : Db) : Prop :=
  stories d' = stories d /\ events d' = events d /\
  users d' = users d /\ posts d' = posts d.

Definition same_but_posts (d d' : Db) : Prop :=
  stories d' = stories d /\ events d' = events d /\
  businesses d' = businesses d /\ users d' = users d.

(** A collection after a create request: what was there is still there,
    and a document that was not there is [new]. *)
Definition grown_by {A} (new : ObjectId -> A -> Prop) (before after : gmap ObjectId A)
  : Prop :=
  before ⊆ after /\
  forall k x, after !! k = Some x -> before !! k = Some x \/ new k x.

(** A story as [createStory] stores it for [user], given the log of the
    request: it has a URL and a handle, those of an upload into the
    stories folder that the log shows as resolved; its media type is
    [image] or [video]; its caption has at most 200 code units; it
    expires 24 hours after a time read during the request. *)
Definition created_story (env : Env) (user : ReqUser) (t : list Call)
    (k : ObjectId) (s : Story) : Prop :=
  s_id s = k /\
  s_user s = user_id user /\
  JS.truthy (s_mediaUrl s) = true /\
  JS.truthy (s_publicId s) = true /\
  (s_mediaType s = lit "image" \/ s_mediaType s = lit "video") /\
  (length (s_caption s) <= 200)%nat /\
  (exists content res,
     CUpload content (lit "patwa_toli/stories") (Resolved res) ∈ t /\
     s_mediaUrl s = secure_url res /\ s_publicId s = public_id res) /\
  (exists t0, t0 `prefix_of` t /\ s_expiresAt s = Some (Date_now env t0 + 86400000)).

(** The media of a new document and the log of the request: no media and
    no upload, or the URL of an upload into [folder] that the log shows
    as resolved, together with the handle of the same answer. *)
Definition media_of_upload (folder : jsstring) (t : list Call)
    (url handle : option jsstring) : Prop :=
  (url = None /\ handle = None /\ no_upload t) \/
  (JS.truthy url = true /\
   exists content res,
     CUpload content folder (Resolved res) ∈ t /\
     url = secure_url res /\ handle = public_id res).

(** A business listing as [createBusiness] stores it. *)
Definition created_business (user : ReqUser) (t : list Call)
    (k : ObjectId) (b : Business) : Prop :=
  b_id b = k /\
  b_owner b = user_id user /\
  b_category b ∈ Business_categories /\
  media_of_upload (lit "patwa_toli/businesses") t (b_image b) (b_imagePublicId b) /\
  (JS.truthy (b_image b) = JS.truthy (b_imagePublicId b)).

(** A post as [createPost] stores it: at most one of image and video, and
    no media, with no upload made, or the URL of an upload whose answer
    had a [handle] as well; the handle is not stored. *)
Definition created_post (user : ReqUser) (t : list Call)
    (k : ObjectId) (p : Post) : Prop :=
  p_id p = k /\
  p_user p = user_id user /\
  (exists handle,
     media_of_upload (lit "patwa_toli/posts") t (JS.or_else (p_image p) (p_video p))
       handle /\
     JS.truthy (JS.or_else (p_image p) (p_video p)) = JS.truthy handle) /\
  (p_image p = None \/ p_video p = None) /\
  p_mediaPublicId p = None.

(** An event as [createEvent] stores it; [now] is the time at which the
    request was checked. *)
Definition created_event (user : ReqUser) (now : Z) (t : list Call)
    (k : ObjectId) (e : Event) : Prop :=
  ev_id e = k /\
  ev_organizer e = user_id user /\
  ev_attendees e = [user_id user] /\
  (exists date, ev_eventDate e = Some date /\ now <= date) /\
  ev_category e ≠ [] /\
  media_of_upload (lit "patwa_toli/events") t (ev_image e) (ev_imagePublicId e).

(** ** What the update handlers store *)

(** An event after an update of [e] that came with [file]: the id, the
    organizer and the attendees are those of [e], and so are the image
    and its handle when no file came. *)
Definition updated_event (file : option File) (e e' : Event) : Prop :=
  ev_id e' = ev_id e /\
  ev_organizer e' = ev_organizer e /\
  ev_attendees e' = ev_attendees e /\
  (file = None -> ev_image e' = ev_image e /\ ev_imagePublicId e' = ev_imagePublicId e).

(** The same for a business listing, whose category also stays within
    the list when it was. *)
Definition updated_business (file : option File) (b b' : Business) : Prop :=
  b_id b' = b_id b /\
  b_owner b' = b_owner b /\
  (b_category b ∈ Business_categories -> b_category b' ∈ Business_categories) /\
  (file = None -> b_image b' = b_image b /\ b_imagePublicId b' = b_imagePublicId b).

(** A collection after an update request on the document [x] under [k]:
    as it was, or with a document under [k] that [updated] relates to [x]. *)
Definition changed_at {A} (k : ObjectId) (x : A) (updated : A -> A -> Prop)
    (before after : gmap ObjectId A) : Prop :=
  after = before \/ exists x', after = <[k := x']> before /\ updated x x'.

(** The remote calls of a replace request that succeeded: one upload,
    into [folder], resolved with [res]; and one remote delete, of the old
    handle, when there was one, none otherwise. *)
Definition replaced_once (folder : jsstring) (old : option jsstring)
    (res : UploadApiResponse) (t : list Call) : Prop :=
  (exists content, uploads t = [CUpload content folder (Resolved res)]) /\
  (exists answer,
     destroys t = if JS.truthy old
                  then [CDestroy (str old) (lit "auto") answer]
                  else []).

Definition same_but_users (d d' : Db) : Prop :=
  stories d' = stories d /\ events d' = events d /\
  businesses d' = businesses d /\ posts d' = posts d.

(** A user after a profile update of [u] that came with [file]: the id,
    the user name and the flags [verified] and [isAdmin] are those of
    [u], and so is the picture when no file came. *)
Definition updated_user (file : option File) (u u' : User) : Prop :=
  u_id u' = u_id u /\
  u_username u' = u_username u /\
  u_verified u' = u_verified u /\
  u_isAdmin u' = u_isAdmin u /\
  (file = None -> u_profilePic u' = u_profilePic u).

(** ** authMiddleware.js

    [jwt.verify(token, secret)] is the library's: for a token that the
    server signed and that has not expired it returns the payload, of
    which [protect] reads the [id] that [generateToken] put there; else it
    throws.  It is a parameter of [protect] here, from the token to that
    id. *)

(** What a middleware does with a request: a call of
    [res.status(status).json({ message })], or a call of [next()] with
    the user document that is in [req.user] at that moment. *)
Inductive MiddlewareAct :=
  | Answer (status : Z) (message : jsstring)
  | Proceed (user : User).

(** [protect]: its calls of [res.status(...).json(...)] and of [next()],
    in the order in which it makes them, as a test double of the response
    records them; what a response of Express makes of the calls is
    [on_express] below.  The [return] inside the [try] block ends the
    function; on the other ways out of the block the test on the token
    after it is reached, and with it a second call of
    [res.status(401).json] when the block has answered already.
    [select('-password')] leaves out a field that [User] does not have. *)
Definition protect (jwt_verify : option jsstring -> Outcome jsstring)
    (authorization : option jsstring) : M (list MiddlewareAct) :=
  if JS.truthy authorization && JS.startsWith (str authorization) (lit "Bearer")
  then
    let token := JS.split (cu " ") (str authorization) !! 1%nat in
    let* done :=
      try_catch (
        let* decoded_id := settle (jwt_verify token) in
        let* user := findById_param MUser decoded_id in
        match user with
        | Some (DUser user) => ret ([Proceed user], false)
        | _ => ret ([Answer 401 (lit "Not authorized, user not found")], true)
        end)
        (fun error =>
           if bool_decide (e_name error = lit "TokenExpiredError")
           then ret ([Answer 401 (lit "Not authorized, token expired")], false)
           else ret ([Answer 401 (lit "Not authorized, token failed verification")],
                     false)) in
    let acts : list MiddlewareAct := fst done in
    let returned : bool := snd done in
    if returned then ret acts
    else if negb (JS.truthy token)
    then ret (acts ++ [Answer 401 (lit "Not authorized, no token provided")])
    else ret acts
  else ret [Answer 401 (lit "Not authorized, no token provided")].

(** [admin], for the [req.user] that it finds. *)
Definition admin (reqUser : option User) : list MiddlewareAct :=
  match reqUser with
  | Some user =>
      if u_isAdmin user then [Proceed user]
      else [Answer 403 (lit "Forbidden: Not authorized as an admin")]
  | None => [Answer 403 (lit "Forbidden: Not authorized as an admin")]
  end.

(** The response of Express, a dependency of the repository, takes one
    answer: [res.status(...).json(...)] on a response that has been
    answered throws this error and sends nothing. *)
Definition new_HeadersSent : Error :=
  {| e_name := lit "Error";
     e_message := lit "Cannot set headers after they are sent to the client";
     e_statusCode := None; e_code := Some (lit "ERR_HTTP_HEADERS_SENT");
     e_field := None |}.

(** The calls of a middleware on a response of Express that nothing else
    answers meanwhile; [answered] says whether the response has been
    answered before.  An answer is sent when the response has none yet;
    else the call throws, the middleware ends there, and the promise of an
    [async] middleware rejects with the error.  The result is the calls
    that took effect and the rejection, if any. *)
Fixpoint on_express (answered : bool) (acts : list MiddlewareAct)
  : list MiddlewareAct * option Error :=
  match acts with
  | [] => ([], None)
  | Answer status message :: acts =>
      if answered then ([], Some new_HeadersSent)
      else
        let rest := on_express true acts in
        (Answer status message :: fst rest, snd rest)
  | Proceed user :: acts =>
      let rest := on_express answered acts in
      (Proceed user :: fst rest, snd rest)
  end.

(** ** The routes

    What a request meets on a route: the answer of a middleware, or the
    controller and what it does. *)
Inductive Sent :=
  | Answered (status : Z) (message : jsstring)
  | Handled (r : Reply).

(** The chaining of Express: a call of [next()] enters what comes after
    the middleware in the chain.  The list follows the order of the calls
    of the middleware. *)
Fixpoint serve (acts : list MiddlewareAct) (downstream : User -> M (list Sent))
  : M (list Sent) :=
  match acts with
  | [] => ret []
  | Answer status message :: acts =>
      let* rest := serve acts downstream in
      ret (Answered status message :: rest)
  | Proceed user :: acts =>
      let* here := downstream user in
      let* rest := serve acts downstream in
      ret (here ++ rest)
  end.

(** What the controllers read of [req.user]. *)
Definition reqUser (user : User) : ReqUser :=
  {| user_id := u_id user; user_isAdmin := u_isAdmin user |}.

Definition controller (c : M Reply) : M (list Sent) :=
  let* r := c in
  ret [Handled r].

(** [router.METHOD(path, protect, controller)], as for the routes of
    postRoutes.js and userRoutes.js.  Express does not look at the promise
    of [protect]: the request meets the calls that took effect. *)
Definition protected (jwt_verify : option jsstring -> Outcome jsstring)
    (authorization : option jsstring) (c : ReqUser -> M Reply) : M (list Sent) :=
  let* acts := protect jwt_verify authorization in
  serve (fst (on_express false acts)) (fun user => controller (c (reqUser user))).

(** postRoutes.js: [router.delete('/:postId', protect, deletePost)]. *)
Definition route_deletePost (jwt_verify : option jsstring -> Outcome jsstring)
    (authorization : option jsstring) (postId : jsstring) : M (list Sent) :=
  protected jwt_verify authorization (fun user => deletePost user postId).

(** adminRoutes.js: [router.use(protect, admin)] and
    [router.delete('/users/:userId/reject', rejectUser)]. *)
Definition route_rejectUser (jwt_verify : option jsstring -> Outcome jsstring)
    (authorization : option jsstring) (userId : jsstring) : M (list Sent) :=
  let* acts := protect jwt_verify authorization in
  serve (fst (on_express false acts)) (fun user =>
    serve (admin (Some user)) (fun _ => controller (rejectUser userId))).

(** The token that [protect] reads from the header. *)
Definition bearer_token (authorization : option jsstring) : option jsstring :=
  JS.split (cu " ") (str authorization) !! 1%nat.

(** The library refuses a missing or empty token. *)
Definition rejects_missing_token (jwt_verify : option jsstring -> Outcome jsstring)
  : Prop :=
  forall token, JS.truthy token = false -> exists e, jwt_verify token = Rejected e.

(** The header carries a token that verifies, and the id that the token
    carries is the key [k] of the stored [user]. *)
Definition token_of (jwt_verify : option jsstring -> Outcome jsstring)
    (env : Env) (d : Db) (authorization : option jsstring)
    (k : ObjectId) (user : User) : Prop :=
  JS.truthy authorization = true /\
  JS.startsWith (str authorization) (lit "Bearer") = true /\
  exists token id,
    bearer_token authorization = Some token /\ token ≠ [] /\
    jwt_verify (Some token) = Resolved id /\
    castObjectId env id = Some k /\
    users d !! k = Some user.

(** The world once [protect] has looked up the user of key [k]. *)
Definition looked_up (k : ObjectId) (w : World) : World :=
  {| db := db w; trace := trace w ++ [CDb (FindById MUser k) None] |}.

Definition is_refusal (s : Sent) : Prop :=
  exists message, s = Answered 401 message \/ s = Answered 403 message.

(** The header is [Bearer] followed by something. *)
Definition bearer (authorization : option jsstring) : bool :=
  JS.truthy authorization && JS.startsWith (str authorization) (lit "Bearer").

(** The log grew by [t], which has no write, no file removal and nothing
    for the remote store. *)
Definition grew_quietly (w w' : World) : Prop :=
  exists t,
    trace w' = trace w ++ t /\
    no_remote t /\ no_write t /\ no_unlink t.

(** The request was stopped by the middleware: it was answered with 401
    or 403 and the store is as it was. *)
Definition stopped (w : World) (r : Outcome (list Sent)) (w' : World) : Prop :=
  db w' = db w /\ grew_quietly w w' /\
  exists sent, r = Resolved sent /\ sent ≠ [] /\ Forall is_refusal sent.

(** The request was stopped by [protect]: it was answered with 401, once,
    and the store is as it was. *)
Definition unauthorized (w : World) (r : Outcome (list Sent)) (w' : World) : Prop :=
  db w' = db w /\ grew_quietly w w' /\
  exists message, r = Resolved [Answered 401 message].

(** A verifier for the examples: the token is the id, and a missing or
    empty token is refused. *)
Definition test_verify (token : option jsstring) : Outcome jsstring :=
  match token with
  | Some (c :: id) => Resolved (c :: id)
  | _ =>
      Rejected {| e_name := lit "JsonWebTokenError";
                  e_message := lit "jwt must be provided";
                  e_statusCode := None; e_code := None; e_field := None |}
  end.

(** An administrator, and a store with this user. *)
Definition an_admin : User :=
  {| u_id := 8; u_username := lit "carol"; u_fullname := lit "Carol";
     u_fathername := lit "Dan"; u_dob := Some 0; u_address := lit "Gaya";
     u_phone := lit "101"; u_email := lit "carol@example.com"; u_bio := [];
     u_profilePic := Some DEFAULT_AVATAR_PATH; u_verified := true;
     u_isAdmin := true |}.

Definition admin_db : Db := with_users <[8%N := an_admin]> sample_db.

(** ** Facts about the string and array primitives *)

Section string_facts.

Implicit Types (s : jsstring) (c sep : N).

Lemma split_not_nil sep s : JS.split sep s ≠ [].
Proof.
  destruct s as [|c s]; simpl; [done|].
  destruct (c =? sep)%N; [done|]. by destruct (JS.split sep s).
Qed.

Lemma split_no_sep sep (x : jsstring) : sep ∉ x -> JS.split sep x = [x].
Proof.
  induction x as [|c x IH]; intros Hx; simpl; [done|].
  apply not_elem_of_cons in Hx as [Hc Hx].
  destruct (N.eqb_spec c sep) as [->|_]; [done|].
  by rewrite IH.
Qed.

Lemma split_app_sep sep (x : jsstring) s :
  sep ∉ x -> JS.split sep (x ++ sep :: s) = x :: JS.split sep s.
Proof.
  induction x as [|c x IH]; intros Hx; simpl.
  - by rewrite N.eqb_refl.
  - apply not_elem_of_cons in Hx as [Hc Hx].
    destruct (N.eqb_spec c sep) as [->|_]; [done|].
    by rewrite IH.
Qed.

Lemma split_join sep (l : list jsstring) :
  Forall (fun x => sep ∉ x) l -> l ≠ [] -> JS.split sep (JS.join [sep] l) = l.
Proof.
  induction l as [|x l IH]; intros Hl Hne; [done|].
  apply Forall_cons in Hl as [Hx Hl].
  destruct l as [|y l]; simpl.
  - by apply split_no_sep.
  - rewrite split_app_sep by done. f_equal. by apply IH.
Qed.

Lemma join_split sep s : JS.join [sep] (JS.split sep s) = s.
Proof.
  induction s as [|c s IH]; simpl; [done|].
  destruct (N.eqb_spec c sep) as [->|Hc].
  - pose proof (split_not_nil sep s) as Hne.
    destruct (JS.split sep s) as [|p ps] eqn:E; [done|].
    simpl in *. by rewrite IH.
  - pose proof (split_not_nil sep s) as Hne.
    destruct (JS.split sep s) as [|p ps] eqn:E; [done|].
    destruct ps as [|q ps]; simpl in *; by rewrite <- IH.
Qed.

Lemma split_segments_no_sep sep s : Forall (fun x => sep ∉ x) (JS.split sep s).
Proof.
  induction s as [|c s IH]; simpl.
  - repeat constructor. by apply not_elem_of_nil.
  - destruct (N.eqb_spec c sep) as [->|Hc].
    + constructor; [apply not_elem_of_nil | done].
    + destruct (JS.split sep s) as [|p ps].
      * repeat constructor. apply not_elem_of_cons. split; [done|apply not_elem_of_nil].
      * apply Forall_cons in IH as [Hp Hps]. constructor; [|done].
        apply not_elem_of_cons. by split.
Qed.

Lemma join_snoc (d : jsstring) (l : list jsstring) (x y : jsstring) :
  JS.join d (l ++ [x ++ y]) = JS.join d (l ++ [x]) ++ y.
Proof.
  induction l as [|z l IH]; simpl; [done|].
  destruct (l ++ [x ++ y]) eqn:E1; [by destruct l|].
  destruct (l ++ [x]) eqn:E2; [by destruct l|].
  rewrite IH. by rewrite <- !app_assoc.
Qed.

Lemma findIndex_from_range {A} (f : A -> bool) (l : list A) i :
  JS.findIndex_from f l i = -1 \/
  i <= JS.findIndex_from f l i < i + Z.of_nat (length l).
Proof.
  revert i. induction l as [|x l IH]; intros i; simpl; [by left|].
  destruct (f x); [right; lia|].
  destruct (IH (i + 1)) as [->|?]; [by left | right; lia].
Qed.

Lemma findIndex_from_app {A} (f : A -> bool) (l1 : list A) x l2 i :
  Forall (fun y => f y = false) l1 -> f x = true ->
  JS.findIndex_from f (l1 ++ x :: l2) i = i + Z.of_nat (length l1).
Proof.
  revert i. induction l1 as [|y l1 IH]; intros i Hl1 Hx; simpl.
  - rewrite Hx. lia.
  - apply Forall_cons in Hl1 as [-> Hl1]. rewrite IH by done. lia.
Qed.

Lemma findIndex_from_elem {A} (f : A -> bool) (l1 l2 : list A) i :
  0 <= i -> Exists (fun y => f y = true) l1 ->
  i <= JS.findIndex_from f (l1 ++ l2) i < i + Z.of_nat (length l1).
Proof.
  revert i. induction l1 as [|y l1 IH]; intros i Hi Hex.
  - by apply Exists_nil in Hex.
  - simpl. destruct (f y) eqn:Hy; [lia|].
    apply Exists_cons in Hex as [Hex|Hex]; [congruence|].
    specialize (IH (i + 1) ltac:(lia) Hex). lia.
Qed.

Lemma findIndex_from_found {A} (f : A -> bool) (l : list A) i t :
  JS.findIndex_from f l i = t -> t ≠ -1 -> 0 <= i ->
  exists l1 x l2,
    l = l1 ++ x :: l2 /\ t = i + Z.of_nat (length l1) /\
    Forall (fun y => f y = false) l1 /\ f x = true.
Proof.
  revert i. induction l as [|y l IH]; intros i Ht Hne Hi; simpl in Ht; [lia|].
  destruct (f y) eqn:Hy.
  - exists [], y, l. simpl. repeat split; [lia | constructor | done].
  - destruct (IH (i + 1) Ht Hne ltac:(lia)) as (l1 & x & l2 & -> & -> & Hl1 & Hx).
    exists (y :: l1), x, l2. simpl. repeat split; [lia | by constructor | done].
Qed.

Lemma lastIndexOf_from_none c s i acc :
  c ∉ s -> JS.lastIndexOf_from c s i acc = acc.
Proof.
  revert i acc. induction s as [|d s IH]; intros i acc Hs; simpl; [done|].
  apply not_elem_of_cons in Hs as [Hd Hs].
  rewrite IH by done. destruct (N.eqb_spec d c); congruence.
Qed.

Lemma lastIndexOf_from_app c s1 s2 i acc :
  c ∉ s2 ->
  JS.lastIndexOf_from c (s1 ++ c :: s2) i acc = i + Z.of_nat (length s1).
Proof.
  revert i acc. induction s1 as [|d s1 IH]; intros i acc Hs; simpl.
  - rewrite N.eqb_refl, lastIndexOf_from_none by done. lia.
  - rewrite IH by done. lia.
Qed.

End string_facts.

Example getPublicIdFromUrl_image :
  getPublicIdFromUrl
    (Some (lit "https://res.cloudinary.com/demo/image/upload/v123/folder/file.jpg"))
  = Some (lit "folder/file").
Proof. vm_compute. reflexivity. Qed.

Example getPublicIdFromUrl_video :
  getPublicIdFromUrl
    (Some (lit "https://res.cloudinary.com/demo/video/upload/v123/folder/file.mp4"))
  = Some (lit "folder/file").
Proof. vm_compute. reflexivity. Qed.


(** ** The reference resolver *)

(** Decide a closed decidable proposition by evaluation. *)
Ltac by_decide := apply (bool_decide_unpack _); vm_compute; exact I.

Lemma lit_slash : lit "/" = [cu "/"].
Proof. reflexivity. Qed.

Lemma includes_nil_cloudinary : JS.includes [] (lit "cloudinary.com") = false.
Proof. reflexivity. Qed.

Lemma upload_not_version : isVersionPart (lit "upload") = false.
Proof. reflexivity. Qed.

Lemma indexOf_found (l : list jsstring) (x : jsstring) (n : nat) :
  JS.indexOf l x ≠ -1 -> JS.indexOf l x < Z.of_nat n -> x ∈ take n l.
Proof.
  unfold JS.indexOf, JS.findIndex. intros Hne Hlt.
  pose proof (findIndex_from_found _ l 0 _ eq_refl Hne (Z.le_refl 0))
    as (l1 & y & l2 & -> & Hu & _ & Hy).
  apply bool_decide_eq_true in Hy as ->.
  rewrite Hu in Hlt.
  rewrite take_app_ge by lia.
  apply elem_of_app. right.
  destruct (n - length l1)%nat eqn:E; [lia|]. simpl. left.
Qed.

Lemma getPublicIdFromUrl_Some_path url h :
  getPublicIdFromUrl (Some url) = Some h ->
  JS.includes url (lit "cloudinary.com") = true /\
  upload_version_path isVersionPart url.
Proof.
  unfold getPublicIdFromUrl.
  destruct (JS.includes url (lit "cloudinary.com")) eqn:Hinc;
    [|by rewrite orb_true_r].
  rewrite orb_false_r. destruct (negb _); [done|].
  set (parts := JS.split (cu "/") url).
  destruct (_ || _) eqn:Hc; [done|]. intros _. split; [done|].
  apply orb_false_iff in Hc as [Hc Hlen].
  apply orb_false_iff in Hc as [Hc Hle].
  apply orb_false_iff in Hc as [Hu Ht].
  apply Z.eqb_neq in Hu, Ht. apply Z.leb_gt in Hle, Hlen.
  unfold JS.indexOf, JS.findIndex in *.
  pose proof (findIndex_from_found _ parts 0 _ eq_refl Ht (Z.le_refl 0))
    as (l1 & ver & l2 & Hparts & Hti & _ & Hver).
  exists l1, ver, l2. repeat split.
  - rewrite <- Hparts. unfold parts. by rewrite lit_slash, join_split.
  - rewrite <- Hparts. apply split_segments_no_sep.
  - assert (lit "upload" ∈ take (length l1) parts) as Hin.
    { apply indexOf_found; unfold JS.indexOf, JS.findIndex; [done|lia]. }
    by rewrite Hparts, take_app_length in Hin.
  - done.
  - intros ->. rewrite Hti, Hparts, length_app in Hlen. simpl in Hlen. lia.
Qed.

Lemma getPublicIdFromUrl_of_shape url h :
  JS.includes url (lit "cloudinary.com") = true ->
  media_url_shape isVersionPart isVersionPart url h ->
  getPublicIdFromUrl (Some url) = Some h.
Proof.
  intros Hinc (pre & mid & ver & folders & name & ext & Hurl & Hns & Hver & Hearly & Hext & ->).
  unfold getPublicIdFromUrl. rewrite Hinc.
  assert (JS.truthy (Some url) = true) as ->.
  { destruct url; [by rewrite includes_nil_cloudinary in Hinc | done]. }
  cbn [negb orb].
  set (segs := pre ++ lit "upload" :: mid ++ ver :: folders ++ [name ++ lit "." ++ ext]) in *.
  assert (JS.split (cu "/") url = segs) as ->.
  { rewrite Hurl, lit_slash. apply split_join; [done|]. unfold segs. by destruct pre. }
  set (front := pre ++ lit "upload" :: mid).
  assert (segs = front ++ ver :: folders ++ [name ++ lit "." ++ ext]) as Hsegs.
  { unfold segs, front. by rewrite <- app_assoc. }
  assert (JS.findIndex isVersionPart segs = Z.of_nat (length front)) as Ht.
  { unfold JS.findIndex. rewrite Hsegs, findIndex_from_app; [lia| |done].
    unfold front. apply Forall_app. apply Forall_app in Hearly as [Hpre Hmid].
    split; [done|]. constructor; [apply upload_not_version | done]. }
  assert (0 <= JS.indexOf segs (lit "upload") < Z.of_nat (length front)) as Hu.
  { unfold JS.indexOf, JS.findIndex, segs, front.
    replace (pre ++ lit "upload" :: mid ++ ver :: folders ++ [name ++ lit "." ++ ext])
      with ((pre ++ [lit "upload"]) ++ mid ++ ver :: folders ++ [name ++ lit "." ++ ext])
      by (by rewrite <- app_assoc).
    pose proof (findIndex_from_elem (fun y => bool_decide (y = lit "upload"))
                  (pre ++ [lit "upload"])
                  (mid ++ ver :: folders ++ [name ++ lit "." ++ ext]) 0 (Z.le_refl 0)) as H.
    rewrite !length_app in *. simpl in *. 
    assert (Exists (fun y : jsstring => bool_decide (y = lit "upload") = true)
              (pre ++ [lit "upload"])) as Hex.
    { apply Exists_app. right. constructor. by apply bool_decide_eq_true. }
    specialize (H Hex). lia. }
  rewrite Ht.
  assert (Z.of_nat (length segs) = Z.of_nat (length front) + 1
            + Z.of_nat (length (folders ++ [name ++ lit "." ++ ext]))) as Hlen.
  { rewrite Hsegs, length_app. simpl. lia. }
  assert (0 < Z.of_nat (length (folders ++ [name ++ lit "." ++ ext]))) as Hpos.
  { rewrite length_app. simpl. lia. }
  replace (JS.indexOf segs (lit "upload") =? -1) with false by (symmetry; apply Z.eqb_neq; lia).
  replace (Z.of_nat (length front) =? -1) with false by (symmetry; apply Z.eqb_neq; lia).
  replace (Z.of_nat (length front) <=? JS.indexOf segs (lit "upload")) with false
    by (symmetry; apply Z.leb_gt; lia).
  replace (Z.of_nat (length segs) <=? Z.of_nat (length front) + 1) with false
    by (symmetry; apply Z.leb_gt; lia).
  cbn [orb].
  assert (JS.slice segs (Z.of_nat (length front) + 1)
          = folders ++ [name ++ lit "." ++ ext]) as ->.
  { unfold JS.slice. rewrite Hsegs.
    replace (Z.to_nat (Z.of_nat (length front) + 1)) with (length front + 1)%nat by lia.
    rewrite <- drop_drop, drop_app_length. reflexivity. }
  rewrite join_snoc.
  set (X := JS.join (lit "/") (folders ++ [name])).
  assert (JS.lastIndexOf (X ++ lit "." ++ ext) (cu ".") = Z.of_nat (length X)) as ->.
  { unfold JS.lastIndexOf. change (lit "." ++ ext) with (cu "." :: ext).
    rewrite lastIndexOf_from_app by done. lia. }
  replace (Z.of_nat (length X) =? -1) with false by (symmetry; apply Z.eqb_neq; lia).
  unfold JS.substring_to. rewrite Nat2Z.id, take_app_length. done.
Qed.

Lemma parseDigits_Some R s a : is_Some (JS.parseDigits R s (Some a)).
Proof.
  revert a. induction s as [|c s IH]; intros a; simpl; [by eexists|].
  destruct (JS.digitValue c) as [d|]; [|by eexists].
  destruct (d <? R); [apply IH | by eexists].
Qed.

Lemma isDigit_cases d :
  isDigit d = true ->
  (d = 48 \/ d = 49 \/ d = 50 \/ d = 51 \/ d = 52 \/ d = 53 \/ d = 54 \/ d = 55
   \/ d = 56 \/ d = 57)%N.
Proof.
  unfold isDigit. intros H. apply andb_true_iff in H as [H1 H2].
  apply N.leb_le in H1, H2. lia.
Qed.

Lemma isDigit_not_special d :
  isDigit d = true ->
  JS.isStrWhiteSpaceChar d = false /\ (d =? cu "-")%N = false
  /\ (d =? cu "+")%N = false /\ (d =? cu "x")%N = false
  /\ (d =? cu "X")%N = false /\ exists v, JS.digitValue d = Some v /\ (v <? 10) = true.
Proof.
  intros Hd. apply isDigit_cases in Hd.
  destruct Hd as [->|[->|[->|[->|[->|[->|[->|[->|[->| ->]]]]]]]]];
    repeat split; try reflexivity; by eexists.
Qed.

Lemma parseInt_digits d ds :
  forallb isDigit (d :: ds) = true -> JS.isNaN (JS.parseInt (d :: ds)) = false.
Proof.
  cbn [forallb]. intros H. apply andb_true_iff in H as [Hd Hds].
  destruct (isDigit_not_special d Hd) as (Hws & Hm & Hp & _ & _ & v & Hv & Hlt).
  assert (is_Some (JS.parseInt (d :: ds))) as [n ->]; [|done].
  unfold JS.parseInt. cbn [JS.trimStart]. rewrite Hws, Hm, Hp.
  assert ((let '(R, s3) :=
             match d :: ds with
             | z :: x :: s' =>
                 if ((z =? cu "0") && ((x =? cu "x") || (x =? cu "X")))%N
                 then (16, s') else (10, d :: ds)
             | _ => (10, d :: ds)
             end in
           match JS.parseDigits R s3 None with
           | Some n => Some (1 * n)
           | None => None
           end)
          = match JS.parseDigits 10 (d :: ds) None with
            | Some n => Some (1 * n)
            | None => None
            end) as ->.
  { destruct ds as [|x ds]; [done|].
    cbn [forallb] in Hds. apply andb_true_iff in Hds as [Hx _].
    destruct (isDigit_not_special x Hx) as (_ & _ & _ & -> & -> & _).
    by rewrite andb_false_r. }
  cbn [JS.parseDigits]. rewrite Hv, Hlt.
  destruct (parseDigits_Some 10 ds (10 * default 0 None + v)) as [n ->].
  by eexists.
Qed.

Lemma v_digits_isVersionPart x : v_digits x = true -> isVersionPart x = true.
Proof.
  destruct x as [|c [|d ds]]; try done.
  unfold v_digits, isVersionPart. intros H.
  apply andb_true_iff in H as [Hc Hds].
  apply N.eqb_eq in Hc as ->.
  apply andb_true_iff. split; [done|].
  unfold JS.substring_from. simpl drop.
  by rewrite parseInt_digits.
Qed.

(** C3, as it stands, fails in both halves.  A URL of the shape
    [.../upload/v<digits>/<folder>/<name>.<ext>] on a host other than
    Cloudinary, or on Cloudinary with an earlier segment that also reads as
    a version, gives [null]; and a URL whose version segment is [v-3], not
    [v] followed by digits, gives a handle. *)
Lemma getPublicIdFromUrl_structural_counterexample :
  (media_url_shape v_digits never
     (lit "https://cdn.example.com/media/upload/v123/folder/file.jpg")
     (lit "folder/file") /\
   getPublicIdFromUrl
     (Some (lit "https://cdn.example.com/media/upload/v123/folder/file.jpg")) = None) /\
  (media_url_shape v_digits never
     (lit "https://res.cloudinary.com/v2demo/image/upload/v123/folder/file.jpg")
     (lit "folder/file") /\
   getPublicIdFromUrl
     (Some (lit "https://res.cloudinary.com/v2demo/image/upload/v123/folder/file.jpg"))
   = None) /\
  (~ upload_version_path v_digits
       (lit "https://res.cloudinary.com/demo/image/upload/v-3/folder/file.jpg") /\
   getPublicIdFromUrl
     (Some (lit "https://res.cloudinary.com/demo/image/upload/v-3/folder/file.jpg"))
   = Some (lit "folder/file")).
Proof.
  split; [|split].
  - split; [|by vm_compute].
    exists [lit "https:"; []; lit "cdn.example.com"; lit "media"], [], (lit "v123"),
      [lit "folder"], (lit "file"), (lit "jpg").
    repeat split; try reflexivity.
    + repeat constructor; by_decide.
    + repeat constructor.
    + by_decide.
  - split; [|by vm_compute].
    exists [lit "https:"; []; lit "res.cloudinary.com"; lit "v2demo"; lit "image"], [],
      (lit "v123"), [lit "folder"], (lit "file"), (lit "jpg").
    repeat split; try reflexivity.
    + repeat constructor; by_decide.
    + repeat constructor.
    + by_decide.
  - split; [|by vm_compute].
    intros (before & ver & after & Hurl & Hns & _ & Hver & _).
    assert (ver ∈ JS.split (cu "/")
              (lit "https://res.cloudinary.com/demo/image/upload/v-3/folder/file.jpg"))
      as Hin.
    { rewrite Hurl, lit_slash, split_join; [set_solver | done | by destruct before]. }
    assert (Forall (fun x => v_digits x = false)
              (JS.split (cu "/")
                 (lit "https://res.cloudinary.com/demo/image/upload/v-3/folder/file.jpg")))
      as Hall.
    { vm_compute. repeat constructor. }
    rewrite Forall_forall in Hall. specialize (Hall ver Hin). congruence.
Qed.

(** C3 (amended): for a URL that contains [cloudinary.com] and has the
    shape [.../upload/<version>/<folder>/<name>.<ext>], where the version
    segment starts with [v] and continues with something [parseInt] reads
    as a number (in particular [v] followed by digits) and no earlier
    segment is of that kind, [getPublicIdFromUrl] returns
    [<folder>/<name>]; for a URL that does not contain [cloudinary.com], or
    has no segment [upload] followed later by such a version segment and
    by some further segment, it returns [null]. *)
Theorem getPublicIdFromUrl_structural :
  (forall url h,
     JS.includes url (lit "cloudinary.com") = true ->
     media_url_shape isVersionPart isVersionPart url h ->
     getPublicIdFromUrl (Some url) = Some h) /\
  (forall url,
     JS.includes url (lit "cloudinary.com") = false \/
     ~ upload_version_path isVersionPart url ->
     getPublicIdFromUrl (Some url) = None) /\
  (forall x, v_digits x = true -> isVersionPart x = true).
Proof.
  split; [|split].
  - apply getPublicIdFromUrl_of_shape.
  - intros url H.
    destruct (getPublicIdFromUrl (Some url)) as [h|] eqn:E; [|done].
    apply getPublicIdFromUrl_Some_path in E as [Hinc Hpath].
    destruct H as [H|H]; [congruence | done].
  - apply v_digits_isVersionPart.
Qed.

Lemma getPublicIdFromUrl_structural_witness :
  getPublicIdFromUrl
    (Some (lit "https://res.cloudinary.com/demo/image/upload/v1712/patwa_toli/posts/abc.def.jpg"))
  = Some (lit "patwa_toli/posts/abc.def") /\
  getPublicIdFromUrl (Some (lit "/uploads/profile-pics/default_avatar.png")) = None /\
  isVersionPart (lit "v1712") = true.
Proof.
  split; [|split].
  - apply (proj1 getPublicIdFromUrl_structural); [reflexivity|].
    exists [lit "https:"; []; lit "res.cloudinary.com"; lit "demo"; lit "image"], [],
      (lit "v1712"), [lit "patwa_toli"; lit "posts"], (lit "abc.def"), (lit "jpg").
    repeat split; try reflexivity.
    + repeat constructor; by_decide.
    + repeat constructor.
    + by_decide.
  - apply (proj1 (proj2 getPublicIdFromUrl_structural)). left. reflexivity.
  - apply (proj2 (proj2 getPublicIdFromUrl_structural)). reflexivity.
Defined.

(** C9: [getPublicIdFromUrl] returns [null] for every URL that does not
    contain [cloudinary.com], whatever its structure. *)
Theorem getPublicIdFromUrl_not_cloudinary (url : jsstring) :
  JS.includes url (lit "cloudinary.com") = false ->
  getPublicIdFromUrl (Some url) = None.
Proof.
  intros H. unfold getPublicIdFromUrl. rewrite H. by rewrite orb_true_r.
Qed.

Lemma getPublicIdFromUrl_not_cloudinary_witness :
  JS.includes (lit "https://cdn.example.com/media/upload/v123/folder/file.jpg")
    (lit "cloudinary.com") = false /\
  getPublicIdFromUrl
    (Some (lit "https://cdn.example.com/media/upload/v123/folder/file.jpg")) = None.
Proof.
  split; [reflexivity|].
  apply getPublicIdFromUrl_not_cloudinary. reflexivity.
Defined.

(** ** The remote store client *)

(** C10: without a file, [uploadToCloudinary] resolves to [null] and
    leaves the world as it is: nothing is formatted and nothing is sent. *)
Theorem uploadToCloudinary_no_file (folder : jsstring) (env : Env) (w : World) :
  uploadToCloudinary None folder env w = (Resolved None, w).
Proof. reflexivity. Qed.

(** C7: [deleteFromCloudinary] resolves with [{ result: 'ok' }] and makes
    no remote call when the handle is missing or empty, and resolves with
    the store's answer, not an error, when the store reports the handle as
    not found. *)
Theorem deleteFromCloudinary_idempotent (env : Env) (w : World)
    (resourceType : option jsstring) :
  (forall publicId,
     JS.truthy publicId = false ->
     deleteFromCloudinary publicId resourceType env w
     = (Resolved {| d_result := Some (lit "ok");
                    d_message := Some (lit "No publicId provided.") |}, w)) /\
  (forall h res,
     JS.truthy (Some h) = true ->
     cloudinary_destroy env (trace w) h (default (lit "auto") resourceType)
       = Resolved res ->
     d_result res = Some (lit "not found") ->
     deleteFromCloudinary (Some h) resourceType env w
     = (Resolved res,
        {| db := db w;
           trace := trace w ++ [CDestroy h (default (lit "auto") resourceType)
                                  (Resolved res)] |})).
Proof.
  split.
  - intros publicId H. unfold deleteFromCloudinary. by rewrite H.
  - intros h res Hh Hres _. unfold deleteFromCloudinary. rewrite Hh.
    set (rt := default (lit "auto") resourceType) in *.
    change (default [] (Some h)) with h.
    cbv [negb bind ask get_trace log ret]. by rewrite Hres.
Qed.

Lemma deleteFromCloudinary_idempotent_witness :
  deleteFromCloudinary (Some []) None store_without_asset (fresh empty_db)
  = (Resolved {| d_result := Some (lit "ok");
                 d_message := Some (lit "No publicId provided.") |}, fresh empty_db) /\
  deleteFromCloudinary (Some (lit "patwa_toli/gone")) None store_without_asset
    (fresh empty_db)
  = (Resolved (destroyed (lit "not found")),
     {| db := empty_db;
        trace := [CDestroy (lit "patwa_toli/gone") (lit "auto")
                    (Resolved (destroyed (lit "not found")))] |}).
Proof.
  split.
  - apply (proj1 (deleteFromCloudinary_idempotent _ _ None)). reflexivity.
  - apply (proj2 (deleteFromCloudinary_idempotent store_without_asset
                    (fresh empty_db) None));
      reflexivity.
Defined.

(** ** Running a handler step by step *)

Lemma post_ret {A} (a : A) env w Q : Q (Resolved a) w -> post (ret a) env w Q.
Proof. done. Qed.

Lemma post_throw {A} e env w (Q : Outcome A -> World -> Prop) :
  Q (Rejected e) w -> post (throw e) env w Q.
Proof. done. Qed.

Lemma post_bind {A B} (m : M A) (k : A -> M B) env w Q :
  post m env w (fun r w' =>
    match r with
    | Resolved a => post (k a) env w' Q
    | Rejected e => Q (Rejected e) w'
    end) ->
  post (bind m k) env w Q.
Proof. unfold post, bind. by destruct (m env w) as [[a|e] w']. Qed.

Lemma post_try_catch {A} (m : M A) (h : Error -> M A) env w Q :
  post m env w (fun r w' =>
    match r with
    | Resolved a => Q (Resolved a) w'
    | Rejected e => post (h e) env w' Q
    end) ->
  post (try_catch m h) env w Q.
Proof. unfold post, try_catch. by destruct (m env w) as [[a|e] w']. Qed.

Lemma post_ask env w Q : Q (Resolved env) w -> post ask env w Q.
Proof. done. Qed.

Lemma post_get_db env w Q : Q (Resolved (db w)) w -> post get_db env w Q.
Proof. done. Qed.

Lemma post_get_trace env w Q : Q (Resolved (trace w)) w -> post get_trace env w Q.
Proof. done. Qed.

Lemma post_put_db d env w Q :
  Q (Resolved tt) {| db := d; trace := trace w |} -> post (put_db d) env w Q.
Proof. done. Qed.

Lemma post_log c env w Q :
  Q (Resolved tt) {| db := db w; trace := trace w ++ [c] |} -> post (log c) env w Q.
Proof. done. Qed.

Lemma post_run {A} (m : M A) env d (Q : Outcome A -> World -> Prop) :
  post m env {| db := d; trace := [] |} Q ->
  Q (fst (run m env d)) (snd (run m env d)).
Proof. done. Qed.

Ltac wp_head m :=
  lazymatch m with
  | ?f _ => wp_head f
  | _ => m
  end.

(** One step of the computation under [post]: a rule of the monad, a case
    analysis on what the computation inspects, or the unfolding of the
    function that is called. *)
Ltac wp_step :=
  lazymatch goal with
  | |- post (bind _ _) _ _ _ => apply post_bind
  | |- post (try_catch _ _) _ _ _ => apply post_try_catch
  | |- post (ret _) _ _ _ => apply post_ret
  | |- post (throw _) _ _ _ => apply post_throw
  | |- post ask _ _ _ => apply post_ask
  | |- post get_db _ _ _ => apply post_get_db
  | |- post get_trace _ _ _ => apply post_get_trace
  | |- post (put_db _) _ _ _ => apply post_put_db
  | |- post (log _) _ _ _ => apply post_log
  | |- post (match ?x with _ => _ end) _ _ _ => destruct x eqn:?
  | |- post ?m _ _ _ => let h := wp_head m in unfold h
  end;
  cbv beta iota zeta; cbn [db trace app].

Ltac wp := repeat wp_step.

(** Turn the boolean tests met on the way into equations on their parts. *)
Ltac use_tests :=
  repeat match goal with
  | H : _ || _ = false |- _ => apply orb_false_iff in H as [? ?]
  | H : _ && _ = true |- _ => apply andb_true_iff in H as [? ?]
  | H : negb _ = false |- _ => apply negb_false_iff in H
  | H : negb _ = true |- _ => apply negb_true_iff in H
  end.

(** ** Replacing media *)

Lemma check_destroy_order_sound old t :
  check_destroy_order old false false t = true ->
  destroys_old_after_upload_before_save old t.
Proof.
  assert (forall u s, check_destroy_order old u s t = true ->
            forall pre publicId resourceType r post,
              t = pre ++ CDestroy publicId resourceType r :: post ->
              Some publicId = old /\
              (u = true \/ Exists (fun c => upload_succeeded c = true) pre) /\
              (s = false /\ Forall (fun c => is_save c = false) pre)) as H.
  { induction t as [|c t IH]; intros u s Hc pre pid rt r post Heq.
    - by destruct pre.
    - simpl in Hc. apply andb_true_iff in Hc as [Hhere Hrest].
      destruct pre as [|c' pre]; simpl in Heq; simplify_eq.
      + simpl in Hhere. apply andb_true_iff in Hhere as [Hhere Hs].
        apply andb_true_iff in Hhere as [Hold ->].
        apply bool_decide_eq_true in Hold.
        apply negb_true_iff in Hs as ->. repeat split; [done | by left | constructor].
      + destruct (IH _ _ Hrest _ _ _ _ _ eq_refl) as (Hold & Hu & Hs & Hpre).
        apply orb_false_iff in Hs as [-> Hc'].
        split; [done|]. split; [|split; [done|by constructor]].
        destruct Hu as [Hu|Hu].
        * apply orb_true_iff in Hu as [->|Hu]; [by left|]. right. by constructor.
        * right. by constructor 2. }
  intros Hc pre pid rt r post Heq.
  destruct (H _ _ Hc _ _ _ _ _ Heq) as (? & [?|?] & _ & ?); done.
Qed.

Lemma truthy_Some_str (v : option jsstring) :
  JS.truthy v = true -> Some (default [] v) = v.
Proof. by destruct v as [[|]|]. Qed.

Lemma old_event_handle_found env d eventId k e :
  castObjectId env eventId = Some k ->
  db_lookup d MEvent k = Some (DEvent e) ->
  old_event_handle env d eventId = ev_imagePublicId e.
Proof.
  unfold old_event_handle, db_lookup. intros -> H. simpl.
  destruct (events d !! k); by simplify_eq/=.
Qed.

Lemma old_business_handle_found env d businessId k b :
  castObjectId env businessId = Some k ->
  db_lookup d MBusiness k = Some (DBusiness b) ->
  old_business_handle env d businessId = b_imagePublicId b.
Proof.
  unfold old_business_handle, db_lookup. intros -> H. simpl.
  destruct (businesses d !! k); by simplify_eq/=.
Qed.

Lemma old_profile_handle_found d user u :
  db_lookup d MUser (user_id user) = Some (DUser u) ->
  old_profile_handle d user = getPublicIdFromUrl (u_profilePic u).
Proof.
  unfold old_profile_handle, db_lookup. intros H.
  destruct (users d !! user_id user); by simplify_eq/=.
Qed.

(** The last step of the three proofs below: on a log that is known call
    by call, the order is checked by evaluation, with the tests that the
    handler made on the upload result and on the old handle. *)
Ltac check_order :=
  apply check_destroy_order_sound;
  cbn [check_destroy_order destroy_allowed upload_succeeded is_save orb andb negb];
  try reflexivity;
  use_tests;
  cbn [secure_url_of public_id_of mbind option_bind secure_url public_id] in *;
  repeat match goal with
  | H : JS.truthy ?v = true |- context [JS.truthy ?v] => rewrite H
  | H : JS.truthy ?v = true |- context [default [] ?v] =>
      rewrite (truthy_Some_str v H)
  end;
  cbn [orb andb negb];
  rewrite ?bool_decide_eq_true_2 by done;
  try reflexivity.

Lemma updateEvent_destroy_order env d user eventId title description category
    eventDate location file :
  destroys_old_after_upload_before_save (old_event_handle env d eventId)
    (trace (snd (run (updateEvent user eventId title description category
                        eventDate location file) env d))).
Proof.
  apply (post_run _ _ _ (fun _ w =>
           destroys_old_after_upload_before_save _ (trace w))).
  wp.
  all: try (erewrite old_event_handle_found by eassumption).
  all: check_order.
Qed.

Lemma updateBusiness_destroy_order env d user businessId name description
    category address phone website email file :
  destroys_old_after_upload_before_save (old_business_handle env d businessId)
    (trace (snd (run (updateBusiness user businessId name description category
                        address phone website email file) env d))).
Proof.
  apply (post_run _ _ _ (fun _ w =>
           destroys_old_after_upload_before_save _ (trace w))).
  wp.
  all: try (erewrite old_business_handle_found by eassumption).
  all: check_order.
Qed.

Lemma updateMyProfile_destroy_order env d user fullname fathername dob address
    phone email bio file :
  destroys_old_after_upload_before_save (old_profile_handle d user)
    (trace (snd (run (updateMyProfile user fullname fathername dob address phone
                        email bio file) env d))).
Proof.
  apply (post_run _ _ _ (fun _ w =>
           destroys_old_after_upload_before_save _ (trace w))).
  wp.
  all: try (erewrite old_profile_handle_found by eassumption).
  all: check_order.
Qed.

(** C1, as it stands, fails: when an event image is replaced, the old
    image is deleted from the remote store before the event is saved, and
    it stays deleted when the save then fails, so that the stored event
    still names the deleted image. *)
Lemma replace_media_order_counterexample :
  ~ destroy_after_persist
      (trace (snd (run (updateEvent alice (lit "e1") None None None None None
                          (Some (jpeg (lit "eventImage"))))
                     store_ok
                     db_with_event))) /\
  (let w := snd (run (updateEvent alice (lit "e1") None None None None None
                        (Some (jpeg (lit "eventImage"))))
                   store_ok_write_fails
                   db_with_event) in
   Exists (fun c => is_destroy c = true) (trace w) /\
   events (db w) !! 2%N = Some old_event).
Proof.
  split.
  - intros H.
    set (t := trace _) in H. vm_compute in t.
    lazymatch eval unfold t in t with
    | ?a :: ?b :: ?c :: _ =>
        destruct (H [a; b; c] _ _ _ _ eq_refl) as [_ Hsave]
    end.
    apply Exists_exists in Hsave as (c & Hin & Hc).
    repeat (apply elem_of_cons in Hin as [->|Hin]; [discriminate Hc|]).
    by apply elem_of_nil in Hin.
  - cbv zeta. split.
    + apply (bool_decide_unpack _). vm_compute. exact I.
    + vm_compute. reflexivity.
Qed.

(** C1 (amended): in [updateEvent], [updateBusiness] and [updateMyProfile]
    every remote delete is of the handle stored before the request, and is
    invoked only after the upload of the new media has resolved with a
    URL; it is invoked before the record is saved, not after: no write of
    the record precedes it. *)
Theorem replace_media_order (env : Env) (d : Db) (user : ReqUser) :
  (forall eventId title description category eventDate location file,
     destroys_old_after_upload_before_save (old_event_handle env d eventId)
       (trace (snd (run (updateEvent user eventId title description category
                           eventDate location file) env d)))) /\
  (forall businessId name description category address phone website email file,
     destroys_old_after_upload_before_save (old_business_handle env d businessId)
       (trace (snd (run (updateBusiness user businessId name description category
                           address phone website email file) env d)))) /\
  (forall fullname fathername dob address phone email bio file,
     destroys_old_after_upload_before_save (old_profile_handle d user)
       (trace (snd (run (updateMyProfile user fullname fathername dob address
                           phone email bio file) env d)))).
Proof.
  split; [|split]; intros.
  - apply updateEvent_destroy_order.
  - apply updateBusiness_destroy_order.
  - apply updateMyProfile_destroy_order.
Qed.

(** ** Deleting an entity with media *)

Lemma db_lookup_story d k s :
  stories d !! k = Some s -> db_lookup d MStory k = Some (DStory s).
Proof. unfold db_lookup. by intros ->. Qed.

Lemma db_lookup_event d k e :
  events d !! k = Some e -> db_lookup d MEvent k = Some (DEvent e).
Proof. unfold db_lookup. by intros ->. Qed.

Lemma db_lookup_business d k b :
  businesses d !! k = Some b -> db_lookup d MBusiness k = Some (DBusiness b).
Proof. unfold db_lookup. by intros ->. Qed.

Lemma db_lookup_user d k u :
  users d !! k = Some u -> db_lookup d MUser k = Some (DUser u).
Proof. unfold db_lookup. by intros ->. Qed.

Lemma db_lookup_post d k p :
  posts d !! k = Some p -> db_lookup d MPost k = Some (DPost p).
Proof. unfold db_lookup. by intros ->. Qed.

(** Close a path that the hypotheses exclude: a store fault where none
    occurs, or a lookup that came out otherwise. *)
Ltac excluded Hfault :=
  solve [ congruence
        | repeat match goal with
            | H : db_fault _ _ _ = Some _ |- _ => rewrite Hfault in H; discriminate H
            end
        | use_tests; simplify_eq/=; congruence ].

Lemma authorised_test owner user :
  authorised owner user ->
  negb (owner =? user_id user)%N && negb (user_isAdmin user) = false.
Proof.
  intros [->| ->]; [by rewrite N.eqb_refl | by rewrite andb_false_r].
Qed.

(** On a path where the same document was looked up twice, identify the
    two results. *)
Ltac same_document :=
  simplify_eq;
  repeat match goal with
  | H1 : db_lookup ?d ?m ?k = Some _, H2 : db_lookup ?d ?m ?k = _ |- _ =>
      rewrite H1 in H2; simplify_eq
  end.

(** The end of a delete handler: the answer, the store and the log. *)
Ltac deleted :=
  split; [reflexivity | split; [reflexivity | rewrite !elem_of_cons; auto]].

(** C5: when the entity is found and the caller may delete it, and the
    document store does not fail, each delete handler answers 200 with
    success and the record is gone from the store, whatever the remote
    store does with the delete of the asset: resolve, report an error
    result, or reject. *)
Theorem delete_entity_despite_remote_failure (env : Env) (d : Db) (user : ReqUser)
    (id : jsstring) (k : ObjectId) :
  ObjectId_isValid env id = true ->
  castObjectId env id = Some k ->
  (forall t op, db_fault env t op = None) ->
  (forall story,
     stories d !! k = Some story -> s_id story = k ->
     s_user story = user_id user ->
     fst (run (deleteStory user id) env d)
       = Resolved (Json 200 true (lit "Story deleted.") NoPayload) /\
     db (snd (run (deleteStory user id) env d)) = with_stories (delete k) d /\
     CDb (DeleteById MStory k) None ∈ trace (snd (run (deleteStory user id) env d))) /\
  (forall event,
     events d !! k = Some event -> ev_id event = k ->
     authorised (ev_organizer event) user ->
     fst (run (deleteEvent user id) env d)
       = Resolved (Json 200 true (lit "Event deleted.") NoPayload) /\
     db (snd (run (deleteEvent user id) env d)) = with_events (delete k) d /\
     CDb (DeleteById MEvent k) None ∈ trace (snd (run (deleteEvent user id) env d))) /\
  (forall business,
     businesses d !! k = Some business ->
     authorised (b_owner business) user ->
     fst (run (deleteBusiness user id) env d)
       = Resolved (Json 200 true (lit "Business listing deleted successfully.")
                     NoPayload) /\
     db (snd (run (deleteBusiness user id) env d)) = with_businesses (delete k) d /\
     CDb (DeleteById MBusiness k) None
       ∈ trace (snd (run (deleteBusiness user id) env d))) /\
  (forall post,
     posts d !! k = Some post ->
     authorised (p_user post) user ->
     fst (run (deletePost user id) env d)
       = Resolved (Json 200 true (lit "Post deleted successfully.") NoPayload) /\
     db (snd (run (deletePost user id) env d)) = with_posts (delete k) d /\
     CDb (DeleteById MPost k) None ∈ trace (snd (run (deletePost user id) env d))).
Proof.
  intros Hvalid Hcast Hfault.
  split; [|split; [|split]].
  - intros story Hfound Hid Hown.
    apply db_lookup_story in Hfound.
    apply (post_run _ _ _ (fun r w => r = _ /\ db w = _ /\ _ ∈ trace w)).
    wp; try excluded Hfault; same_document.
    all: try (rewrite Hown, N.eqb_refl in *; discriminate).
    all: deleted.
  - intros event Hfound Hid Hown. apply authorised_test in Hown.
    apply db_lookup_event in Hfound.
    apply (post_run _ _ _ (fun r w => r = _ /\ db w = _ /\ _ ∈ trace w)).
    wp; try excluded Hfault; same_document; try congruence.
    all: deleted.
  - intros business Hfound Hown. apply authorised_test in Hown.
    apply db_lookup_business in Hfound.
    apply (post_run _ _ _ (fun r w => r = _ /\ db w = _ /\ _ ∈ trace w)).
    wp; try excluded Hfault; same_document; try congruence.
    all: deleted.
  - intros post Hfound Hown. apply authorised_test in Hown.
    apply db_lookup_post in Hfound.
    apply (post_run _ _ _ (fun r w => r = _ /\ db w = _ /\ _ ∈ trace w)).
    wp; try excluded Hfault; same_document; try congruence.
    all: deleted.
Qed.

Lemma delete_entity_despite_remote_failure_witness :
  fst (run (deleteStory alice (lit "s1")) store_down sample_db)
    = Resolved (Json 200 true (lit "Story deleted.") NoPayload) /\
  db (snd (run (deleteStory alice (lit "s1")) store_down sample_db))
    = with_stories (delete 2%N) sample_db /\
  CDb (DeleteById MStory 2) None
    ∈ trace (snd (run (deleteStory alice (lit "s1")) store_down sample_db)).
Proof.
  apply (proj1 (delete_entity_despite_remote_failure store_down sample_db alice
                  (lit "s1") 2%N eq_refl eq_refl (fun _ _ => eq_refl))
           story_with_handle); reflexivity.
Defined.

(** C2, as it stands, fails: a story whose handle was not stored is
    deleted without any remote delete, although [getPublicIdFromUrl] gives
    a handle for its URL. *)
Lemma delete_entity_handle_counterexample :
  s_publicId story_without_handle = None /\
  getPublicIdFromUrl (s_mediaUrl story_without_handle)
    = Some (lit "patwa_toli/stories/abc") /\
  trace (snd (run (deleteStory alice (lit "s1"))
                store_ok
                db_with_story))
    = [CDb (FindById MStory 2) None; CDb (DeleteById MStory 2) None].
Proof. split; [|split]; by vm_compute. Qed.

(** The end of the proofs below: the log is known call by call and is
    compared with the one stated, according to the test on the handle. *)
Ltac exact_log :=
  unfold JS.or_else, str in *; use_tests;
  repeat match goal with
  | H : JS.truthy ?v = _ |- context [JS.truthy ?v] => rewrite H
  end;
  first [ by exists (Rejected (new_Error [])); eexists
        | by eexists _, _
        | congruence ].

(** C2 (amended): [deletePost] takes the handle that [getPublicIdFromUrl]
    derives from the image URL, or from the video URL when there is no
    image: it reads a stored [mediaPublicId] first, but no post has one;
    [deleteStory], [deleteEvent] and [deleteBusiness] take the stored
    handle only and derive nothing.  With a handle, one remote delete is
    attempted, before the record is deleted; without one, none is, and the
    record is deleted all the same. *)
Theorem delete_entity_handle (env : Env) (d : Db) (user : ReqUser)
    (id : jsstring) (k : ObjectId) :
  ObjectId_isValid env id = true ->
  castObjectId env id = Some k ->
  (forall m, db_fault env [] (FindById m k) = None) ->
  (forall post,
     posts d !! k = Some post -> authorised (p_user post) user ->
     let handle :=
       getPublicIdFromUrl
         (if JS.truthy (p_image post) then p_image post else p_video post) in
     let resourceType :=
       if JS.truthy (p_video post) then lit "video" else lit "image" in
     exists r fault,
       trace (snd (run (deletePost user id) env d))
       = [CDb (FindById MPost k) None]
         ++ (if JS.truthy handle then [CDestroy (str handle) resourceType r] else [])
         ++ [CDb (DeleteById MPost k) fault]) /\
  (forall story,
     stories d !! k = Some story -> s_user story = user_id user ->
     exists r fault,
       trace (snd (run (deleteStory user id) env d))
       = [CDb (FindById MStory k) None]
         ++ (if JS.truthy (s_publicId story)
             then [CDestroy (str (s_publicId story)) (lit "auto") r] else [])
         ++ [CDb (DeleteById MStory (s_id story)) fault]) /\
  (forall event,
     events d !! k = Some event -> authorised (ev_organizer event) user ->
     exists r fault,
       trace (snd (run (deleteEvent user id) env d))
       = [CDb (FindById MEvent k) None]
         ++ (if JS.truthy (ev_imagePublicId event)
             then [CDestroy (str (ev_imagePublicId event)) (lit "auto") r] else [])
         ++ [CDb (DeleteById MEvent (ev_id event)) fault]) /\
  (forall business,
     businesses d !! k = Some business -> authorised (b_owner business) user ->
     exists r fault,
       trace (snd (run (deleteBusiness user id) env d))
       = [CDb (FindById MBusiness k) None]
         ++ (if JS.truthy (b_imagePublicId business)
             then [CDestroy (str (b_imagePublicId business)) (lit "auto") r] else [])
         ++ [CDb (DeleteById MBusiness k) fault]).
Proof.
  intros Hvalid Hcast Hfault.
  split; [|split; [|split]].
  - intros post Hfound Hown handle resourceType. apply authorised_test in Hown.
    apply db_lookup_post in Hfound.
    apply (post_run _ _ _ (fun _ w => exists r fault, trace w = _)).
    wp; try excluded Hfault; same_document; try congruence.
    all: unfold handle, resourceType, p_mediaPublicId, JS.or_else in *;
      cbn [JS.truthy] in *; exact_log.
  - intros story Hfound Hown.
    apply db_lookup_story in Hfound.
    apply (post_run _ _ _ (fun _ w => exists r fault, trace w = _)).
    wp; try excluded Hfault; same_document.
    all: try (rewrite Hown, N.eqb_refl in *; discriminate).
    all: exact_log.
  - intros event Hfound Hown. apply authorised_test in Hown.
    apply db_lookup_event in Hfound.
    apply (post_run _ _ _ (fun _ w => exists r fault, trace w = _)).
    wp; try excluded Hfault; same_document; try congruence.
    all: exact_log.
  - intros business Hfound Hown. apply authorised_test in Hown.
    apply db_lookup_business in Hfound.
    apply (post_run _ _ _ (fun _ w => exists r fault, trace w = _)).
    wp; try excluded Hfault; same_document; try congruence.
    all: exact_log.
Qed.

Lemma delete_entity_handle_witness :
  exists r fault,
    trace (snd (run (deletePost alice (lit "p1")) store_ok sample_db))
    = [CDb (FindById MPost 2) None;
       CDestroy (lit "patwa_toli/posts/pic") (lit "image") r;
       CDb (DeleteById MPost 2) fault].
Proof.
  apply (proj1 (delete_entity_handle store_ok sample_db alice (lit "p1") 2%N
                  eq_refl eq_refl (fun _ => eq_refl)) a_post);
    [reflexivity | by left].
Defined.

(** ** The default placeholder *)



(** Without a stored handle, such a log has no remote delete. *)
Lemma destroys_only_none stored t :
  JS.truthy stored = false -> destroys_only stored t -> no_destroy t.
Proof.
  unfold no_destroy, destroys_only. intros Hnone Honly.
  eapply Forall_impl; [exact Honly|].
  intros [| |publicId resourceType r| |] Hc; try done.
  destruct (Hc publicId resourceType r eq_refl). congruence.
Qed.




(** ** Creating an entity with media *)

Lemma check_save_order_sound t :
  check_save_order false t = true -> save_after_confirmed_upload t.
Proof.
  assert (forall u, check_save_order u t = true ->
            forall pre c post,
              t = pre ++ c :: post -> is_save c = true ->
              u = true \/ Exists (fun c => upload_confirmed c = true) pre) as H.
  { induction t as [|c t IH]; intros u Hc pre c' post Heq Hsave.
    - by destruct pre.
    - simpl in Hc. apply andb_true_iff in Hc as [Hhere Hrest].
      destruct pre as [|c0 pre]; simpl in Heq; simplify_eq.
      + rewrite Hsave in Hhere. by left.
      + destruct (IH _ Hrest _ _ _ eq_refl Hsave) as [Hu|Hu].
        * apply orb_true_iff in Hu as [->|Hu]; [by left|]. right. by constructor.
        * right. by constructor 2. }
  intros Hc pre c post Heq Hsave.
  by destruct (H _ Hc _ _ _ Heq Hsave).
Qed.

(** The end of the proofs below: on a log that is known call by call, the
    order is checked by evaluation with the tests made on the upload
    result, and the store is unchanged unless a write was accepted. *)
Ltac check_save :=
  split;
  [ apply check_save_order_sound;
    cbn [check_save_order upload_confirmed is_save orb andb negb];
    try reflexivity;
    use_tests;
    cbn [secure_url_of public_id_of mbind option_bind secure_url public_id] in *;
    repeat match goal with
    | H : JS.truthy ?v = true |- context [JS.truthy ?v] => rewrite H
    end;
    try reflexivity
  | cbn [existsb save_succeeded orb]; first [reflexivity | by intros] ].

(** [createStory], [createBusiness] and [createPost] write the new
    document only after an upload that resolved with a URL and a handle,
    and leave the store as it was unless the write was accepted. *)
Lemma create_saves_after_confirmed_upload (env : Env) (d : Db) (user : ReqUser) :
  (forall caption file,
     let w := snd (run (createStory user caption file) env d) in
     save_after_confirmed_upload (trace w) /\
     (existsb save_succeeded (trace w) = false -> db w = d)) /\
  (forall name description category address phone website email file,
     is_Some file ->
     let w := snd (run (createBusiness user name description category address
                          phone website email file) env d) in
     save_after_confirmed_upload (trace w) /\
     (existsb save_succeeded (trace w) = false -> db w = d)) /\
  (forall content imageFile videoFile,
     is_Some imageFile \/ is_Some videoFile ->
     let w := snd (run (createPost user content imageFile videoFile) env d) in
     save_after_confirmed_upload (trace w) /\
     (existsb save_succeeded (trace w) = false -> db w = d)).
Proof.
  split; [|split].
  - intros caption file.
    apply (post_run _ _ _ (fun _ w =>
             save_after_confirmed_upload (trace w) /\
             (existsb save_succeeded (trace w) = false -> db w = d))).
    wp. all: check_save.
  - intros name description category address phone website email file [f ->].
    apply (post_run _ _ _ (fun _ w =>
             save_after_confirmed_upload (trace w) /\
             (existsb save_succeeded (trace w) = false -> db w = d))).
    wp. all: check_save.
  - intros content imageFile videoFile Hfile.
    apply (post_run _ _ _ (fun _ w =>
             save_after_confirmed_upload (trace w) /\
             (existsb save_succeeded (trace w) = false -> db w = d))).
    wp. all: try (destruct Hfile as [[? ?]|[? ?]]; discriminate).
    all: repeat match goal with
         | H : context [bool_decide (is_Some (Some ?f))] |- _ =>
             change (bool_decide (is_Some (Some f))) with true in H
         | H : context [bool_decide (is_Some (@None ?A))] |- _ =>
             change (bool_decide (is_Some (@None A))) with false in H
         end;
         cbn [orb andb fst snd] in *.
    all: check_save.
Qed.

(** C4 fails on [createEvent], which tests the upload result for its URL
    only: when the remote store answers with a URL and no handle, the event
    is written, with the URL and without a handle. *)
Theorem createEvent_saves_without_handle :
  ~ save_after_confirmed_upload
      (trace (snd (run (createEvent alice (Some (lit "Mela"))
                          (Some (lit "Annual fair")) None (Some (lit "2030-01-01"))
                          (Some (lit "Gaya")) (Some (jpeg (lit "eventImage"))))
                     store_url_only
                     empty_db))) /\
  exists e,
    events (db (snd (run (createEvent alice (Some (lit "Mela"))
                            (Some (lit "Annual fair")) None
                            (Some (lit "2030-01-01")) (Some (lit "Gaya"))
                            (Some (jpeg (lit "eventImage"))))
                       store_url_only
                       empty_db))) !! 102%N = Some e /\
    ev_image e = secure_url url_only /\ ev_imagePublicId e = None.
Proof.
  split.
  - intros H.
    set (t := trace _) in H. vm_compute in t.
    lazymatch eval unfold t in t with
    | ?a :: ?b :: ?c :: _ =>
        pose proof (H [a; b] c _ eq_refl eq_refl) as Hup
    end.
    apply Exists_exists in Hup as (c & Hin & Hc).
    repeat (apply elem_of_cons in Hin as [->|Hin]; [discriminate Hc|]).
    by apply elem_of_nil in Hin.
  - eexists. split; [by vm_compute|]. split; reflexivity.
Qed.

(** ** The upload limits *)

Lemma imageFileFilter_strict : strict_filter imageFileFilter.
Proof.
  intros part. unfold imageFileFilter.
  destruct (JS.startsWith _ _); [by left | right; by eexists].
Qed.

Lemma mediaFileFilter_strict : strict_filter mediaFileFilter.
Proof.
  intros part. unfold mediaFileFilter.
  destruct (_ || _); [by left | right; by eexists].
Qed.

Lemma multer_files_oversize opts filesLeft parts :
  strict_filter (fileFilter opts) ->
  Exists (oversize (limits_fileSize opts)) parts ->
  refused_by_multer (multer_files opts filesLeft parts).
Proof.
  intros Hstrict Hex. revert filesLeft.
  induction parts as [|part parts IH]; intros filesLeft.
  - by apply Exists_nil in Hex.
  - simpl. destruct (filesLeft !! part_fieldname part) as [[|n]|];
      try (by eexists).
    destruct (Hstrict part) as [-> | (e & -> & He)]; [|by eexists].
    destruct (N.ltb_spec (limits_fileSize opts) (byteLength (part_data part)))
      as [Hlt|Hge]; [by eexists|].
    apply Exists_cons in Hex as [Hhere|Hex]; [unfold oversize in Hhere; lia|].
    destruct (IH Hex (<[part_fieldname part := n]> filesLeft)) as (e & -> & He).
    by eexists.
Qed.

Lemma multer_single_oversize opts name parts :
  strict_filter (fileFilter opts) ->
  Exists (oversize (limits_fileSize opts)) parts ->
  refused_by_multer (multer_single opts name parts).
Proof.
  intros Hstrict Hex. unfold multer_single.
  destruct (multer_files_oversize opts {[name := 1%nat]} parts Hstrict Hex)
    as (e & -> & He).
  by eexists.
Qed.

Lemma with_upload_refused {A} (upload : list FilePart -> Outcome A) parts
    (controller : A -> M Reply) env w :
  refused_by_multer (upload parts) ->
  request_refused (with_upload upload parts controller env w) w.
Proof.
  intros (e & He & Hname). unfold with_upload. rewrite He. by exists e.
Qed.

(** C8, as it stands, fails on the class of the error: a 60 MB part sent
    as post media with the type [text/plain] is refused by the file filter
    with [LIMIT_UNEXPECTED_FILE], not with [LIMIT_FILE_SIZE]. *)
Lemma oversize_upload_counterexample :
  oversize FIFTY_MB big_text /\
  uploadPostMedia [big_text]
  = Rejected (new_MulterError (lit "LIMIT_UNEXPECTED_FILE")
                (lit "Only image or video files are allowed!")).
Proof. split; [by vm_compute | reflexivity]. Qed.

Lemma imageFileFilter_of : filter_of is_image_type imageFileFilter.
Proof.
  intros part. unfold imageFileFilter, is_image_type.
  destruct (JS.startsWith _ _); [done | by eexists].
Qed.

Lemma mediaFileFilter_of : filter_of is_media_type mediaFileFilter.
Proof.
  intros part. unfold mediaFileFilter, is_media_type.
  destruct (_ || _); [done | by eexists].
Qed.

(** The first refusal of [multer_files] when no field takes more than one
    file. *)
Lemma multer_files_refused_at_first opts accepts filesLeft parts :
  filter_of accepts (fileFilter opts) ->
  (forall field n, filesLeft !! field = Some n -> (n <= 1)%nat) ->
  Exists (oversize (limits_fileSize opts)) parts ->
  exists pre part rest e,
    parts = pre ++ part :: rest /\
    (exists files, multer_files opts filesLeft pre = Resolved files) /\
    multer_files opts filesLeft parts = Rejected e /\
    if bool_decide (filesLeft !! part_fieldname part = Some 1%nat)
       && bool_decide (part_fieldname part ∉ part_fieldname <$> pre)
       && accepts (part_mimetype part)
    then oversize (limits_fileSize opts) part /\
         e = new_MulterError (lit "LIMIT_FILE_SIZE") (part_fieldname part)
    else e_name e = lit "MulterError" /\
         e_code e = Some (lit "LIMIT_UNEXPECTED_FILE").
Proof.
  intros Hfilter. revert filesLeft.
  induction parts as [|part0 parts IH]; intros filesLeft Hone Hex.
  - by apply Exists_nil in Hex.
  - cbn [multer_files].
    destruct (filesLeft !! part_fieldname part0) as [[|n]|] eqn:Hleft.
    + exists [], part0, parts. eexists. split; [done|]. split; [by eexists|].
      split; [done|]. rewrite Hleft. rewrite bool_decide_eq_false_2 by done. done.
    + assert (n = 0)%nat as -> by (apply Hone in Hleft; lia).
      pose proof (Hfilter part0) as Hpart.
      destruct (accepts (part_mimetype part0)) eqn:Haccepts.
      * rewrite Hpart.
        destruct (N.ltb_spec (limits_fileSize opts) (byteLength (part_data part0)))
          as [Hbig|Hsmall].
        -- exists [], part0, parts. eexists. split; [done|]. split; [by eexists|].
           split; [done|]. rewrite Hleft, Haccepts.
           rewrite !bool_decide_eq_true_2; [done| |done].
           cbn. apply not_elem_of_nil.
        -- apply Exists_cons in Hex as [Hhere|Hex]; [unfold oversize in Hhere; lia|].
           destruct (IH (<[part_fieldname part0 := 0%nat]> filesLeft))
             as (pre & part & rest & e & -> & [files Hpre] & Hparts & Herror);
             [|done|].
           { intros field n. destruct (decide (field = part_fieldname part0)) as [->|Hne].
             - rewrite lookup_insert_eq. intros Hzero.
               assert (n = 0)%nat as -> by congruence. lia.
             - rewrite lookup_insert_ne by done. apply Hone. }
           exists (part0 :: pre), part, rest, e. split; [done|].
           split; [|split].
           ++ cbn [multer_files]. rewrite Hleft, Hpart.
              destruct (N.ltb_spec (limits_fileSize opts) (byteLength (part_data part0)));
                [lia|].
              rewrite Hpre. by eexists.
           ++ by rewrite Hparts.
           ++ rewrite fmap_cons.
              destruct (decide (part_fieldname part = part_fieldname part0)) as [Heq|Hne].
              ** rewrite Heq, lookup_insert_eq in Herror.
                 rewrite (bool_decide_eq_false_2 (Some 0%nat = Some 1%nat)) in Herror
                   by done.
                 rewrite (bool_decide_eq_false_2
                            (part_fieldname part ∉ part_fieldname part0 :: _)).
                 --- by rewrite andb_false_r.
                 --- intros Hnot. apply Hnot. rewrite Heq. by left.
              ** rewrite lookup_insert_ne in Herror by done.
                 erewrite (bool_decide_ext (part_fieldname part ∉ part_fieldname part0 :: _));
                   [exact Herror|].
                 rewrite not_elem_of_cons. tauto.
      * destruct Hpart as (e & -> & Hname & Hcode).
        exists [], part0, parts, e. split; [done|]. split; [by eexists|].
        split; [done|]. by rewrite Haccepts, andb_false_r.
    + exists [], part0, parts. eexists. split; [done|]. split; [by eexists|].
      split; [done|]. rewrite Hleft. rewrite bool_decide_eq_false_2 by done. done.
Qed.

Lemma multer_single_refused_at_first opts accepts name parts :
  filter_of accepts (fileFilter opts) ->
  Exists (oversize (limits_fileSize opts)) parts ->
  refused_at_first (multer_single opts name) [name] accepts (limits_fileSize opts) parts.
Proof.
  intros Hfilter Hex.
  destruct (multer_files_refused_at_first opts accepts {[name := 1%nat]} parts Hfilter)
    as (pre & part & rest & e & -> & [files Hpre] & Hparts & Herror); [|done|].
  { intros field n Hleft. apply lookup_singleton_Some in Hleft. lia. }
  exists pre, part, rest, e. split; [done|]. unfold multer_single.
  rewrite Hpre, Hparts. split; [by eexists|]. split; [done|].
  erewrite (bool_decide_ext (part_fieldname part ∈ [name])); [exact Herror|].
  rewrite list_elem_of_singleton, lookup_singleton_Some.
  split; [by intros -> | by intros [-> _]].
Qed.

Lemma uploadPostMedia_refused_at_first parts :
  Exists (oversize FIFTY_MB) parts ->
  refused_at_first uploadPostMedia [lit "image"; lit "video"] is_media_type FIFTY_MB
    parts.
Proof.
  intros Hex. unfold uploadPostMedia, multer_fields.
  destruct (multer_files_refused_at_first
              {| fileFilter := mediaFileFilter; limits_fileSize := FIFTY_MB |}
              is_media_type
              (list_to_map [(lit "image", 1%nat); (lit "video", 1%nat)]) parts
              mediaFileFilter_of)
    as (pre & part & rest & e & -> & Hpre & Hparts & Herror); [|done|].
  { intros field n. cbn [list_to_map foldr uncurry fst snd].
    rewrite !lookup_insert_Some, lookup_empty.
    intros [[_ Hn]|[_ [[_ Hn]|[_ Hn]]]]; [lia|lia|done]. }
  exists pre, part, rest, e. split; [done|]. split; [done|]. split; [done|].
  erewrite (bool_decide_ext (part_fieldname part ∈ [lit "image"; lit "video"]));
    [exact Herror|].
  cbn [list_to_map foldr uncurry fst snd].
  rewrite !elem_of_cons, elem_of_nil, !lookup_insert_Some, lookup_empty.
  split.
  - intros [->|[->|[]]]; [by left|right]. split; [done|]. by left.
  - intros [[Hfield _]|[_ [[Hfield _]|[_ Hnone]]]]; [by left|right; by left|done].
Qed.

(** C8 (amended): a request with a file part longer than the limit of its
    upload class (5 MB for profile pictures, 50 MB for post media, 25 MB
    for story media, 10 MB for event and business images) is refused with a
    [MulterError] before the controller runs, so that no call leaves the
    process.  The error is that of the first part that the middleware
    refuses: [LIMIT_FILE_SIZE] when that part is longer than the limit,
    comes under a field of the class that no earlier part came under and
    has a type that the file filter of the class lets in; otherwise the
    field check or the file filter refuses it, with
    [LIMIT_UNEXPECTED_FILE]. *)
Theorem oversize_upload_refused (env : Env) (w : World) (user : ReqUser)
    (parts : list FilePart) :
  (Exists (oversize FIVE_MB) parts ->
   refused_at_first uploadProfilePic [lit "profilePic"] is_image_type FIVE_MB parts /\
   forall fullname fathername dob address phone email bio,
     request_refused
       (route_updateMyProfile user fullname fathername dob address phone email bio
          parts env w) w) /\
  (Exists (oversize FIFTY_MB) parts ->
   refused_at_first uploadPostMedia [lit "image"; lit "video"] is_media_type
     FIFTY_MB parts /\
   forall content, request_refused (route_createPost user content parts env w) w) /\
  (Exists (oversize TWENTY_FIVE_MB) parts ->
   refused_at_first uploadStoryMedia [lit "storyMedia"] is_media_type
     TWENTY_FIVE_MB parts /\
   forall caption, request_refused (route_createStory user caption parts env w) w) /\
  (Exists (oversize TEN_MB) parts ->
   refused_at_first uploadEventImage [lit "eventImage"] is_image_type TEN_MB parts /\
   refused_at_first uploadBusinessImage [lit "businessImage"] is_image_type TEN_MB
     parts /\
   (forall title description category eventDate location,
      request_refused
        (route_createEvent user title description category eventDate location
           parts env w) w) /\
   (forall eventId title description category eventDate location,
      request_refused
        (route_updateEvent user eventId title description category eventDate
           location parts env w) w) /\
   (forall name description category address phone website email,
      request_refused
        (route_createBusiness user name description category address phone
           website email parts env w) w) /\
   (forall businessId name description category address phone website email,
      request_refused
        (route_updateBusiness user businessId name description category address
           phone website email parts env w) w)).
Proof.
  split; [|split; [|split]].
  - intros Hex. split.
    + by apply (multer_single_refused_at_first
                  {| fileFilter := imageFileFilter; limits_fileSize := FIVE_MB |});
        [apply imageFileFilter_of|].
    + intros. apply with_upload_refused.
      by apply multer_single_oversize; [apply imageFileFilter_strict|].
  - intros Hex. split; [by apply uploadPostMedia_refused_at_first|].
    intros. apply with_upload_refused.
    by apply multer_files_oversize; [apply mediaFileFilter_strict|].
  - intros Hex. split.
    + by apply (multer_single_refused_at_first
                  {| fileFilter := mediaFileFilter;
                     limits_fileSize := TWENTY_FIVE_MB |});
        [apply mediaFileFilter_of|].
    + intros. apply with_upload_refused.
      by apply multer_single_oversize; [apply mediaFileFilter_strict|].
  - intros Hex. split; [|split].
    + by apply (multer_single_refused_at_first
                  {| fileFilter := imageFileFilter; limits_fileSize := TEN_MB |});
        [apply imageFileFilter_of|].
    + by apply (multer_single_refused_at_first
                  {| fileFilter := imageFileFilter; limits_fileSize := TEN_MB |});
        [apply imageFileFilter_of|].
    + repeat split; intros; apply with_upload_refused;
        by apply multer_single_oversize; [apply imageFileFilter_strict|].
Qed.

Lemma oversize_upload_refused_witness :
  refused_at_first uploadPostMedia [lit "image"; lit "video"] is_media_type
    FIFTY_MB [jpeg_part (lit "image"); big_video] /\
  forall content,
    request_refused
      (route_createPost alice content [jpeg_part (lit "image"); big_video]
         store_ok (fresh empty_db))
      (fresh empty_db).
Proof.
  apply (proj1 (proj2 (oversize_upload_refused store_ok (fresh empty_db) alice
                         [jpeg_part (lit "image"); big_video]))).
  apply Exists_cons_tl, Exists_cons_hd. by vm_compute.
Defined.

(** ** More on the reference resolver *)

Lemma lastIndexOf_from_spec (c : N) (s : jsstring) i acc :
  ((c ∉ s) /\ JS.lastIndexOf_from c s i acc = acc) \/
  (exists s1 s2, s = s1 ++ c :: s2 /\ (c ∉ s2) /\
     JS.lastIndexOf_from c s i acc = i + Z.of_nat (length s1)).
Proof.
  revert i acc. induction s as [|d s IH]; intros i acc; simpl.
  - left. split; [apply not_elem_of_nil | done].
  - destruct (IH (i + 1) (if (d =? c)%N then i else acc))
      as [[Hs Hr]|(s1 & s2 & -> & Hs2 & Hr)].
    + rewrite Hr. destruct (N.eqb_spec d c) as [->|Hd].
      * right. exists [], s. simpl. repeat split; [done | lia].
      * left. split; [|done]. apply not_elem_of_cons. by split.
    + right. exists (d :: s1), s2. rewrite Hr. simpl. repeat split; [done | lia].
Qed.

Lemma join_app (d : jsstring) (l1 l2 : list jsstring) :
  l1 ≠ [] -> l2 ≠ [] -> JS.join d (l1 ++ l2) = JS.join d l1 ++ d ++ JS.join d l2.
Proof.
  induction l1 as [|x l1 IH]; intros H1 H2; [done|].
  destruct l1 as [|y l1].
  - simpl. by destruct l2.
  - change (JS.join d ((x :: y :: l1) ++ l2)) with (x ++ d ++ JS.join d ((y :: l1) ++ l2)).
    rewrite IH by done. simpl. by rewrite <- !app_assoc.
Qed.

(** What [getPublicIdFromUrl] computes once the segments are known: the
    path after the version segment, cut at its last dot. *)
Lemma getPublicIdFromUrl_tail url front ver tail :
  JS.includes url (lit "cloudinary.com") = true ->
  url = JS.join (lit "/") (front ++ ver :: tail) ->
  Forall no_slash (front ++ ver :: tail) ->
  lit "upload" ∈ front ->
  Forall (fun x => isVersionPart x = false) front ->
  isVersionPart ver = true ->
  tail ≠ [] ->
  getPublicIdFromUrl (Some url)
  = let publicIdWithExt := JS.join (lit "/") tail in
    let lastDotIndex := JS.lastIndexOf publicIdWithExt (cu ".") in
    if lastDotIndex =? -1 then Some publicIdWithExt
    else Some (JS.substring_to publicIdWithExt lastDotIndex).
Proof.
  intros Hinc Hurl Hns Hup Hfront Hver Htail.
  unfold getPublicIdFromUrl. rewrite Hinc.
  assert (JS.truthy (Some url) = true) as ->.
  { destruct url; [by rewrite includes_nil_cloudinary in Hinc | done]. }
  cbn [negb orb].
  set (segs := front ++ ver :: tail) in *.
  assert (JS.split (cu "/") url = segs) as ->.
  { rewrite Hurl, lit_slash. apply split_join; [done|]. unfold segs. by destruct front. }
  assert (JS.findIndex isVersionPart segs = Z.of_nat (length front)) as Ht.
  { unfold JS.findIndex, segs. rewrite findIndex_from_app; [lia|done|done]. }
  assert (0 <= JS.indexOf segs (lit "upload") < Z.of_nat (length front)) as Hu.
  { unfold JS.indexOf, JS.findIndex, segs.
    apply (findIndex_from_elem (fun y => bool_decide (y = lit "upload"))
             front (ver :: tail) 0 (Z.le_refl 0)).
    apply Exists_exists. exists (lit "upload"). split; [done|].
    by apply bool_decide_eq_true. }
  rewrite Ht.
  assert (Z.of_nat (length segs)
          = Z.of_nat (length front) + 1 + Z.of_nat (length tail)) as Hlen.
  { unfold segs. rewrite length_app. simpl. lia. }
  assert (0 < Z.of_nat (length tail)) as Hpos.
  { destruct tail; [done|]. simpl. lia. }
  replace (JS.indexOf segs (lit "upload") =? -1) with false
    by (symmetry; apply Z.eqb_neq; lia).
  replace (Z.of_nat (length front) =? -1) with false
    by (symmetry; apply Z.eqb_neq; lia).
  replace (Z.of_nat (length front) <=? JS.indexOf segs (lit "upload")) with false
    by (symmetry; apply Z.leb_gt; lia).
  replace (Z.of_nat (length segs) <=? Z.of_nat (length front) + 1) with false
    by (symmetry; apply Z.leb_gt; lia).
  cbn [orb].
  assert (JS.slice segs (Z.of_nat (length front) + 1) = tail) as ->.
  { unfold JS.slice, segs.
    replace (Z.to_nat (Z.of_nat (length front) + 1)) with (length front + 1)%nat by lia.
    rewrite <- drop_drop, drop_app_length. reflexivity. }
  reflexivity.
Qed.

(** X1: for a Cloudinary URL with a segment [upload], later a first
    version segment and a path after it, the handle is that path cut at
    its last dot, wherever the dot is: the whole path when it has no dot,
    and a handle that stops inside a folder name when the last dot is
    there. *)
Theorem getPublicIdFromUrl_cuts_at_last_dot (url : jsstring)
    (front tail : list jsstring) (ver : jsstring) :
  JS.includes url (lit "cloudinary.com") = true ->
  url = JS.join (lit "/") (front ++ ver :: tail) ->
  Forall no_slash (front ++ ver :: tail) ->
  lit "upload" ∈ front ->
  Forall (fun x => isVersionPart x = false) front ->
  isVersionPart ver = true ->
  tail ≠ [] ->
  (cu "." ∉ JS.join (lit "/") tail ->
   getPublicIdFromUrl (Some url) = Some (JS.join (lit "/") tail)) /\
  (forall h e,
     JS.join (lit "/") tail = h ++ cu "." :: e -> cu "." ∉ e ->
     getPublicIdFromUrl (Some url) = Some h).
Proof.
  intros Hinc Hurl Hns Hup Hfront Hver Htail.
  rewrite (getPublicIdFromUrl_tail url front ver tail) by done.
  cbv zeta. unfold JS.lastIndexOf. split.
  - intros Hdot. by rewrite lastIndexOf_from_none.
  - intros h e -> He. rewrite lastIndexOf_from_app by done.
    replace (0 + Z.of_nat (length h) =? -1) with false
      by (symmetry; apply Z.eqb_neq; lia).
    unfold JS.substring_to.
    replace (Z.to_nat (0 + Z.of_nat (length h))) with (length h) by lia.
    by rewrite take_app_length.
Qed.

Lemma getPublicIdFromUrl_cuts_at_last_dot_witness :
  getPublicIdFromUrl
    (Some (lit "https://res.cloudinary.com/demo/image/upload/v1/my.folder/name"))
  = Some (lit "my") /\
  getPublicIdFromUrl
    (Some (lit "https://res.cloudinary.com/demo/image/upload/v1/folder/name"))
  = Some (lit "folder/name").
Proof.
  split.
  - apply (proj2 (getPublicIdFromUrl_cuts_at_last_dot
             (lit "https://res.cloudinary.com/demo/image/upload/v1/my.folder/name")
             [lit "https:"; []; lit "res.cloudinary.com"; lit "demo"; lit "image";
              lit "upload"]
             [lit "my.folder"; lit "name"] (lit "v1")
             eq_refl eq_refl ltac:(by_decide) ltac:(by_decide) ltac:(by_decide)
             eq_refl ltac:(done)) (lit "my") (lit "folder/name") eq_refl).
    by_decide.
  - apply (proj1 (getPublicIdFromUrl_cuts_at_last_dot
             (lit "https://res.cloudinary.com/demo/image/upload/v1/folder/name")
             [lit "https:"; []; lit "res.cloudinary.com"; lit "demo"; lit "image";
              lit "upload"]
             [lit "folder"; lit "name"] (lit "v1")
             eq_refl eq_refl ltac:(by_decide) ltac:(by_decide) ltac:(by_decide)
             eq_refl ltac:(done))).
    by_decide.
Defined.

(** X2: a handle that [getPublicIdFromUrl] returns is read off the URL
    itself: it stands in the URL right after a [/], and it ends where the
    URL ends or at the last dot of the URL. *)
Theorem getPublicIdFromUrl_handle_in_url (url h : jsstring) :
  getPublicIdFromUrl (Some url) = Some h ->
  exists pre suf,
    url = pre ++ cu "/" :: h ++ suf /\
    ((suf = [] /\ cu "." ∉ h) \/ (exists e, suf = cu "." :: e /\ cu "." ∉ e)).
Proof.
  intros Hh.
  destruct (getPublicIdFromUrl_Some_path url h Hh)
    as (Hinc & front & ver & tail & Hurl & Hns & Hup & Hver & Htail).
  revert Hh. unfold getPublicIdFromUrl. rewrite Hinc, orb_false_r.
  destruct (negb _); [done|].
  set (parts := JS.split (cu "/") url).
  destruct (_ || _) eqn:Hc; [done|].
  apply orb_false_iff in Hc as [Hc Hlen].
  apply orb_false_iff in Hc as [Hc Hle].
  apply orb_false_iff in Hc as [Hu Ht].
  apply Z.eqb_neq in Hu, Ht. apply Z.leb_gt in Hle, Hlen.
  pose proof (findIndex_from_range isVersionPart parts 0) as Hrange.
  unfold JS.findIndex in *.
  set (ti := JS.findIndex_from isVersionPart parts 0) in *.
  assert (0 <= ti) as Hti by lia.
  set (J := JS.join (lit "/") (JS.slice parts (ti + 1))).
  assert (url = JS.join (lit "/") (take (Z.to_nat (ti + 1)) parts)
                ++ cu "/" :: J) as Hsplit.
  { rewrite <- (join_split (cu "/") url) at 1. fold parts.
    rewrite <- (take_drop (Z.to_nat (ti + 1)) parts) at 1.
    rewrite <- lit_slash, join_app; [done| |].
    - intros E. apply (f_equal length) in E. rewrite length_take in E.
      simpl in E. lia.
    - intros E. apply (f_equal length) in E. rewrite length_drop in E.
      simpl in E. lia. }
  cbv zeta. fold J. unfold JS.lastIndexOf.
  destruct (lastIndexOf_from_spec (cu ".") J 0 (-1))
    as [[Hdot ->]|(s1 & s2 & HJ & Hs2 & ->)].
  - simpl. intros [= <-].
    exists (JS.join (lit "/") (take (Z.to_nat (ti + 1)) parts)), [].
    rewrite app_nil_r. split; [done | by left].
  - replace (0 + Z.of_nat (length s1) =? -1) with false
      by (symmetry; apply Z.eqb_neq; lia).
    unfold JS.substring_to.
    replace (Z.to_nat (0 + Z.of_nat (length s1))) with (length s1) by lia.
    rewrite HJ, take_app_length. intros [= <-].
    exists (JS.join (lit "/") (take (Z.to_nat (ti + 1)) parts)), (cu "." :: s2).
    split; [by rewrite Hsplit, HJ | right; by exists s2].
Qed.

Lemma getPublicIdFromUrl_handle_in_url_witness :
  exists pre suf,
    lit "https://res.cloudinary.com/demo/image/upload/v123/folder/file.jpg"
    = pre ++ cu "/" :: lit "folder/file" ++ suf /\
    ((suf = [] /\ cu "." ∉ lit "folder/file")
     \/ (exists e, suf = cu "." :: e /\ cu "." ∉ e)).
Proof.
  apply (getPublicIdFromUrl_handle_in_url
           (lit "https://res.cloudinary.com/demo/image/upload/v123/folder/file.jpg")
           (lit "folder/file")).
  vm_compute. reflexivity.
Defined.
(** ** What the upload middleware lets through *)

Lemma multer_files_accepted opts filesLeft parts files :
  strict_filter (fileFilter opts) ->
  multer_files opts filesLeft parts = Resolved files ->
  files = memoryFile <$> parts /\
  Forall (fun part => fileFilter opts part = Resolved true /\
                      (byteLength (part_data part) <= limits_fileSize opts)%N) parts /\
  forall name, (parts_under name parts <= default 0 (filesLeft !! name))%nat.
Proof.
  intros Hstrict. revert filesLeft files.
  induction parts as [|part parts IH]; intros filesLeft files; simpl.
  - intros [= <-]. repeat split; [constructor | intros; unfold parts_under; simpl; lia].
  - destruct (filesLeft !! part_fieldname part) as [[|n]|] eqn:Hleft; try done.
    destruct (Hstrict part) as [Hok | (e & He & _)]; rewrite ?He; [|done].
    rewrite Hok.
    destruct (N.ltb_spec (limits_fileSize opts) (byteLength (part_data part)))
      as [Hlt|Hge]; [done|].
    destruct (multer_files opts _ parts) as [files'|] eqn:Hrest; [|done].
    intros [= <-].
    destruct (IH _ _ Hrest) as (-> & Hall & Hcount).
    repeat split; [by constructor|].
    intros name. specialize (Hcount name). unfold parts_under in *.
    rewrite filter_cons. destruct (decide (part_fieldname part = name)) as [<-|Hne].
    + rewrite lookup_insert_eq in Hcount. rewrite Hleft. simpl in *. lia.
    + by rewrite lookup_insert_ne in Hcount.
Qed.

Lemma parts_under_zero name parts :
  parts_under name parts = 0%nat -> Forall (fun part => part_fieldname part ≠ name) parts.
Proof.
  unfold parts_under. induction parts as [|part parts IH]; [constructor|].
  rewrite filter_cons. destruct (decide (part_fieldname part = name)); [done|].
  intros H. constructor; auto.
Qed.

Lemma multer_single_accepted opts name parts r :
  strict_filter (fileFilter opts) ->
  multer_single opts name parts = Resolved r ->
  (parts = [] /\ r = None) \/
  (exists part,
     parts = [part] /\ r = Some (memoryFile part) /\
     part_fieldname part = name /\ fileFilter opts part = Resolved true /\
     (byteLength (part_data part) <= limits_fileSize opts)%N).
Proof.
  intros Hstrict. unfold multer_single.
  destruct (multer_files opts _ parts) as [files|] eqn:Hfiles; [|done].
  intros [= <-].
  destruct (multer_files_accepted _ _ _ _ Hstrict Hfiles) as (-> & Hall & Hcount).
  destruct parts as [|part parts]; [by left|right].
  apply Forall_cons in Hall as [[Hok Hsize] _].
  assert (part_fieldname part = name) as Hname.
  { destruct (decide (part_fieldname part = name)) as [|Hne]; [done|].
    specialize (Hcount (part_fieldname part)).
    rewrite lookup_singleton_ne in Hcount by done.
    unfold parts_under in Hcount. rewrite filter_cons_True in Hcount by done.
    simpl in Hcount. lia. }
  assert (parts = []) as ->.
  { specialize (Hcount name). rewrite lookup_singleton_eq in Hcount.
    unfold parts_under in Hcount. rewrite filter_cons_True in Hcount by done.
    destruct parts as [|part' parts]; [done|].
    destruct (decide (part_fieldname part' = name)) as [Hn'|Hne].
    - rewrite filter_cons_True in Hcount by done. simpl in Hcount. lia.
    - specialize (multer_files_accepted _ _ _ _ Hstrict Hfiles) as (_ & _ & Hc).
      specialize (Hc (part_fieldname part')).
      rewrite lookup_singleton_ne in Hc by done.
      unfold parts_under in Hc. rewrite filter_cons in Hc.
      destruct (decide (part_fieldname part = part_fieldname part')); 
        [congruence|].
      rewrite filter_cons_True in Hc by done. simpl in Hc. lia. }
  exists part. done.
Qed.

Lemma imageFileFilter_true part :
  imageFileFilter part = Resolved true -> is_image_type (part_mimetype part) = true.
Proof. unfold imageFileFilter, is_image_type. by destruct (JS.startsWith _ _). Qed.

Lemma mediaFileFilter_true part :
  mediaFileFilter part = Resolved true -> is_media_type (part_mimetype part) = true.
Proof. unfold mediaFileFilter, is_media_type. by destruct (_ || _). Qed.

Lemma multer_single_one opts name part :
  part_fieldname part = name ->
  fileFilter opts part = Resolved true ->
  (byteLength (part_data part) < limits_fileSize opts)%N ->
  multer_single opts name [part] = Resolved (Some (memoryFile part)).
Proof.
  intros Hname Hok Hsize. unfold multer_single. cbn [multer_files].
  rewrite Hname, lookup_singleton_eq, <- Hname, Hok.
  replace (limits_fileSize opts <? byteLength (part_data part))%N with false
    by (symmetry; apply N.ltb_ge; lia).
  reflexivity.
Qed.

Lemma multer_single_lets_through opts name accepts :
  strict_filter (fileFilter opts) ->
  (forall part, fileFilter opts part = Resolved true <-> accepts (part_mimetype part) = true) ->
  lets_through_one (multer_single opts name) name accepts (limits_fileSize opts).
Proof.
  intros Hstrict Hacc. split.
  - intros parts r Hr. apply multer_single_accepted in Hr; [|done].
    destruct Hr as [?|(part & -> & -> & Hname & Hok & Hsize)]; [by left|right].
    exists part. repeat split; try done. by apply Hacc.
  - intros part (Hname & Hok & _) Hsize. apply multer_single_one; try done.
    by apply Hacc.
Qed.

Lemma imageFileFilter_iff part :
  imageFileFilter part = Resolved true <-> is_image_type (part_mimetype part) = true.
Proof. unfold imageFileFilter, is_image_type. by destruct (JS.startsWith _ _). Qed.

Lemma mediaFileFilter_iff part :
  mediaFileFilter part = Resolved true <-> is_media_type (part_mimetype part) = true.
Proof. unfold mediaFileFilter, is_media_type. by destruct (_ || _). Qed.

(** X3: the four single-file upload middlewares.  A request that they let
    through carries no file part, or exactly one: under the field of the
    middleware, of an image type (an image or a video type for story
    media), not longer than the limit of its class, and handed to the
    controller with the bytes of the part as its buffer.  Conversely, a
    request with one such part, shorter than the limit, is let through. *)
Theorem single_upload_lets_through :
  lets_through_one uploadProfilePic (lit "profilePic") is_image_type FIVE_MB /\
  lets_through_one uploadStoryMedia (lit "storyMedia") is_media_type TWENTY_FIVE_MB /\
  lets_through_one uploadEventImage (lit "eventImage") is_image_type TEN_MB /\
  lets_through_one uploadBusinessImage (lit "businessImage") is_image_type TEN_MB.
Proof.
  repeat split.
  all: first
    [ apply (multer_single_lets_through
               {| fileFilter := imageFileFilter; limits_fileSize := _ |});
      [apply imageFileFilter_strict | apply imageFileFilter_iff]
    | apply (multer_single_lets_through
               {| fileFilter := mediaFileFilter; limits_fileSize := _ |});
      [apply mediaFileFilter_strict | apply mediaFileFilter_iff] ].
Qed.

Lemma single_upload_lets_through_witness :
  uploadProfilePic [jpeg_part (lit "profilePic")]
  = Resolved (Some (jpeg (lit "profilePic"))) /\
  part_within (lit "profilePic") is_image_type FIVE_MB (jpeg_part (lit "profilePic")).
Proof.
  destruct single_upload_lets_through as [[Honly Hone] _].
  assert (uploadProfilePic [jpeg_part (lit "profilePic")]
          = Resolved (Some (jpeg (lit "profilePic")))) as Hpass.
  { apply (Hone (jpeg_part (lit "profilePic"))).
    - repeat split. by vm_compute.
    - by vm_compute. }
  split; [exact Hpass|].
  destruct (Honly _ _ Hpass) as [[Hnil _]|(part & Hpart & _ & Hwithin)].
  - discriminate Hnil.
  - injection Hpart as <-. exact Hwithin.
Defined.

(** X4: the post-media middleware.  A request that it lets through has
    every file part handed on as a file in memory, at most one part under
    [image] and at most one under [video] and none under another field,
    each of an image or video type and not longer than 50 MB. *)
Theorem uploadPostMedia_lets_through (parts : list FilePart) (files : list File) :
  uploadPostMedia parts = Resolved files ->
  files = memoryFile <$> parts /\
  (parts_under (lit "image") parts <= 1)%nat /\
  (parts_under (lit "video") parts <= 1)%nat /\
  Forall (fun part =>
            (part_fieldname part = lit "image" \/ part_fieldname part = lit "video") /\
            is_media_type (part_mimetype part) = true /\
            (byteLength (part_data part) <= FIFTY_MB)%N) parts.
Proof.
  unfold uploadPostMedia, multer_fields. intros Hfiles.
  apply multer_files_accepted in Hfiles as (-> & Hall & Hcount);
    [|apply mediaFileFilter_strict].
  split; [done|]. split; [apply (Hcount (lit "image"))|].
  split; [apply (Hcount (lit "video"))|].
  apply Forall_forall. intros part Hin.
  rewrite Forall_forall in Hall. destruct (Hall part Hin) as [Hok Hsize].
  split; [|split; [by apply mediaFileFilter_iff | done]].
  destruct (decide (part_fieldname part = lit "image")) as [|Hi]; [by left|].
  destruct (decide (part_fieldname part = lit "video")) as [|Hv]; [by right|].
  exfalso. specialize (Hcount (part_fieldname part)).
  cbn [list_to_map foldr] in Hcount.
  rewrite !lookup_insert_ne, lookup_empty in Hcount by done.
  assert (parts_under (part_fieldname part) parts = 0%nat) as Hzero
    by (simpl in Hcount; lia).
  apply parts_under_zero in Hzero.
  rewrite Forall_forall in Hzero. by apply (Hzero part Hin).
Qed.

Lemma uploadPostMedia_lets_through_witness :
  [memoryFile (jpeg_part (lit "image")); memoryFile (mp4_part (lit "video"))]
  = memoryFile <$> [jpeg_part (lit "image"); mp4_part (lit "video")] /\
  (parts_under (lit "image") [jpeg_part (lit "image"); mp4_part (lit "video")] <= 1)%nat /\
  (parts_under (lit "video") [jpeg_part (lit "image"); mp4_part (lit "video")] <= 1)%nat /\
  Forall (fun part =>
            (part_fieldname part = lit "image" \/ part_fieldname part = lit "video") /\
            is_media_type (part_mimetype part) = true /\
            (byteLength (part_data part) <= FIFTY_MB)%N)
    [jpeg_part (lit "image"); mp4_part (lit "video")].
Proof.
  apply (uploadPostMedia_lets_through
           [jpeg_part (lit "image"); mp4_part (lit "video")]).
  vm_compute. reflexivity.
Defined.

(** ** The story route *)

Lemma startsWith_app (s p q : jsstring) :
  JS.startsWith s (p ++ q) = true -> JS.startsWith s p = true.
Proof.
  revert s. induction p as [|c p IH]; intros s; [by destruct s|].
  destruct s as [|d s]; simpl; [done|].
  intros [-> H]%andb_true_iff. by rewrite (IH _ H).
Qed.

(** X5: the story route.  A file that [uploadStoryMedia] hands to
    [createStory] has its bytes in a buffer and a type that starts with
    [image] or [video]: behind the middleware, [createStory] finds a
    media type for every file, and the helper a buffer to upload. *)
Theorem story_upload_has_media_type (parts : list FilePart) (file : File) :
  uploadStoryMedia parts = Resolved (Some file) ->
  is_Some (buffer file) /\
  (JS.startsWith (mimetype file) (lit "image")
   || JS.startsWith (mimetype file) (lit "video") = true).
Proof.
  intros Hfile.
  apply multer_single_accepted in Hfile; [|apply mediaFileFilter_strict].
  destruct Hfile as [[_ [=]]|(part & _ & [= ->] & _ & Hok & _)].
  split; [by eexists|].
  apply mediaFileFilter_iff in Hok. unfold is_media_type in Hok.
  apply orb_true_iff in Hok as [Hok|Hok]; apply orb_true_iff; [left|right].
  - by apply (startsWith_app _ (lit "image") (lit "/")).
  - by apply (startsWith_app _ (lit "video") (lit "/")).
Qed.

Lemma story_upload_has_media_type_witness :
  is_Some (buffer (memoryFile (mp4_part (lit "storyMedia")))) /\
  (JS.startsWith (mimetype (memoryFile (mp4_part (lit "storyMedia")))) (lit "image")
   || JS.startsWith (mimetype (memoryFile (mp4_part (lit "storyMedia")))) (lit "video")
   = true).
Proof.
  apply (story_upload_has_media_type [mp4_part (lit "storyMedia")]).
  reflexivity.
Defined.

(** ** The upload helper *)

(** X6: what [uploadToCloudinary] does with a file, in every environment.
    It leaves the document store alone and calls nothing but the data-URI
    parser and the remote upload, the latter at most once, with a
    non-empty data URI and the folder it was given.  It resolves only
    when that upload resolved, with the URL and the handle of the answer;
    a rejected upload becomes an error whose message is prefixed with
    [Cloudinary upload failed: ]; without a buffer nothing is called and
    the error is [Failed to process file buffer.]. *)
Theorem uploadToCloudinary_outcome (env : Env) (w : World) (file : File)
    (folder : jsstring) :
  post (uploadToCloudinary (Some file) folder) env w (fun r w' =>
    db w' = db w /\
    exists calls,
      trace w' = trace w ++ calls /\
      Forall (fun c => is_format c || is_upload c = true) calls /\
      (length (uploads calls) <= 1)%nat /\
      (forall content target answer,
         CUpload content target answer ∈ calls ->
         content ≠ [] /\ target = folder /\
         r = match answer with
             | Resolved res =>
                 Resolved (Some {| secure_url := secure_url res;
                                   public_id := public_id res |})
             | Rejected e =>
                 Rejected (new_Error (lit "Cloudinary upload failed: " ++ e_message e))
             end) /\
      (no_upload calls -> exists e, r = Rejected e) /\
      (buffer file = None ->
       calls = [] /\ r = Rejected (new_Error (lit "Failed to process file buffer.")))).
Proof.
  wp.
  all: try match goal with
       | H : negb (JS.truthy (None ≫= _)) = _ |- _ => discriminate H
       end.
  all: split; [reflexivity|].
  all: first [ exists []; split; [by rewrite app_nil_r|]
             | eexists; split; [rewrite <- ?app_assoc; reflexivity|] ].
  all: split; [by repeat constructor|].
  all: split; [by (cbn; lia)|].
  all: split; [|split; [|intros; by simplify_eq]].
  all: try (intros content target answer Hin;
            repeat (apply elem_of_cons in Hin as [Hin|Hin]; simplify_eq);
            try (by apply elem_of_nil in Hin)).
  all: try (intros Hno; try (by eexists);
            repeat (apply Forall_cons in Hno as [? Hno]); done).
  all: split; [|done].
  all: match goal with
       | H : negb (JS.truthy _) = false |- _ =>
           apply negb_false_iff in H; cbn in H
       end.
  all: match goal with |- default [] ?c ≠ [] => by destruct c as [[|]|] end.
Qed.

(** ** Requests that are refused *)

Lemma unauthorised_test owner user :
  ~ authorised owner user ->
  negb (owner =? user_id user)%N && negb (user_isAdmin user) = true.
Proof.
  intros Hno. destruct (N.eqb_spec owner (user_id user)) as [->|_].
  - exfalso. apply Hno. by left.
  - destruct (user_isAdmin user) eqn:Hadmin; [|done].
    exfalso. apply Hno. by right.
Qed.

(** Run a handler step by step and drop a path as soon as the hypotheses
    exclude it. *)
Ltac case_tests :=
  repeat (use_tests;
          match goal with
          | H : _ && _ = false |- _ => apply andb_false_iff in H as [H|H]
          | H : _ || _ = true |- _ => apply orb_true_iff in H as [H|H]
          end);
  use_tests.

Ltac off_path :=
  solve [same_document;
         first [congruence | use_tests; congruence | case_tests; congruence]].

Ltac wp_on_path :=
  repeat lazymatch goal with
         | |- post (match ?x with _ => _ end) _ _ _ =>
             destruct x eqn:?; try off_path;
             cbv beta iota zeta; cbn [db trace app]
         | |- _ => wp_step
         end.

(** The end of the proofs of refusal: nothing changed, and the error. *)
Ltac refused :=
  unfold refused_with, untouched; cbn [db trace];
  repeat split; try done; repeat constructor;
  try (by eexists); try congruence.

(** X7: a request to change or delete a document by somebody who may
    not (for a story: anybody but its author, administrators included;
    for an event, a business listing or a post: anybody but the owner and
    the administrators) ends in [next(err)] and changes nothing: no
    upload even when a file came with the request, no remote delete, no
    write; the error is 403 unless the lookup failed in the store. *)
Theorem unauthorised_request_refused (env : Env) (d : Db) (user : ReqUser)
    (id : jsstring) (k : ObjectId) :
  ObjectId_isValid env id = true ->
  castObjectId env id = Some k ->
  (forall story,
     stories d !! k = Some story -> s_user story ≠ user_id user ->
     post (deleteStory user id) env (fresh d)
       (refused_with (new_Error_status (lit "Forbidden.") 403)
          (FindById MStory k) env d)) /\
  (forall event,
     events d !! k = Some event -> ~ authorised (ev_organizer event) user ->
     post (deleteEvent user id) env (fresh d)
       (refused_with (new_Error_status (lit "Forbidden.") 403)
          (FindById MEvent k) env d) /\
     forall title description category eventDate location file,
       post (updateEvent user id title description category eventDate location file)
         env (fresh d)
         (refused_with (new_Error_status (lit "Forbidden.") 403)
            (FindById MEvent k) env d)) /\
  (forall business,
     businesses d !! k = Some business -> ~ authorised (b_owner business) user ->
     post (deleteBusiness user id) env (fresh d)
       (refused_with (new_Error_status (lit "Forbidden.") 403)
          (FindById MBusiness k) env d) /\
     forall name description category address phone website email file,
       post (updateBusiness user id name description category address phone website
               email file) env (fresh d)
         (refused_with (new_Error_status (lit "Forbidden: Not authorized.") 403)
            (FindById MBusiness k) env d)) /\
  (forall stored,
     posts d !! k = Some stored -> ~ authorised (p_user stored) user ->
     post (deletePost user id) env (fresh d)
       (refused_with (new_Error_status (lit "Forbidden.") 403)
          (FindById MPost k) env d)).
Proof.
  intros Hvalid Hcast. unfold fresh.
  split; [|split; [|split]].
  - intros story Hfound Hown. apply db_lookup_story in Hfound.
    assert ((s_user story =? user_id user)%N = false) as Htest
      by by apply N.eqb_neq.
    wp_on_path. all: refused.
  - intros event Hfound Hown. apply db_lookup_event in Hfound.
    apply unauthorised_test in Hown. split; [|intros].
    all: wp_on_path. all: refused.
  - intros business Hfound Hown. apply db_lookup_business in Hfound.
    apply unauthorised_test in Hown. split; [|intros].
    all: wp_on_path. all: refused.
  - intros stored Hfound Hown. apply db_lookup_post in Hfound.
    apply unauthorised_test in Hown.
    wp_on_path. all: refused.
Qed.

Lemma unauthorised_request_refused_witness :
  post (deleteStory carol (lit "s1")) store_ok (fresh sample_db)
    (refused_with (new_Error_status (lit "Forbidden.") 403)
       (FindById MStory 2) store_ok sample_db) /\
  post (updateBusiness bob (lit "b1") (Some (lit "Mine")) None None None None None None
          (Some (jpeg (lit "businessImage")))) store_ok (fresh sample_db)
    (refused_with (new_Error_status (lit "Forbidden: Not authorized.") 403)
       (FindById MBusiness 2) store_ok sample_db).
Proof.
  split.
  - apply (proj1 (unauthorised_request_refused store_ok sample_db carol (lit "s1") 2%N
                    eq_refl eq_refl) story_with_handle eq_refl).
    by vm_compute.
  - apply (proj1 (proj2 (proj2 (unauthorised_request_refused store_ok sample_db bob
                                  (lit "b1") 2%N eq_refl eq_refl)))
             a_business eq_refl).
    intros [H|H]; by vm_compute in H.
Defined.

Lemma db_lookup_none_story d k : stories d !! k = None -> db_lookup d MStory k = None.
Proof. unfold db_lookup. by intros ->. Qed.

Lemma db_lookup_none_event d k : events d !! k = None -> db_lookup d MEvent k = None.
Proof. unfold db_lookup. by intros ->. Qed.

Lemma db_lookup_none_business d k :
  businesses d !! k = None -> db_lookup d MBusiness k = None.
Proof. unfold db_lookup. by intros ->. Qed.

Lemma db_lookup_none_user d k : users d !! k = None -> db_lookup d MUser k = None.
Proof. unfold db_lookup. by intros ->. Qed.

Lemma db_lookup_none_post d k : posts d !! k = None -> db_lookup d MPost k = None.
Proof. unfold db_lookup. by intros ->. Qed.

(** X8: a request on a document that the store does not have ends in
    [next(err)] and changes nothing: no upload even when a file came with
    the request, no remote delete, no write.  Unless the lookup failed in
    the store, the error is 404 with the message of the handler for the
    delete and update handlers, and an error without a status code for
    [attendEvent] and [unattendEvent]. *)
Theorem missing_document_refused (env : Env) (d : Db) (user : ReqUser)
    (id : jsstring) (k : ObjectId) :
  ObjectId_isValid env id = true ->
  castObjectId env id = Some k ->
  (stories d !! k = None ->
   post (deleteStory user id) env (fresh d)
     (refused_with (new_Error_status (lit "Story not found.") 404)
        (FindById MStory k) env d)) /\
  (events d !! k = None ->
   post (deleteEvent user id) env (fresh d)
     (refused_with (new_Error_status (lit "Event not found.") 404)
        (FindById MEvent k) env d) /\
   (forall title description category eventDate location file,
      post (updateEvent user id title description category eventDate location file)
        env (fresh d)
        (refused_with (new_Error_status (lit "Event not found.") 404)
           (FindById MEvent k) env d)) /\
   post (attendEvent user id) env (fresh d)
     (refused_with (new_Error (lit "Event not found.")) (FindById MEvent k) env d) /\
   post (unattendEvent user id) env (fresh d)
     (refused_with (new_Error (lit "Event not found.")) (FindById MEvent k) env d)) /\
  (businesses d !! k = None ->
   post (deleteBusiness user id) env (fresh d)
     (refused_with (new_Error_status (lit "Business listing not found.") 404)
        (FindById MBusiness k) env d) /\
   forall name description category address phone website email file,
     post (updateBusiness user id name description category address phone website
             email file) env (fresh d)
       (refused_with (new_Error_status (lit "Business listing not found.") 404)
          (FindById MBusiness k) env d)) /\
  (posts d !! k = None ->
   post (deletePost user id) env (fresh d)
     (refused_with (new_Error_status (lit "Post not found.") 404)
        (FindById MPost k) env d)) /\
  (users d !! user_id user = None ->
   forall fullname fathername dob address phone email bio file,
     post (updateMyProfile user fullname fathername dob address phone email bio file)
       env (fresh d)
       (refused_with (new_Error_status (lit "User not found.") 404)
          (FindById MUser (user_id user)) env d)).
Proof.
  intros Hvalid Hcast. unfold fresh.
  split; [|split; [|split; [|split]]].
  - intros Hnone%db_lookup_none_story. wp_on_path. all: refused.
  - intros Hnone. pose proof (db_lookup_none_event _ _ Hnone) as Hnone'.
    split; [|split; [|split]]; intros; wp_on_path. all: refused.
  - intros Hnone%db_lookup_none_business.
    split; intros; wp_on_path. all: refused.
  - intros Hnone%db_lookup_none_post. wp_on_path. all: refused.
  - intros Hnone%db_lookup_none_user. intros. wp_on_path. all: refused.
Qed.

Lemma missing_document_refused_witness :
  post (deletePost alice (lit "post-x")) store_ok (fresh sample_db)
    (refused_with (new_Error_status (lit "Post not found.") 404)
       (FindById MPost 6) store_ok sample_db) /\
  post (attendEvent alice (lit "event-x")) store_ok (fresh sample_db)
    (refused_with (new_Error (lit "Event not found.")) (FindById MEvent 7)
       store_ok sample_db).
Proof.
  split.
  - apply (proj1 (proj2 (proj2 (proj2 (missing_document_refused store_ok sample_db
             alice (lit "post-x") 6%N eq_refl eq_refl))))).
    reflexivity.
  - apply (proj1 (proj2 (missing_document_refused store_ok sample_db alice
             (lit "event-x") 7%N eq_refl eq_refl))).
    reflexivity.
Defined.

(** ** Creating a document *)

(** X9: the create handlers validate before they call anything.  A
    story without a file, with a caption of more than 200 code units or
    with a file that is neither an image nor a video; an event without
    one of its required fields, with a date that cannot be read or a date
    in the past; a business listing without one of its required fields,
    with a category outside the list, or with an email or a website that
    fails its test; a post without text and without media: each ends in
    [next(err)] with the store as it was and without any call. *)
Theorem invalid_create_changes_nothing (env : Env) (d : Db) (user : ReqUser) :
  (forall caption file,
     file = None \/
     (JS.truthy caption = true /\ 200 < Z.of_nat (length (str caption))) \/
     (exists f, file = Some f /\
        JS.startsWith (mimetype f) (lit "image") = false /\
        JS.startsWith (mimetype f) (lit "video") = false) ->
     exists e, run (createStory user caption file) env d = (Resolved (Next e), fresh d)) /\
  (forall title description category eventDate location file,
     JS.truthy title = false \/ JS.truthy description = false \/
     JS.truthy eventDate = false \/ JS.truthy location = false \/
     Date_parse env (str eventDate) = None \/
     (exists t, Date_parse env (str eventDate) = Some t /\ t < Date_now env []) ->
     exists e,
       run (createEvent user title description category eventDate location file) env d
       = (Resolved (Next e), fresh d)) /\
  (forall name description category address phone website email file,
     JS.truthy name = false \/ JS.truthy description = false \/
     JS.truthy category = false \/ JS.truthy address = false \/
     str category ∉ Business_categories \/
     (JS.truthy email = true /\ email_test env (str email) = false) \/
     (JS.truthy website = true /\ website_test env (str website) = false) ->
     exists e,
       run (createBusiness user name description category address phone website
              email file) env d
       = (Resolved (Next e), fresh d)) /\
  (forall content,
     JS.truthy content = false ->
     exists e, run (createPost user content None None) env d
               = (Resolved (Next e), fresh d)).
Proof.
  assert (forall (m : M Reply),
            post m env (fresh d) (fun r w => (exists e, r = Resolved (Next e)) /\ w = fresh d) ->
            exists e, run m env d = (Resolved (Next e), fresh d)) as Hpost.
  { intros m [[e He] Hw]. exists e. unfold run.
    destruct (m env (fresh d)) as [r w]. simpl in *. by subst. }
  split; [|split; [|split]].
  - intros caption file Hbad. apply Hpost. unfold fresh.
    destruct Hbad as [->|[[Hc Hlen]|(f & -> & Hi & Hv)]].
    + wp_on_path. all: by eauto.
    + apply Z.ltb_lt in Hlen. wp_on_path. all: by eauto.
    + wp_on_path. all: by eauto.
  - intros title description category eventDate location file Hbad.
    apply Hpost. unfold fresh.
    destruct Hbad as [H|[H|[H|[H|[H|(t & H & Hpast)]]]]].
    6: apply Z.ltb_lt in Hpast.
    all: wp_on_path. all: by eauto.
  - intros name description category address phone website email file Hbad.
    apply Hpost. unfold fresh.
    destruct Hbad as [H|[H|[H|[H|[H|[[H H']|[H H']]]]]]].
    5: apply (bool_decide_eq_false_2 _) in H; fold (is_Business_category (str category)) in H.
    all: wp_on_path. all: by eauto.
  - intros content Hc. apply Hpost. unfold fresh.
    assert (negb (JS.truthy content) && negb (bool_decide (is_Some (@None File)))
              && negb (bool_decide (is_Some (@None File))) = true) as Hempty
      by (by rewrite Hc).
    wp_on_path. all: by eauto.
Qed.

Lemma invalid_create_changes_nothing_witness :
  (exists e, run (createStory alice (Some (lit "hi")) None) store_ok sample_db
             = (Resolved (Next e), fresh sample_db)) /\
  (exists e, run (createBusiness alice (Some (lit "Loom")) (Some (lit "Sarees"))
                    (Some (lit "Weaving")) (Some (lit "Manpur")) None None None
                    (Some (jpeg (lit "businessImage")))) store_ok sample_db
             = (Resolved (Next e), fresh sample_db)).
Proof.
  split.
  - apply (proj1 (invalid_create_changes_nothing store_ok sample_db alice)).
    by left.
  - apply (proj1 (proj2 (proj2 (invalid_create_changes_nothing store_ok sample_db
                                  alice)))).
    do 4 right. left. by_decide.
Defined.

(** What the store checked when it accepted an insert. *)
Ltac insert_accepted :=
  repeat match goal with
  | H : match db_fault ?env ?t ?op with _ => _ end = None |- _ =>
      destruct (db_fault env t op) eqn:?; [discriminate H|];
      let E := fresh "Hfree" in
      destruct (db_lookup _ _ _) eqn:E in H; [discriminate H|];
      unfold db_lookup in E; cbn [doc_model] in E; apply fmap_None in E;
      cbn [doc_id s_id ev_id b_id u_id p_id] in E; clear H
  end.

Lemma grown_by_refl {A} (new : ObjectId -> A -> Prop) (m : gmap ObjectId A) :
  grown_by new m m.
Proof. split; [done|]. intros k x Hx. by left. Qed.

Lemma grown_by_insert {A} (new : ObjectId -> A -> Prop) (m : gmap ObjectId A) k x :
  m !! k = None -> new k x -> grown_by new m (<[k := x]> m).
Proof.
  intros Hfree Hnew. split; [by apply insert_subseteq|].
  intros k' x' [[<- <-]|[_ Hx]]%lookup_insert_Some; [by right | by left].
Qed.

Lemma caption_bound (caption : option jsstring) :
  JS.truthy caption && (200 <? Z.of_nat (length (str caption))) = false ->
  (length (str (JS.or_else caption (Some []))) <= 200)%nat.
Proof.
  unfold JS.or_else. destruct (JS.truthy caption); simpl; [|lia].
  intros H%Z.ltb_ge. lia.
Qed.

(** X10: what [createStory] leaves in the store, whatever the request
    and the environment.  Nothing changes outside the stories and no
    story is lost or changed; a story that was not there before has the
    caller as its user, a URL and a handle that an upload of this request
    returned, the media type [image] or [video], a caption of at most 200
    code units and an expiry 24 hours after the time read.  The answer is
    a JSON response only when such a story was stored, and then it is 201
    with that story. *)
Theorem createStory_stores_handle (env : Env) (d : Db) (user : ReqUser)
    (caption : option jsstring) (file : option File) :
  post (createStory user caption file) env (fresh d) (fun r w =>
    same_but_stories d (db w) /\
    grown_by (created_story env user (trace w)) (stories d) (stories (db w)) /\
    forall status success message body,
      r = Resolved (Json status success message body) ->
      status = 201 /\ success = true /\
      exists story,
        body = Payload (Some (DStory story)) /\
        stories d !! s_id story = None /\
        stories (db w) !! s_id story = Some story).
Proof.
  unfold fresh. wp.
  all: try match goal with
       | H : negb (JS.truthy (None ≫= _)) = _ |- _ => discriminate H
       end.
  all: insert_accepted.
  all: split; [done|].
  all: split; [first [apply grown_by_refl | apply grown_by_insert; [done|]]|].
  all: try (intros status success message body [=]; subst).
  all: try (split; [done|]; split; [done|]; eexists;
            unfold db_lookup; cbn [db with_stories stories doc_id s_id];
            rewrite lookup_insert_eq;
            split; [reflexivity|]; split; [done | apply lookup_insert_eq]).
  all: unfold created_story; cbn [s_id s_user s_mediaType s_mediaUrl s_publicId
                                  s_caption s_expiresAt].
  all: use_tests.
  all: repeat split; try done; try (by apply caption_bound).
  all: try (first [by left | by right]).
  all: try (do 2 eexists; split; [rewrite !elem_of_cons; right; left; reflexivity|];
            by split).
  all: try (eexists; split; cycle 1; [reflexivity | by eexists]).
Qed.

Ltac infeasible :=
  try match goal with
      | H : negb (JS.truthy (None ≫= _)) = _ |- _ => discriminate H
      end.

(** The media of a document made from the result of an upload. *)
Ltac media_from_log :=
  unfold media_of_upload, secure_url_of, public_id_of; cbn [mbind option_bind];
  first [ left; repeat split; try done; by repeat constructor
        | right; split; [done|]; do 2 eexists;
          split; [rewrite !elem_of_cons; right; left; reflexivity|]; by split ].

(** X11: what [createBusiness] leaves in the store, whatever the request
    and the environment.  Nothing changes outside the business listings
    and no listing is lost or changed; a listing that was not there has
    the caller as its owner and a category of the list, and it has either
    no image and no handle, with no upload made, or the URL and the handle
    of an upload of this request, both present.  The answer is a JSON
    response only when such a listing was stored, and then it is 201 with
    that listing. *)
Theorem createBusiness_stores_handle (env : Env) (d : Db) (user : ReqUser)
    (name description category address phone website email : option jsstring)
    (file : option File) :
  post (createBusiness user name description category address phone website email
          file) env (fresh d) (fun r w =>
    same_but_businesses d (db w) /\
    grown_by (created_business user (trace w)) (businesses d) (businesses (db w)) /\
    forall status success message body,
      r = Resolved (Json status success message body) ->
      status = 201 /\ success = true /\
      exists business,
        body = Payload (Some (DBusiness business)) /\
        businesses d !! b_id business = None /\
        businesses (db w) !! b_id business = Some business).
Proof.
  unfold fresh. wp.
  all: infeasible.
  all: insert_accepted.
  all: split; [done|].
  all: split; [first [apply grown_by_refl | apply grown_by_insert; [done|]]|].
  all: try (intros status success message body [=]; subst).
  all: try (split; [done|]; split; [done|]; eexists;
            unfold db_lookup; cbn [db with_businesses businesses doc_id b_id];
            rewrite lookup_insert_eq;
            split; [reflexivity|]; split; [done | apply lookup_insert_eq]).
  all: unfold created_business;
    cbn [b_id b_owner b_category b_image b_imagePublicId].
  all: use_tests.
  all: match goal with
       | H : JS.truthy ?c && negb (is_Business_category (str ?c)) = false |- _ =>
           apply andb_false_iff in H as [H|H]; [congruence|];
           apply negb_false_iff, bool_decide_eq_true in H
       end.
  all: split; [done|]. all: split; [done|]. all: split; [done|].
  all: split; [media_from_log|].
  all: try done.
  all: unfold secure_url_of, public_id_of in *; cbn [mbind option_bind] in *; congruence.
Qed.

Lemma media_type_tests :
  bool_decide (Some (lit "image") = Some (lit "image")) = true /\
  bool_decide (Some (lit "image") = Some (lit "video")) = false /\
  bool_decide (Some (lit "video") = Some (lit "image")) = false /\
  bool_decide (Some (lit "video") = Some (lit "video")) = true /\
  bool_decide (@None jsstring = Some (lit "image")) = false /\
  bool_decide (@None jsstring = Some (lit "video")) = false.
Proof. by vm_compute. Qed.

(** X12: what [createPost] leaves in the store, whatever the request and
    the environment.  Nothing changes outside the posts and no post is
    lost or changed; a post that was not there has the caller as its
    user and at most one of image and video, and it has either no media,
    with no upload made, or the URL of an upload of this request whose
    answer had a URL and a handle.  The handle is not stored: the post
    keeps the URL only.  A video sent together with an image is ignored:
    the request runs as if the image had come alone. *)
Theorem createPost_stores_url_only (env : Env) (d : Db) (user : ReqUser)
    (content : option jsstring) (imageFile videoFile : option File) :
  post (createPost user content imageFile videoFile) env (fresh d) (fun r w =>
    same_but_posts d (db w) /\
    grown_by (created_post user (trace w)) (posts d) (posts (db w)) /\
    forall status success message body,
      r = Resolved (Json status success message body) ->
      status = 201 /\ success = true /\
      exists stored,
        body = Payload (Some (DPost stored)) /\
        posts d !! p_id stored = None /\
        posts (db w) !! p_id stored = Some stored) /\
  (is_Some imageFile ->
   createPost user content imageFile videoFile = createPost user content imageFile None).
Proof.
  split; [|intros [f ->]; unfold createPost; by destruct (JS.truthy content)].
  unfold fresh. wp.
  all: infeasible.
  all: insert_accepted.
  all: split; [done|].
  all: split; [first [apply grown_by_refl | apply grown_by_insert; [done|]]|].
  all: try (intros status success message body [=]; subst).
  all: try (split; [done|]; split; [done|]; eexists;
            unfold db_lookup; cbn [db with_posts posts doc_id p_id];
            rewrite lookup_insert_eq;
            split; [reflexivity|]; split; [done | apply lookup_insert_eq]).
  all: unfold created_post;
    cbn [p_id p_user p_image p_video p_mediaPublicId fst snd].
  all: repeat match goal with
       | H : context [bool_decide (is_Some (Some ?f))] |- _ =>
           change (bool_decide (is_Some (Some f))) with true in H
       | H : context [bool_decide (is_Some (@None ?A))] |- _ =>
           change (bool_decide (is_Some (@None A))) with false in H
       end.
  all: cbn [orb andb fst snd] in *.
  all: use_tests.
  all: split; [done|]. all: split; [done|].
  all: destruct media_type_tests as (Hii & Hiv & Hvi & Hvv & Hni & Hnv);
    rewrite ?Hii, ?Hiv, ?Hvi, ?Hvv, ?Hni, ?Hnv; clear Hii Hiv Hvi Hvv Hni Hnv.
  all: unfold secure_url_of, public_id_of, JS.or_else in *;
    cbn [mbind option_bind secure_url public_id] in *.
  all: repeat match goal with
       | H : JS.truthy ?v = true |- context [JS.truthy ?v] => rewrite H
       end.
  all: cbn [JS.truthy].
  all: repeat match goal with
       | H : JS.truthy ?v = true |- context [JS.truthy ?v] => rewrite H
       end.
  all: split; [eexists; split; [media_from_log | first [done | congruence]]|].
  all: split; [first [by left | by right]|].
  all: done.
Qed.

Lemma category_default (category : option jsstring) :
  str (JS.or_else category (Some (lit "Community Gathering"))) ≠ [].
Proof. unfold JS.or_else. by destruct category as [[|]|]. Qed.

(** X13: what [createEvent] leaves in the store, whatever the request
    and the environment.  Nothing changes outside the events and no event
    is lost or changed; an event that was not there has the caller as its
    organizer and as its only attendee, a date that is not before the
    time at which the request was checked, a category, and either no
    image and no handle, with no upload made, or the URL of an upload of
    this request with the handle of the same answer. *)
Theorem createEvent_stores_organizer (env : Env) (d : Db) (user : ReqUser)
    (title description category eventDate location : option jsstring)
    (file : option File) :
  post (createEvent user title description category eventDate location file)
    env (fresh d) (fun r w =>
    same_but_events d (db w) /\
    grown_by (created_event user (Date_now env []) (trace w))
      (events d) (events (db w)) /\
    forall status success message body,
      r = Resolved (Json status success message body) ->
      status = 201 /\ success = true /\
      exists event,
        body = Payload (Some (DEvent event)) /\
        events d !! ev_id event = None /\
        events (db w) !! ev_id event = Some event).
Proof.
  unfold fresh. wp.
  all: infeasible.
  all: insert_accepted.
  all: split; [done|].
  all: split; [first [apply grown_by_refl | apply grown_by_insert; [done|]]|].
  all: try (intros status success message body [=]; subst).
  all: try (split; [done|]; split; [done|]; eexists;
            unfold db_lookup; cbn [db with_events events doc_id ev_id];
            rewrite lookup_insert_eq;
            split; [reflexivity|]; split; [done | apply lookup_insert_eq]).
  all: unfold created_event;
    cbn [ev_id ev_organizer ev_attendees ev_eventDate ev_category ev_image
         ev_imagePublicId].
  all: use_tests.
  all: split; [done|]. all: split; [done|]. all: split; [done|].
  all: split; [eexists; split; [reflexivity|];
               by match goal with H : (_ <? _) = false |- _ => apply Z.ltb_ge in H end|].
  all: split; [apply category_default|].
  all: media_from_log.
Qed.

(** ** Updating a document *)

Lemma proj_when {R A} (p : R -> A) (c : bool) (f : R -> R) (x : R) :
  (forall y, p (f y) = p y) -> p (when c f x) = p x.
Proof. intros H. unfold when. destruct c; auto. Qed.

Lemma when_keeps {R} (P : R -> Prop) (c : bool) (f : R -> R) (x : R) :
  (forall y, P y -> P (f y)) -> P x -> P (when c f x).
Proof. intros H. unfold when. destruct c; auto. Qed.

Lemma category_when (c : bool) (v : jsstring) (x : Business) :
  b_category x ∈ Business_categories ->
  b_category (when (c && is_Business_category v) (set_b_category v) x)
    ∈ Business_categories.
Proof.
  intros Hx. unfold when. destruct c; [|done]. cbn [andb].
  unfold is_Business_category. case_bool_decide; done.
Qed.

(** A field that the assignments of an update leave alone. *)
Ltac through p :=
  repeat (rewrite (proj_when p)
            by (intros; first [reflexivity
                              | rewrite (proj_when p) by (intros; reflexivity);
                                reflexivity])).

(** X14: what [updateEvent] and [updateBusiness] may change, for a
    document stored under its own id, whatever the request and the
    environment.  Nothing changes outside the collection; the collection
    is as it was or differs in that one document, which keeps its id, its
    organizer or owner and, for an event, its attendees; a business
    category of the list stays in the list.  Without a file the image and
    its handle stay as they were and the remote store is not called. *)
Theorem update_keeps_identity (env : Env) (d : Db) (user : ReqUser)
    (id : jsstring) (k : ObjectId) (file : option File) :
  castObjectId env id = Some k ->
  (forall event,
     events d !! k = Some event -> ev_id event = k ->
     forall title description category eventDate location,
       post (updateEvent user id title description category eventDate location file)
         env (fresh d) (fun r w =>
         same_but_events d (db w) /\
         changed_at k event (updated_event file) (events d) (events (db w)) /\
         (file = None -> no_remote (trace w)))) /\
  (forall business,
     businesses d !! k = Some business -> b_id business = k ->
     forall name description category address phone website email,
       post (updateBusiness user id name description category address phone website
               email file) env (fresh d) (fun r w =>
         same_but_businesses d (db w) /\
         changed_at k business (updated_business file) (businesses d)
           (businesses (db w)) /\
         (file = None -> no_remote (trace w)))).
Proof.
  intros Hcast. split.
  - intros event Hfound Hid **. apply db_lookup_event in Hfound.
    unfold fresh. wp.
    all: same_document.
    all: split; [done|].
    all: split; [|intros; try discriminate; by repeat constructor].
    all: first [ by left | right ].
    all: cbn [db events with_events db_put];
      match goal with |- exists x, <[_ := ?e]> _ = _ /\ _ => exists e end.
    all: unfold updated_event;
      cbn [set_ev_image set_ev_imagePublicId ev_id ev_organizer ev_attendees
           ev_image ev_imagePublicId];
      through ev_id; through ev_organizer; through ev_attendees;
      through ev_image; through ev_imagePublicId.
    all: repeat split; try done; intros; discriminate.
  - intros business Hfound Hid **. apply db_lookup_business in Hfound.
    unfold fresh. wp.
    all: same_document.
    all: split; [done|].
    all: split; [|intros; try discriminate; by repeat constructor].
    all: first [ by left | right ].
    all: cbn [db businesses with_businesses db_put];
      match goal with |- exists x, <[_ := ?e]> _ = _ /\ _ => exists e end.
    all: unfold updated_business;
      cbn [set_b_image set_b_imagePublicId b_id b_owner b_category b_image
           b_imagePublicId];
      through b_id; through b_owner; through b_image; through b_imagePublicId.
    all: split; [done|]. all: split; [done|]. all: split; [done|].
    all: split; [|try done; intros; discriminate].
    all: intros Hcat;
      repeat first
        [ assumption
        | apply category_when
        | apply (when_keeps (fun y => b_category y ∈ Business_categories));
          [intros ? Hkept; exact Hkept|] ].
Qed.

(** The remote calls of a replace request, read off its log. *)
Ltac replaced :=
  unfold replaced_once; cbn [uploads destroys List.filter is_upload is_destroy];
  split; [by eexists|];
  repeat match goal with
  | H : JS.truthy ?v = _ |- context [JS.truthy ?v] => rewrite H
  end;
  first [ by eexists | by exists (Rejected (new_Error [])) ].

(** X15: a replace request that succeeds.  When [updateEvent] or
    [updateBusiness] answers a request that came with a file with a JSON
    response, the response is 200 with the document now stored, whose
    image is the URL and whose handle is the handle of the one upload of
    the request; and the remote store was asked to delete exactly the
    handle stored before, once, if there was one, and nothing otherwise. *)
Theorem replace_stores_uploaded_reference (env : Env) (d : Db) (user : ReqUser)
    (id : jsstring) (k : ObjectId) (file : File) :
  castObjectId env id = Some k ->
  (forall event,
     events d !! k = Some event -> ev_id event = k ->
     forall title description category eventDate location,
       post (updateEvent user id title description category eventDate location
               (Some file)) env (fresh d) (fun r w =>
         forall status success message body,
           r = Resolved (Json status success message body) ->
           status = 200 /\
           exists updated res,
             body = Payload (Some (DEvent updated)) /\
             events (db w) !! k = Some updated /\
             JS.truthy (ev_image updated) = true /\
             ev_image updated = secure_url res /\
             ev_imagePublicId updated = public_id res /\
             replaced_once (lit "patwa_toli/events") (ev_imagePublicId event) res
               (trace w))) /\
  (forall business,
     businesses d !! k = Some business -> b_id business = k ->
     forall name description category address phone website email,
       post (updateBusiness user id name description category address phone website
               email (Some file)) env (fresh d) (fun r w =>
         forall status success message body,
           r = Resolved (Json status success message body) ->
           status = 200 /\
           exists updated res,
             body = Payload (Some (DBusiness updated)) /\
             businesses (db w) !! k = Some updated /\
             JS.truthy (b_image updated) = true /\
             b_image updated = secure_url res /\
             b_imagePublicId updated = public_id res /\
             replaced_once (lit "patwa_toli/businesses") (b_imagePublicId business)
               res (trace w))).
Proof.
  intros Hcast. split.
  - intros event Hfound Hid **. apply db_lookup_event in Hfound.
    unfold fresh. wp.
    all: intros status success message body; intros [=]; subst.
    all: infeasible.
    all: same_document; use_tests; try congruence.
    all: split; [done|].
    all: unfold db_lookup;
      cbn [db events with_events db_put doc_id set_ev_image set_ev_imagePublicId ev_id];
      through ev_id; rewrite !lookup_insert_eq.
    all: do 2 eexists; split; [reflexivity|]; split; [reflexivity|].
    all: cbn [ev_image ev_imagePublicId].
    all: split; [done|]. all: split; [reflexivity|]. all: split; [reflexivity|].
    all: replaced.
  - intros business Hfound Hid **. apply db_lookup_business in Hfound.
    unfold fresh. wp.
    all: intros status success message body; intros [=]; subst.
    all: infeasible.
    all: same_document; use_tests; try congruence.
    all: split; [done|].
    all: unfold db_lookup;
      cbn [db businesses with_businesses db_put doc_id set_b_image
           set_b_imagePublicId b_id];
      through b_id; rewrite !lookup_insert_eq.
    all: do 2 eexists; split; [reflexivity|]; split; [reflexivity|].
    all: cbn [b_image b_imagePublicId].
    all: split; [done|]. all: split; [reflexivity|]. all: split; [reflexivity|].
    all: replaced.
Qed.

Lemma createStory_stores_handle_witness :
  exists story,
    stories (db (snd (run (createStory alice (Some (lit "hello"))
                             (Some (jpeg (lit "storyMedia")))) store_ok empty_db)))
      !! s_id story = Some story /\
    created_story store_ok alice
      (trace (snd (run (createStory alice (Some (lit "hello"))
                          (Some (jpeg (lit "storyMedia")))) store_ok empty_db)))
      (s_id story) story.
Proof.
  destruct (createStory_stores_handle store_ok empty_db alice (Some (lit "hello"))
              (Some (jpeg (lit "storyMedia"))))
    as (_ & [_ Hnew] & Hjson).
  destruct (Hjson 201 true (lit "Story created.") _ ltac:(vm_compute; reflexivity))
    as (_ & _ & story & _ & Hfree & Hstored).
  exists story. split; [exact Hstored|].
  destruct (Hnew _ _ Hstored) as [Hold|Hcreated]; [|exact Hcreated].
  rewrite Hfree in Hold. discriminate Hold.
Defined.

Lemma createBusiness_stores_handle_witness :
  exists business,
    businesses (db (snd (run (createBusiness alice (Some (lit "Loom"))
                                (Some (lit "Sarees")) (Some (lit "Retail"))
                                (Some (lit "Manpur")) None None None
                                (Some (jpeg (lit "businessImage"))))
                           store_ok empty_db)))
      !! b_id business = Some business /\
    created_business alice
      (trace (snd (run (createBusiness alice (Some (lit "Loom"))
                          (Some (lit "Sarees")) (Some (lit "Retail"))
                          (Some (lit "Manpur")) None None None
                          (Some (jpeg (lit "businessImage"))))
                     store_ok empty_db)))
      (b_id business) business.
Proof.
  destruct (createBusiness_stores_handle store_ok empty_db alice (Some (lit "Loom"))
              (Some (lit "Sarees")) (Some (lit "Retail")) (Some (lit "Manpur"))
              None None None (Some (jpeg (lit "businessImage"))))
    as (_ & [_ Hnew] & Hjson).
  destruct (Hjson 201 true (lit "Business listing created successfully.") _
              ltac:(vm_compute; reflexivity))
    as (_ & _ & business & _ & Hfree & Hstored).
  exists business. split; [exact Hstored|].
  destruct (Hnew _ _ Hstored) as [Hold|Hcreated]; [|exact Hcreated].
  rewrite Hfree in Hold. discriminate Hold.
Defined.

Lemma createPost_stores_url_only_witness :
  createPost alice (Some (lit "hello")) (Some (jpeg (lit "image")))
    (Some (memoryFile (mp4_part (lit "video"))))
  = createPost alice (Some (lit "hello")) (Some (jpeg (lit "image"))) None /\
  exists stored,
    posts (db (snd (run (createPost alice (Some (lit "hello"))
                           (Some (jpeg (lit "image")))
                           (Some (memoryFile (mp4_part (lit "video")))))
                      store_ok empty_db)))
      !! p_id stored = Some stored /\
    p_image stored = secure_url new_image /\
    p_video stored = None.
Proof.
  destruct (createPost_stores_url_only store_ok empty_db alice (Some (lit "hello"))
              (Some (jpeg (lit "image"))) (Some (memoryFile (mp4_part (lit "video")))))
    as ((_ & [_ Hnew] & Hjson) & Hsame).
  split; [apply Hsame; by eexists|].
  destruct (Hjson 201 true (lit "Post created successfully.") _
              ltac:(vm_compute; reflexivity))
    as (_ & _ & stored & Hbody & Hfree & Hstored).
  exists stored. split; [exact Hstored|].
  vm_compute in Hbody. by injection Hbody as <-.
Defined.

Lemma createEvent_stores_organizer_witness :
  exists event,
    events (db (snd (run (createEvent alice (Some (lit "Mela")) (Some (lit "Fair"))
                            None (Some (lit "2030-01-01")) (Some (lit "Gaya")) None)
                       store_ok empty_db)))
      !! ev_id event = Some event /\
    created_event alice 0
      (trace (snd (run (createEvent alice (Some (lit "Mela")) (Some (lit "Fair"))
                          None (Some (lit "2030-01-01")) (Some (lit "Gaya")) None)
                     store_ok empty_db)))
      (ev_id event) event.
Proof.
  destruct (createEvent_stores_organizer store_ok empty_db alice (Some (lit "Mela"))
              (Some (lit "Fair")) None (Some (lit "2030-01-01")) (Some (lit "Gaya"))
              None)
    as (_ & [_ Hnew] & Hjson).
  destruct (Hjson 201 true (lit "Event created.") _ ltac:(vm_compute; reflexivity))
    as (_ & _ & event & _ & Hfree & Hstored).
  exists event. split; [exact Hstored|].
  destruct (Hnew _ _ Hstored) as [Hold|Hcreated]; [|exact Hcreated].
  rewrite Hfree in Hold. discriminate Hold.
Defined.

Lemma update_keeps_identity_witness :
  post (updateEvent alice (lit "e1") (Some (lit "Mela 2")) None None None None None)
    store_ok (fresh sample_db) (fun r w =>
      same_but_events sample_db (db w) /\
      changed_at 2%N old_event (updated_event None) (events sample_db)
        (events (db w)) /\
      (@None File = None -> no_remote (trace w))).
Proof.
  apply (proj1 (update_keeps_identity store_ok sample_db alice (lit "e1") 2%N None
                  eq_refl) old_event eq_refl eq_refl).
Defined.

Lemma replace_stores_uploaded_reference_witness :
  exists updated res,
    businesses
      (db (snd (run (updateBusiness alice (lit "b1") None None None None None None
                       None (Some (jpeg (lit "businessImage"))))
                  store_ok sample_db)))
      !! 2%N = Some updated /\
    b_image updated = secure_url res /\
    b_imagePublicId updated = public_id res /\
    replaced_once (lit "patwa_toli/businesses") (b_imagePublicId a_business) res
      (trace (snd (run (updateBusiness alice (lit "b1") None None None None None
                          None None (Some (jpeg (lit "businessImage"))))
                     store_ok sample_db))).
Proof.
  pose proof (proj2 (replace_stores_uploaded_reference store_ok sample_db alice
                       (lit "b1") 2%N (jpeg (lit "businessImage")) eq_refl)
                a_business eq_refl eq_refl None None None None None None None)
    as Hpost.
  destruct (Hpost 200 true (lit "Business listing updated.") _
              ltac:(vm_compute; reflexivity))
    as (_ & updated & res & _ & Hstored & _ & Himage & Hhandle & Hcalls).
  by exists updated, res.
Defined.

(** ** Updating the own profile *)

Lemma post_mono {A} (m : M A) env w (Q Q' : Outcome A -> World -> Prop) :
  post m env w Q -> (forall r w', Q r w' -> Q' r w') -> post m env w Q'.
Proof. unfold post. auto. Qed.

Lemma proj_assign {R A B} (p : R -> B) (set : A -> R -> R) (value : R -> A) (x : R) :
  (forall v y, p (set v y) = p y) -> p (assign set value x) = p x.
Proof. intros H. unfold assign. apply H. Qed.

Ltac through_assign p :=
  repeat (rewrite (proj_assign p) by (intros; reflexivity)).

(** Run [updateMyProfile] up to its last part. *)
Ltac wp_to_picture :=
  repeat lazymatch goal with
         | |- post (updateMyProfile_picture_and_save _ _ _ _) _ _ _ => fail
         | |- _ => wp_step
         end.

(** The last part of [updateMyProfile], from any world: what it may
    change of the user it is given. *)
Lemma picture_and_save_keeps env w (user0 : User) oldUrl oldPid file :
  post (updateMyProfile_picture_and_save user0 oldUrl oldPid file) env w (fun r w' =>
    same_but_users (db w) (db w') /\
    changed_at (u_id user0) user0 (updated_user file) (users (db w)) (users (db w')) /\
    (file = None -> exists calls, trace w' = trace w ++ calls /\ no_remote calls)).
Proof.
  wp.
  all: split; [done|].
  all: split;
    [|intros; try discriminate; rewrite <- ?app_assoc; eexists;
      (split; [reflexivity|]); by repeat constructor].
  all: first [ by left | right ].
  all: cbn [db users with_users db_put set_u_profilePic u_id];
    match goal with |- exists x, <[_ := ?e]> _ = _ /\ _ => exists e end.
  all: split; [reflexivity|].
  all: unfold updated_user; repeat split; try done; intros; discriminate.
Qed.

(** X16: what [updateMyProfile] may change, for a user stored under the
    id of the caller, whatever the request and the environment.  Nothing
    changes outside the users; the users are as they were or differ in
    the caller's own record, which keeps its id, its user name and its
    flags [verified] and [isAdmin]; without a file the picture stays as
    it was and the remote store is not called. *)
Theorem updateMyProfile_keeps_privileges (env : Env) (d : Db) (user : ReqUser)
    (u : User) (fullname fathername dob address phone email bio : option jsstring)
    (file : option File) :
  users d !! user_id user = Some u ->
  u_id u = user_id user ->
  post (updateMyProfile user fullname fathername dob address phone email bio file)
    env (fresh d) (fun r w =>
    same_but_users d (db w) /\
    changed_at (user_id user) u (updated_user file) (users d) (users (db w)) /\
    (file = None -> no_remote (trace w))).
Proof.
  intros Hfound Hid. apply db_lookup_user in Hfound.
  unfold fresh. wp_to_picture.
  all: same_document.
  all: try (split; [done|]; split; [by left|]; intros; by repeat constructor).
  all: eapply post_mono; [apply picture_and_save_keeps|].
  all: cbn [db trace]; intros r w' (Hsame & Hchanged & Hcalls).
  all: destruct r; [|apply post_ret].
  all: split; [done|].
  all: split;
    [|intros Hfile; destruct (Hcalls Hfile) as (calls & -> & Hno);
      apply Forall_app; split; [by repeat constructor | done]].
  all: revert Hchanged; unfold changed_at, updated_user;
    cbn [set_u_email u_id u_username u_verified u_isAdmin u_profilePic];
    through_assign u_id; through_assign u_username; through_assign u_verified;
    through_assign u_isAdmin; through_assign u_profilePic; rewrite Hid.
  all: done.
Qed.

Lemma updateMyProfile_keeps_privileges_witness :
  post (updateMyProfile alice (Some (lit "Alice A.")) None None None None None
          (Some (lit "weaver")) None) store_ok (fresh sample_db) (fun r w =>
    same_but_users sample_db (db w) /\
    changed_at (user_id alice) a_user (updated_user None) (users sample_db)
      (users (db w)) /\
    (@None File = None -> no_remote (trace w))).
Proof.
  apply (updateMyProfile_keeps_privileges store_ok sample_db alice a_user);
    reflexivity.
Defined.

Lemma email_taken (d : Db) (userId k : ObjectId) (other : User) (email : jsstring) :
  k ≠ userId -> users d !! k = Some other -> u_email other = email ->
  existsb (fun '(k, u) => negb (k =? userId)%N && bool_decide (u_email u = email))
    (map_to_list (users d)) = true.
Proof.
  intros Hk Hother Hemail. apply existsb_exists. exists (k, other). split.
  - apply list_elem_of_In. by apply elem_of_map_to_list.
  - apply andb_true_iff. split.
    + apply negb_true_iff. by apply N.eqb_neq.
    + by apply bool_decide_eq_true.
Qed.

(** X17: a profile update that asks for an email address which another
    user has.  The request ends in [next(err)] and changes nothing: the
    check on the address comes before the upload, so that no file is sent
    to the remote store; the error is 400 [Email already in use.] unless
    a lookup failed in the store. *)
Theorem updateMyProfile_email_in_use (env : Env) (d : Db) (user : ReqUser)
    (u other : User) (k : ObjectId)
    (fullname fathername dob address phone email bio : option jsstring)
    (file : option File) :
  users d !! user_id user = Some u ->
  JS.truthy email = true ->
  toLowerCase env (str email) ≠ [] ->
  toLowerCase env (str email) ≠ u_email u ->
  k ≠ user_id user ->
  users d !! k = Some other ->
  u_email other = toLowerCase env (str email) ->
  post (updateMyProfile user fullname fathername dob address phone email bio file)
    env (fresh d) (fun r w =>
    untouched d w /\
    (exists e, r = Resolved (Next e)) /\
    ((forall t op, db_fault env t op = None) ->
     r = Resolved (Next (new_Error_status (lit "Email already in use.") 400)))).
Proof.
  intros Hfound Hemail Hlower Hnew Hk Hother Htaken.
  apply db_lookup_user in Hfound.
  pose proof (email_taken d (user_id user) k other _ Hk Hother Htaken) as Hexists.
  assert (JS.truthy (if JS.truthy email then Some (toLowerCase env (str email)) else None)
          && negb (bool_decide
                     (str (if JS.truthy email
                           then Some (toLowerCase env (str email)) else None)
                      = u_email u)) = true) as Hcheck.
  { rewrite Hemail. cbn [str default]. rewrite bool_decide_eq_false_2 by done.
    by destruct (toLowerCase env (str email)). }
  unfold fresh. wp_to_picture.
  all: same_document.
  all: try (exfalso;
            match goal with
            | H : _ && negb (bool_decide (_ = u_email _)) = false |- _ => revert H
            end;
            through_assign u_email; by rewrite Hcheck).
  all: try (exfalso;
            match goal with
            | H : existsb _ _ = false |- _ => revert H
            end;
            rewrite Hemail; cbn [str default from_option id];
            cbn [str default from_option id] in Hexists;
            by rewrite Hexists).
  all: refused.
  all: intros Hnofault;
    match goal with
    | H : db_fault _ _ _ = Some _ |- _ => rewrite Hnofault in H; discriminate H
    end.
Qed.

Lemma updateMyProfile_email_in_use_witness :
  post (updateMyProfile bob None None None None None (Some (lit "alice@example.com"))
          None (Some (jpeg (lit "profilePic"))))
    store_ok
    (fresh (with_users <[9%N := set_u_email (lit "bob@example.com") a_user]> sample_db))
    (fun r w =>
       untouched
         (with_users <[9%N := set_u_email (lit "bob@example.com") a_user]> sample_db) w /\
       (exists e, r = Resolved (Next e)) /\
       ((forall t op, db_fault store_ok t op = None) ->
        r = Resolved (Next (new_Error_status (lit "Email already in use.") 400)))).
Proof.
  apply (updateMyProfile_email_in_use store_ok
           (with_users <[9%N := set_u_email (lit "bob@example.com") a_user]> sample_db)
           bob (set_u_email (lit "bob@example.com") a_user) a_user 7%N).
  all: try reflexivity.
  all: by vm_compute.
Defined.

(** The last part of [updateMyProfile] with a file, from any world, when
    it ends with a JSON response. *)
Lemma picture_and_save_replaces env w (user0 : User) oldUrl oldPid (file : File) :
  post (updateMyProfile_picture_and_save user0 oldUrl oldPid (Some file)) env w
    (fun r w' =>
       forall status success message body,
         r = Resolved (Json status success message body) ->
         status = 200 /\
         exists profile postCount res calls,
           body = Profile profile postCount /\
           users (db w') !! u_id user0 = Some profile /\
           profile = set_u_profilePic (secure_url res) user0 /\
           JS.truthy (secure_url res) = true /\
           JS.truthy (public_id res) = true /\
           trace w' = trace w ++ calls /\
           (exists content,
              uploads calls
              = [CUpload content (lit "patwa_toli/profile-pics") (Resolved res)]) /\
           (exists answer,
              destroys calls
              = if JS.truthy oldPid
                   && negb (bool_decide (oldUrl = Some DEFAULT_AVATAR_PATH))
                then [CDestroy (str oldPid) (lit "auto") answer] else [])).
Proof.
  wp.
  all: intros status success message body; intros [=]; subst.
  all: infeasible.
  all: try congruence.
  all: match goal with
       | H : negb _ || negb _ = false |- _ =>
           apply orb_false_iff in H as [?%negb_false_iff ?%negb_false_iff]
       end.
  all: split; [done|].
  all: match goal with
       | H : db_lookup _ _ _ = Some (DUser _) |- _ =>
           unfold db_lookup in H;
           cbn [db users with_users db_put doc_id set_u_profilePic u_id] in H;
           rewrite lookup_insert_eq in H; injection H as <-
       end.
  all: do 3 eexists; rewrite <- ?app_assoc; eexists.
  all: split; [reflexivity|].
  all: split; [cbn [db users with_users db_put doc_id set_u_profilePic u_id];
               apply lookup_insert_eq|].
  all: split; [reflexivity|].
  all: split; [done|]. all: split; [done|].
  all: split; [reflexivity|].
  all: cbn [app uploads destroys List.filter is_upload is_destroy].
  all: split; [by eexists|].
  all: first [ by eexists
             | by exists (Rejected (new_Error []))
             | exfalso; use_tests; congruence ].
Qed.

(** X18: a profile update with a picture that succeeds.  When
    [updateMyProfile] answers a request that came with a file with a JSON
    response, the response is 200 with the profile now stored, whose
    picture is the URL of the one upload of the request, an upload that
    returned a URL and a handle; the handle itself is not stored.  The
    remote store was asked to delete exactly the handle that
    [getPublicIdFromUrl] derives from the URL stored before, once, if it
    derives one and that URL is not the default picture, and nothing
    otherwise. *)
Theorem updateMyProfile_replaces_picture (env : Env) (d : Db) (user : ReqUser)
    (u : User) (fullname fathername dob address phone email bio : option jsstring)
    (file : File) :
  users d !! user_id user = Some u ->
  u_id u = user_id user ->
  post (updateMyProfile user fullname fathername dob address phone email bio
          (Some file)) env (fresh d) (fun r w =>
    forall status success message body,
      r = Resolved (Json status success message body) ->
      status = 200 /\
      exists profile postCount res,
        body = Profile profile postCount /\
        users (db w) !! user_id user = Some profile /\
        u_profilePic profile = secure_url res /\
        JS.truthy (secure_url res) = true /\
        JS.truthy (public_id res) = true /\
        (exists content,
           uploads (trace w)
           = [CUpload content (lit "patwa_toli/profile-pics") (Resolved res)]) /\
        (exists answer,
           destroys (trace w)
           = if JS.truthy (getPublicIdFromUrl (u_profilePic u))
                && negb (bool_decide (u_profilePic u = Some DEFAULT_AVATAR_PATH))
             then [CDestroy (str (getPublicIdFromUrl (u_profilePic u))) (lit "auto")
                     answer]
             else [])).
Proof.
  intros Hfound Hid. apply db_lookup_user in Hfound.
  unfold fresh. wp_to_picture.
  all: same_document.
  all: try (intros status success message body; intros [=]).
  all: eapply post_mono; [apply picture_and_save_replaces|].
  all: cbn [db trace]; intros r w' Hjson.
  all: destruct r; [|apply post_ret; intros ? ? ? ?; intros [=]].
  all: intros status success message body Hr.
  all: destruct (Hjson _ _ _ _ Hr)
         as (Hstatus & profile & postCount & res & calls & Hbody & Hstored & Hprofile
             & Hurl & Hhandle & Htrace & Huploads & Hdestroys).
  all: split; [done|].
  all: exists profile, postCount, res.
  all: revert Hstored; cbn [set_u_email u_id]; through_assign u_id; rewrite Hid;
    intros Hstored.
  all: split; [done|]. all: split; [done|].
  all: split; [by rewrite Hprofile|].
  all: split; [done|]. all: split; [done|].
  all: rewrite Htrace; cbn [app uploads destroys List.filter is_upload is_destroy].
  all: done.
Qed.

Lemma updateMyProfile_replaces_picture_witness :
  exists profile res,
    users
      (db (snd (run (updateMyProfile alice None None None None None None None
                       (Some (jpeg (lit "profilePic"))))
                  store_ok sample_db)))
      !! 7%N = Some profile /\
    u_profilePic profile = secure_url res /\
    destroys
      (trace (snd (run (updateMyProfile alice None None None None None None None
                          (Some (jpeg (lit "profilePic"))))
                     store_ok sample_db))) = [].
Proof.
  pose proof (updateMyProfile_replaces_picture store_ok sample_db alice a_user
                None None None None None None None (jpeg (lit "profilePic"))
                eq_refl eq_refl) as Hpost.
  destruct (Hpost 200 true (lit "Profile updated successfully") _
              ltac:(vm_compute; reflexivity))
    as (_ & profile & postCount & res & _ & Hstored & Hpicture & _ & _ & _
        & answer & Hdestroys).
  exists profile, res. split; [exact Hstored|]. split; [exact Hpicture|].
  exact Hdestroys.
Defined.

(** ** Rejecting a registration *)

(** X19: [rejectUser] refuses without changing anything when the id
    cannot be cast (404 [User not found (Invalid ID format).]), when
    there is no such user (404) and when the user is already verified
    (400): the record stays, and no picture is unlinked. *)
Theorem rejectUser_refuses (env : Env) (d : Db) (id : jsstring) :
  (castObjectId env id = None ->
   run (rejectUser id) env d
   = (Resolved (Next (new_Error_status (lit "User not found (Invalid ID format).") 404)),
      fresh d)) /\
  (forall k,
     castObjectId env id = Some k ->
     (users d !! k = None ->
      post (rejectUser id) env (fresh d)
        (refused_with (new_Error_status (lit "User not found.") 404)
           (FindById MUser k) env d)) /\
     (forall u,
        users d !! k = Some u -> u_verified u = true ->
        post (rejectUser id) env (fresh d)
          (refused_with
             (new_Error_status
                (lit "Cannot reject an already verified user. Use a delete function if needed.")
                400)
             (FindById MUser k) env d))).
Proof.
  split.
  - intros Hcast. unfold run, rejectUser, try_catch, findById_param, bind, cast, ask.
    cbn. by rewrite Hcast.
  - intros k Hcast. split.
    + intros Hnone%db_lookup_none_user. unfold fresh. wp_on_path. all: refused.
    + intros u Hfound%db_lookup_user Hverified. unfold fresh. wp_on_path.
      all: refused.
Qed.

Lemma rejectUser_refuses_witness :
  post (rejectUser (lit "nobody")) store_ok (fresh sample_db)
    (refused_with (new_Error_status (lit "User not found.") 404) (FindById MUser 6)
       store_ok sample_db).
Proof.
  apply (proj1 (proj2 (rejectUser_refuses store_ok sample_db (lit "nobody")) 6%N
                  eq_refl)).
  reflexivity.
Defined.

Lemma run_eq {A} (m : M A) env d (r : Outcome A) (w : World) :
  post m env (fresh d) (fun r' w' => r' = r /\ w' = w) -> run m env d = (r, w).
Proof.
  unfold post, run. destruct (m env (fresh d)) as [r' w']. cbn. by intros [-> ->].
Qed.

(** X20: [rejectUser] on a user who is not verified, when the store does
    not fail.  The answer is 200 and names the user; the record is gone
    from the store; a picture other than the default one is unlinked as a
    local file, before the record is deleted, and nothing is asked of the
    remote store. *)
Theorem rejectUser_deletes (env : Env) (d : Db) (id : jsstring) (k : ObjectId)
    (u : User) :
  castObjectId env id = Some k ->
  users d !! k = Some u ->
  u_verified u = false ->
  (forall t op, db_fault env t op = None) ->
  run (rejectUser id) env d
  = (Resolved (Json 200 true
                 (lit "User registration for " ++ u_username u
                  ++ lit " rejected and record deleted.") NoPayload),
     {| db := with_users (delete k) d;
        trace :=
          CDb (FindById MUser k) None
          :: (if JS.truthy (u_profilePic u)
                 && negb (bool_decide (u_profilePic u = Some DEFAULT_AVATAR_PATH))
              then [CUnlink (str (u_profilePic u))] else [])
          ++ [CDb (DeleteById MUser k) None] |}).
Proof.
  intros Hcast Hfound%db_lookup_user Hverified Hfault.
  apply run_eq. unfold fresh, DEFAULT_AVATAR_PATH.
  wp; try excluded Hfault; same_document; try congruence.
  all: by match goal with H : _ && _ = _ |- _ => rewrite H end.
Qed.

Lemma rejectUser_deletes_witness :
  run (rejectUser (lit "u-alice")) store_ok sample_db
  = (Resolved (Json 200 true
                 (lit "User registration for alice rejected and record deleted.")
                 NoPayload),
     {| db := with_users (delete 7%N) sample_db;
        trace := [CDb (FindById MUser 7) None; CDb (DeleteById MUser 7) None] |}).
Proof.
  apply (rejectUser_deletes store_ok sample_db (lit "u-alice") 7%N a_user
           eq_refl eq_refl eq_refl (fun _ _ => eq_refl)).
Defined.

(** ** A story from creation to deletion *)

Lemma Db_stories_delete_insert (d : Db) k s :
  stories d !! k = None -> with_stories (delete k) (with_stories <[k := s]> d) = d.
Proof.
  intros H. destruct d. unfold with_stories. cbn in *. by rewrite delete_insert_id.
Qed.

(** What a successful [createStory] has done. *)
Lemma createStory_created env d user caption file :
  post (createStory user caption file) env (fresh d) (fun r w =>
    forall status success message story,
      r = Resolved (Json status success message (Payload (Some (DStory story)))) ->
      db w = with_stories <[s_id story := story]> d /\
      stories d !! s_id story = None /\
      s_user story = user_id user /\
      JS.truthy (s_publicId story) = true /\
      exists content res,
        CUpload content (lit "patwa_toli/stories") (Resolved res) ∈ trace w /\
        public_id res = s_publicId story).
Proof.
  unfold fresh. wp.
  all: intros status success message story; intros [=]; subst.
  all: infeasible.
  all: insert_accepted.
  all: match goal with
       | H : DStory <$> _ = Some (DStory _) |- _ =>
           rewrite lookup_insert_eq in H; injection H as <-
       end.
  all: cbn [s_id s_user s_publicId db]; use_tests.
  all: repeat split; try done.
  all: do 2 eexists; split; [rewrite !elem_of_cons; right; left; reflexivity|done].
Qed.

(** X21: a story from creation to deletion.  After [createStory] has
    answered 201 with a story, a [deleteStory] request of the same user
    for the id of that story, when the store does not fail, answers 200,
    asks the remote store to delete exactly the handle that the upload of
    the creation returned, whatever the remote store answers, and leaves
    the document store as it was before the creation. *)
Theorem story_created_then_deleted (env : Env) (d : Db) (user : ReqUser)
    (caption : option jsstring) (file : option File) (id : jsstring)
    (story : Story) (message : jsstring) (w1 : World) :
  run (createStory user caption file) env d
  = (Resolved (Json 201 true message (Payload (Some (DStory story)))), w1) ->
  ObjectId_isValid env id = true ->
  castObjectId env id = Some (s_id story) ->
  (forall t op, db_fault env t op = None) ->
  fst (deleteStory user id env w1)
  = Resolved (Json 200 true (lit "Story deleted.") NoPayload) /\
  db (snd (deleteStory user id env w1)) = d /\
  exists content res answer,
    CUpload content (lit "patwa_toli/stories") (Resolved res) ∈ trace w1 /\
    public_id res = s_publicId story /\
    trace (snd (deleteStory user id env w1))
    = trace w1 ++ [CDb (FindById MStory (s_id story)) None;
                   CDestroy (str (public_id res)) (lit "auto") answer;
                   CDb (DeleteById MStory (s_id story)) None].
Proof.
  intros Hrun Hvalid Hcast Hfault.
  pose proof (createStory_created env d user caption file) as Hcreated.
  unfold post in Hcreated. fold (run (createStory user caption file) env d) in Hcreated.
  rewrite Hrun in Hcreated. cbn [fst snd] in Hcreated.
  destruct (Hcreated _ _ _ _ eq_refl)
    as (Hdb & Hfree & Huser & Hhandle & content & res & Hupload & Hres).
  destruct w1 as [d1 t1]. cbn [db trace] in *. subst d1.
  assert (db_lookup (with_stories <[s_id story := story]> d) MStory (s_id story)
          = Some (DStory story)) as Hfound.
  { unfold db_lookup. cbn. by rewrite lookup_insert_eq. }
  assert (forall (Q : Outcome Reply -> World -> Prop),
            post (deleteStory user id) env
              {| db := with_stories <[s_id story := story]> d; trace := t1 |} Q ->
            Q (fst (deleteStory user id env
                      {| db := with_stories <[s_id story := story]> d; trace := t1 |}))
              (snd (deleteStory user id env
                      {| db := with_stories <[s_id story := story]> d; trace := t1 |})))
    as Hpost by done.
  apply (Hpost (fun r w =>
    r = Resolved (Json 200 true (lit "Story deleted.") NoPayload) /\
    db w = d /\
    exists content res answer,
      CUpload content (lit "patwa_toli/stories") (Resolved res) ∈ t1 /\
      public_id res = s_publicId story /\
      trace w = t1 ++ [CDb (FindById MStory (s_id story)) None;
                       CDestroy (str (public_id res)) (lit "auto") answer;
                       CDb (DeleteById MStory (s_id story)) None])).
  clear Hpost Hcreated Hrun.
  wp; try excluded Hfault; same_document.
  all: try (rewrite Huser, N.eqb_refl in *; discriminate).
  all: try congruence.
  all: split; [done|].
  all: split; [by apply Db_stories_delete_insert|].
  all: exists content, res; eexists; split; [done|]; split; [done|].
  all: rewrite <- !app_assoc, Hres; reflexivity.
Qed.

Lemma story_created_then_deleted_witness :
  exists story w1,
    run (createStory alice (Some (lit "hello")) (Some (jpeg (lit "storyMedia"))))
      store_ok empty_db
    = (Resolved (Json 201 true (lit "Story created.")
                   (Payload (Some (DStory story)))), w1) /\
    fst (deleteStory alice (replicate 102 (cu "a")) store_ok w1)
    = Resolved (Json 200 true (lit "Story deleted.") NoPayload) /\
    db (snd (deleteStory alice (replicate 102 (cu "a")) store_ok w1)) = empty_db.
Proof.
  eexists _, _. split; [vm_compute; reflexivity|].
  match goal with
  | |- context [deleteStory alice _ store_ok ?w] =>
      pose proof (story_created_then_deleted store_ok empty_db alice
                    (Some (lit "hello")) (Some (jpeg (lit "storyMedia")))
                    (replicate 102 (cu "a")) _ (lit "Story created.") w
                    ltac:(vm_compute; reflexivity) eq_refl
                    ltac:(vm_compute; reflexivity) (fun _ _ => eq_refl))
        as (Hreply & Hdb & _)
  end.
  split; [exact Hreply | exact Hdb].
Defined.

(** ** Attending an event *)

Lemma addToSet_elem x l : x ∈ addToSet x l.
Proof.
  unfold addToSet. case_bool_decide; [done|].
  apply elem_of_app. right. by left.
Qed.

Lemma addToSet_present x l : x ∈ l -> addToSet x l = l.
Proof. intros Hx. unfold addToSet. by rewrite bool_decide_eq_true_2. Qed.

Lemma addToSet_NoDup x l : NoDup l -> NoDup (addToSet x l).
Proof.
  intros Hl. unfold addToSet. case_bool_decide as Hx; [done|].
  apply NoDup_app. split; [done|]. split; [|apply NoDup_singleton].
  by intros y Hy ->%list_elem_of_singleton.
Qed.

Lemma pull_addToSet x l : x ∉ l -> pull x (addToSet x l) = l.
Proof.
  intros Hx. unfold addToSet, pull. rewrite bool_decide_eq_false_2 by done.
  rewrite filter_app, filter_cons_False, filter_nil, app_nil_r by (by intros ?).
  induction l as [|y l IH]; [done|].
  apply not_elem_of_cons in Hx as [Hy Hl].
  rewrite filter_cons_True by done. by rewrite IH.
Qed.

Lemma Db_events_insert_id (d : Db) k e :
  events d !! k = Some e -> with_events <[k := e]> d = d.
Proof. intros H. destruct d. unfold with_events. simpl in *. by rewrite insert_id. Qed.

Lemma with_events_insert_insert (d : Db) k e e' :
  with_events <[k := e']> (with_events <[k := e]> d) = with_events <[k := e']> d.
Proof. unfold with_events. simpl. by rewrite insert_insert_eq. Qed.

Lemma set_ev_attendees_id e : set_ev_attendees (ev_attendees e) e = e.
Proof. by destruct e. Qed.

(** The one call of an attendance handler, from any world. *)
Lemma Event_findByIdAndUpdate_found env w id k e update :
  castObjectId env id = Some k ->
  db_fault env (trace w) (FindById MEvent k) = None ->
  events (db w) !! k = Some e ->
  Event_findByIdAndUpdate id update env w
  = (Resolved (Some (update e)),
     {| db := with_events <[k := update e]> (db w);
        trace := trace w ++ [CDb (FindById MEvent k) None] |}).
Proof.
  intros Hcast Hfault Hfound.
  unfold Event_findByIdAndUpdate, cast, db_call, bind, ask, get_trace, get_db,
    log, put_db, ret; cbn.
  rewrite Hcast; cbn. rewrite Hfault; cbn. by rewrite Hfound.
Qed.

Lemma attendEvent_found env w user id k e :
  ObjectId_isValid env id = true ->
  castObjectId env id = Some k ->
  db_fault env (trace w) (FindById MEvent k) = None ->
  events (db w) !! k = Some e ->
  attendEvent user id env w
  = (Resolved (Json 200 true (lit "Attending.")
       (Attendees (addToSet (user_id user) (ev_attendees e)))),
     {| db := with_events
                <[k := set_ev_attendees (addToSet (user_id user) (ev_attendees e)) e]>
                (db w);
        trace := trace w ++ [CDb (FindById MEvent k) None] |}).
Proof.
  intros Hvalid Hcast Hfault Hfound.
  unfold attendEvent, handler, try_catch, bind at 1, ask. cbn. rewrite Hvalid. cbn.
  unfold bind at 1.
  by rewrite (Event_findByIdAndUpdate_found env w id k e _ Hcast Hfault Hfound).
Qed.

Lemma unattendEvent_found env w user id k e :
  ObjectId_isValid env id = true ->
  castObjectId env id = Some k ->
  db_fault env (trace w) (FindById MEvent k) = None ->
  events (db w) !! k = Some e ->
  unattendEvent user id env w
  = (Resolved (Json 200 true (lit "Removed from attendees.")
       (Attendees (pull (user_id user) (ev_attendees e)))),
     {| db := with_events
                <[k := set_ev_attendees (pull (user_id user) (ev_attendees e)) e]>
                (db w);
        trace := trace w ++ [CDb (FindById MEvent k) None] |}).
Proof.
  intros Hvalid Hcast Hfault Hfound.
  unfold unattendEvent, handler, try_catch, bind at 1, ask. cbn. rewrite Hvalid. cbn.
  unfold bind at 1.
  by rewrite (Event_findByIdAndUpdate_found env w id k e _ Hcast Hfault Hfound).
Qed.

(** X22: attending an event that exists, when the store does not fail.
    The answer is 200 with the attendees of the updated event, and the
    updated event is what the store has; the caller is among the
    attendees, everybody who attended still does, a list without
    duplicates stays without duplicates, and nothing else of the event
    changes.  Attending is idempotent: a second request by the same user
    answers with the same attendees and leaves the store as the first
    left it. *)
Theorem attendEvent_adds_once (env : Env) (d : Db) (user : ReqUser)
    (id : jsstring) (k : ObjectId) (event : Event) :
  ObjectId_isValid env id = true ->
  castObjectId env id = Some k ->
  (forall t op, db_fault env t op = None) ->
  events d !! k = Some event ->
  exists updated,
    run (attendEvent user id) env d
    = (Resolved (Json 200 true (lit "Attending.") (Attendees (ev_attendees updated))),
       {| db := with_events <[k := updated]> d;
          trace := [CDb (FindById MEvent k) None] |}) /\
    user_id user ∈ ev_attendees updated /\
    ev_attendees event ⊆ ev_attendees updated /\
    (NoDup (ev_attendees event) -> NoDup (ev_attendees updated)) /\
    same_but_attendees event updated /\
    fst (attendEvent user id env (snd (run (attendEvent user id) env d)))
    = Resolved (Json 200 true (lit "Attending.") (Attendees (ev_attendees updated))) /\
    db (snd (attendEvent user id env (snd (run (attendEvent user id) env d))))
    = db (snd (run (attendEvent user id) env d)).
Proof.
  intros Hvalid Hcast Hfault Hfound.
  set (updated := set_ev_attendees (addToSet (user_id user) (ev_attendees event)) event).
  exists updated.
  assert (run (attendEvent user id) env d
          = (Resolved (Json 200 true (lit "Attending.")
                         (Attendees (ev_attendees updated))),
             {| db := with_events <[k := updated]> d;
                trace := [CDb (FindById MEvent k) None] |})) as Hrun.
  { unfold run. by rewrite (attendEvent_found env (fresh d) user id k event). }
  split; [done|]. split; [apply addToSet_elem|].
  split.
  { intros x Hx. unfold updated, addToSet. cbn. case_bool_decide; [done|].
    apply elem_of_app. by left. }
  split; [apply addToSet_NoDup|].
  split; [unfold same_but_attendees, updated; by destruct event|].
  rewrite Hrun. cbn [snd].
  rewrite (attendEvent_found env _ user id k updated Hvalid Hcast (Hfault _ _));
    [|cbn; by rewrite lookup_insert_eq].
  cbn [fst snd db].
  assert (addToSet (user_id user) (ev_attendees updated) = ev_attendees updated)
    as ->.
  { apply addToSet_present, addToSet_elem. }
  rewrite set_ev_attendees_id.
  split; [done|]. by rewrite with_events_insert_insert.
Qed.

Lemma attendEvent_adds_once_witness :
  exists updated,
    run (attendEvent {| user_id := 9; user_isAdmin := false |} (lit "e1"))
      store_ok sample_db
    = (Resolved (Json 200 true (lit "Attending.") (Attendees (ev_attendees updated))),
       {| db := with_events <[2%N := updated]> sample_db;
          trace := [CDb (FindById MEvent 2) None] |}) /\
    ev_attendees updated = [7%N; 9%N].
Proof.
  destruct (attendEvent_adds_once store_ok sample_db
              {| user_id := 9; user_isAdmin := false |} (lit "e1") 2%N old_event
              eq_refl eq_refl (fun _ _ => eq_refl) eq_refl)
    as (updated & Hrun & _).
  exists updated. split; [exact Hrun|].
  remember (ev_attendees updated) as attendees. vm_compute in Hrun. congruence.
Defined.

(** X23: leaving an event that exists, when the store does not fail.  The
    answer is 200 with the attendees of the updated event, and the
    updated event is what the store has; every occurrence of the caller
    is gone from the attendees while the others stay as they were, in
    order; nothing else of the event changes.  For a user who did not
    attend, attending and then leaving puts the store back as it was. *)
Theorem unattendEvent_removes (env : Env) (d : Db) (user : ReqUser)
    (id : jsstring) (k : ObjectId) (event : Event) :
  ObjectId_isValid env id = true ->
  castObjectId env id = Some k ->
  (forall t op, db_fault env t op = None) ->
  events d !! k = Some event ->
  exists updated,
    run (unattendEvent user id) env d
    = (Resolved (Json 200 true (lit "Removed from attendees.")
                   (Attendees (ev_attendees updated))),
       {| db := with_events <[k := updated]> d;
          trace := [CDb (FindById MEvent k) None] |}) /\
    (user_id user ∉ ev_attendees updated) /\
    ev_attendees updated = filter (fun x => x ≠ user_id user) (ev_attendees event) /\
    same_but_attendees event updated /\
    (user_id user ∉ ev_attendees event ->
     db (snd (unattendEvent user id env (snd (run (attendEvent user id) env d)))) = d).
Proof.
  intros Hvalid Hcast Hfault Hfound.
  set (updated := set_ev_attendees (pull (user_id user) (ev_attendees event)) event).
  exists updated.
  split.
  { unfold run. by rewrite (unattendEvent_found env (fresh d) user id k event). }
  split.
  { unfold updated, pull. cbn. intros Hin. by apply list_elem_of_filter in Hin as [? _]. }
  split; [done|].
  split; [unfold same_but_attendees, updated; by destruct event|].
  intros Hnew. unfold run.
  rewrite (attendEvent_found env (fresh d) user id k event) by done. cbn [snd].
  rewrite (unattendEvent_found env _ user id k
             (set_ev_attendees (addToSet (user_id user) (ev_attendees event)) event)
             Hvalid Hcast (Hfault _ _));
    [|cbn; by rewrite lookup_insert_eq].
  cbn [snd db fresh]. rewrite with_events_insert_insert.
  assert (set_ev_attendees
            (pull (user_id user)
               (ev_attendees
                  (set_ev_attendees (addToSet (user_id user) (ev_attendees event)) event)))
            (set_ev_attendees (addToSet (user_id user) (ev_attendees event)) event)
          = event) as ->.
  { destruct event. unfold set_ev_attendees. cbn -[pull addToSet] in *.
    by rewrite pull_addToSet. }
  by apply Db_events_insert_id.
Qed.

Lemma unattendEvent_removes_witness :
  exists updated,
    run (unattendEvent alice (lit "e1")) store_ok sample_db
    = (Resolved (Json 200 true (lit "Removed from attendees.")
                   (Attendees (ev_attendees updated))),
       {| db := with_events <[2%N := updated]> sample_db;
          trace := [CDb (FindById MEvent 2) None] |}) /\
    ev_attendees updated = [].
Proof.
  destruct (unattendEvent_removes store_ok sample_db alice (lit "e1") 2%N old_event
              eq_refl eq_refl (fun _ _ => eq_refl) eq_refl)
    as (updated & Hrun & _).
  exists updated. split; [exact Hrun|].
  remember (ev_attendees updated) as attendees. vm_compute in Hrun. congruence.
Defined.




(** ** The grouping of the story feed *)

Lemma group_push_keys key item acc : (group_push key item acc).*1 = acc.*1.
Proof.
  induction acc as [|[k g] acc IH]; [done|]. cbn [group_push].
  destruct (k =? key)%N; rewrite !fmap_cons; cbn [fst]; by rewrite ?IH.
Qed.

Lemma group_get_None key acc : group_get key acc = None <-> key ∉ acc.*1.
Proof.
  induction acc as [|[k g] acc IH]; simpl.
  - split; [intros _; apply not_elem_of_nil | done].
  - rewrite not_elem_of_cons. destruct (N.eqb_spec k key) as [->|Hne].
    + split; [done | by intros [? _]].
    + rewrite IH. split; [by split | by intros [_ ?]].
Qed.

Lemma group_push_elem key item acc k' g' :
  NoDup acc.*1 ->
  (k', g') ∈ group_push key item acc <->
  (k' ≠ key /\ (k', g') ∈ acc) \/
  (k' = key /\ exists g, (key, g) ∈ acc /\
     g' = {| g_user := g_user g; g_stories := g_stories g ++ [item] |}).
Proof.
  induction acc as [|[k g] acc IH]; simpl; intros Hnd.
  - split; [by intros ?%elem_of_nil|].
    intros [[_ H]|(_ & g & H & _)]; by apply elem_of_nil in H.
  - apply NoDup_cons in Hnd as [Hk Hnd]. specialize (IH Hnd).
    destruct (N.eqb_spec k key) as [->|Hne].
    + rewrite !elem_of_cons. split.
      * intros [[= -> ->]|Hin]; [right; split; [done|]; exists g; by split; [left|]|].
        left. split; [|by right]. intros ->. apply Hk.
        apply list_elem_of_fmap. by exists (key, g').
      * intros [[Hne [[= ? ?]|Hin]]|(-> & g0 & Hin & ->)]; [done|by right|].
        apply elem_of_cons in Hin as [[= ->]|Hin]; [by left|].
        exfalso. apply Hk. apply list_elem_of_fmap. by exists (key, g0).
    + rewrite !elem_of_cons, IH. split.
      * intros [[= -> ->]|[[Hn Hin]|(-> & g0 & Hin & ->)]].
        -- left. split; [done | by left].
        -- left. split; [done | by right].
        -- right. split; [done|]. exists g0. split; [by right | done].
      * intros [[Hn [[= -> ->]|Hin]]|(-> & g0 & Hin & ->)].
        -- by left.
        -- right. left. by split.
        -- apply elem_of_cons in Hin as [[= ? ?]|Hin]; [done|].
           right. right. split; [done|]. by exists g0.
Qed.

Lemma first_seen_snoc ids x :
  first_seen (ids ++ [x])
  = if bool_decide (x ∈ first_seen ids) then first_seen ids else first_seen ids ++ [x].
Proof. unfold first_seen. by rewrite fold_left_app. Qed.

Lemma first_seen_NoDup ids : NoDup (first_seen ids).
Proof.
  induction ids as [|x ids IH] using rev_ind; [constructor|].
  rewrite first_seen_snoc. case_bool_decide; [done|].
  apply NoDup_app. split; [done|]. split; [|apply NoDup_singleton].
  intros y Hy ->%list_elem_of_singleton. done.
Qed.

Lemma stories_of_snoc k stories story :
  stories_of k (stories ++ [story])
  = stories_of k stories
    ++ (if decide (fu_id <$> fs_user story = Some k) then [story] else []).
Proof.
  unfold stories_of. by rewrite filter_app.
Qed.

Lemma story_user_ids_snoc stories story :
  story_user_ids (stories ++ [story])
  = story_user_ids stories
    ++ (match fs_user story with Some user => [fu_id user] | None => [] end).
Proof.
  unfold story_user_ids. rewrite omap_app. f_equal. simpl.
  by destruct (fs_user story).
Qed.

Lemma groupedStories_snoc stories story :
  groupedStories (stories ++ [story]) = groupStory (groupedStories stories) story.
Proof. unfold groupedStories. by rewrite fold_left_app. Qed.

Lemma stories_of_no_key k stories :
  k ∉ story_user_ids stories -> stories_of k stories = [].
Proof.
  unfold stories_of, story_user_ids. induction stories as [|s l IH]; [done|].
  intros Hk. rewrite filter_cons. cbn [omap list_omap] in Hk.
  destruct (fu_id <$> fs_user s) as [k'|] eqn:Hs.
  - apply not_elem_of_cons in Hk as [Hne Hk].
    rewrite decide_False by congruence. by apply IH.
  - rewrite decide_False by congruence. by apply IH.
Qed.

Lemma first_seen_elem ids x : x ∈ first_seen ids <-> x ∈ ids.
Proof.
  induction ids as [|y ids IH] using rev_ind; [done|].
  rewrite first_seen_snoc, elem_of_app, list_elem_of_singleton, <- IH.
  case_bool_decide as Hy.
  - split; [by left | intros [?| ->]; done].
  - by rewrite elem_of_app, list_elem_of_singleton.
Qed.

(** X25: the grouping of the story feed.  The groups are one per user who
    has a story in the result of the query, in the order in which the
    users first occur there; the group of a user holds all the stories of
    that user and no other, in the order of the query, with the user as
    the first of them carries it; a story without a user is in no group. *)
Theorem groupedStories_partition (stories : list FeedStory) :
  (groupedStories stories).*1 = first_seen (story_user_ids stories) /\
  NoDup (groupedStories stories).*1 /\
  forall userId group,
    (userId, group) ∈ groupedStories stories ->
    g_stories group = storyItem <$> stories_of userId stories /\
    Some (g_user group) = head (stories_of userId stories) ≫= fs_user.
Proof.
  induction stories as [|story stories IH] using rev_ind.
  - split; [done|]. split; [constructor|]. by intros k g ?%elem_of_nil.
  - destruct IH as (Hkeys & Hnd & Hgroups).
    rewrite groupedStories_snoc, story_user_ids_snoc.
    unfold groupStory. destruct (fs_user story) as [user|] eqn:Huser.
    + cbv zeta. rewrite group_push_keys.
      assert (forall k, stories_of k (stories ++ [story])
                = stories_of k stories
                  ++ (if decide (fu_id user = k) then [story] else [])) as Hof.
      { intros k. rewrite stories_of_snoc, Huser. simpl.
        destruct (decide (Some (fu_id user) = Some k)) as [[=]|Hne];
          destruct (decide (fu_id user = k)); congruence. }
      destruct (group_get (fu_id user) (groupedStories stories)) as [g0|] eqn:Hget.
      * assert (fu_id user ∈ (groupedStories stories).*1) as Hin.
        { destruct (decide (fu_id user ∈ (groupedStories stories).*1)); [done|].
          apply group_get_None in n. congruence. }
        rewrite first_seen_snoc, <- Hkeys, bool_decide_eq_true_2 by done.
        split; [done|]. split; [done|].
        intros k g [[Hne Hkg]|(-> & g1 & Hkg & ->)]%group_push_elem; [| |done].
        -- destruct (Hgroups _ _ Hkg) as [Hs Hu].
           rewrite Hof. destruct (decide (fu_id user = k)); [done|].
           by rewrite app_nil_r.
        -- destruct (Hgroups _ _ Hkg) as [Hs Hu].
           rewrite Hof, decide_True by done. simpl.
           rewrite Hs, fmap_app. split; [done|].
           destruct (stories_of (fu_id user) stories) as [|s0 l0]; [done|]. done.
      * apply group_get_None in Hget.
        rewrite first_seen_snoc, <- Hkeys, bool_decide_eq_false_2 by done.
        rewrite fmap_app. split; [done|].
        assert (NoDup ((groupedStories stories).*1 ++ [fu_id user])) as Hnd'.
        { apply NoDup_app. split; [done|]. split; [|apply NoDup_singleton].
          by intros y Hy ->%list_elem_of_singleton. }
        split; [done|].
        intros k g Hkg. apply group_push_elem in Hkg; [|by rewrite fmap_app].
        destruct Hkg as [[Hne Hkg]|(-> & g1 & Hkg & ->)].
        -- apply elem_of_app in Hkg as [Hkg|[= ? ?]%list_elem_of_singleton]; [|done].
           destruct (Hgroups _ _ Hkg) as [Hs Hu].
           rewrite Hof. destruct (decide (fu_id user = k)); [done|].
           by rewrite app_nil_r.
        -- apply elem_of_app in Hkg as [Hkg|[= ->]%list_elem_of_singleton].
           ++ exfalso. apply Hget. apply list_elem_of_fmap. by exists (fu_id user, g1).
           ++ rewrite Hof, decide_True by done.
              rewrite stories_of_no_key.
              ** simpl. rewrite Huser. simpl. by destruct user.
              ** rewrite <- first_seen_elem, <- Hkeys. done.
    + rewrite app_nil_r. split; [done|]. split; [done|].
      intros k g Hkg. destruct (Hgroups _ _ Hkg) as [Hs Hu].
      rewrite stories_of_snoc, Huser. simpl.
      destruct (decide (None = Some k)); [done|]. by rewrite app_nil_r.
Qed.

(** ** Authentication and the routes *)

Lemma truthy_token (token : option jsstring) :
  JS.truthy token = true -> exists t, token = Some t /\ t ≠ [].
Proof. destruct token as [[|c t]|]; try done. intros _. by eexists. Qed.

Lemma grew_quietly_refl w : grew_quietly w w.
Proof.
  exists []. rewrite app_nil_r. repeat split; constructor.
Qed.

Lemma grew_quietly_lookup w w' m k f :
  trace w' = trace w ++ [CDb (FindById m k) f] -> grew_quietly w w'.
Proof.
  intros H. exists [CDb (FindById m k) f].
  split; [done|]. repeat split; by repeat constructor.
Qed.

(** The two ways out of [protect]: the user of the token, looked up, is
    handed on, or the request is answered with 401. *)
Lemma protect_cases (jwt_verify : option jsstring -> Outcome jsstring)
    (env : Env) (w : World) (authorization : option jsstring) :
  rejects_missing_token jwt_verify ->
  post (protect jwt_verify authorization) env w (fun r w' =>
    (exists k user,
       token_of jwt_verify env (db w) authorization k user /\
       db_fault env (trace w) (FindById MUser k) = None /\
       r = Resolved [Proceed user] /\ w' = looked_up k w)
    \/ (db w' = db w /\ grew_quietly w w' /\
        exists acts, r = Resolved acts /\ acts ≠ [] /\
          Forall (fun a => exists message, a = Answer 401 message) acts)).
Proof.
  intros Hmissing. wp; cbn [fst snd app] in *; try discriminate.
  all: try (exfalso;
            match goal with
            | H : negb (JS.truthy ?t) = true, V : _ ?t = Resolved _ |- _ =>
                apply negb_true_iff in H; destruct (Hmissing t H) as [? ?]; congruence
            end).
  all: try (right; split; [done|]; split;
            [first [apply grew_quietly_refl | by eapply grew_quietly_lookup]|];
            eexists; split; [reflexivity|]; split; [done|];
            repeat (apply List.Forall_cons; [by eexists|]); apply List.Forall_nil).
  left. use_tests.
  match goal with
  | H : JS.truthy (_ !! _) = true |- _ =>
      destruct (truthy_token _ H) as (token & Htoken & Hne)
  end.
  match goal with H : db_lookup _ MUser _ = _ |- _ => unfold db_lookup in H end.
  match goal with
  | H : DUser <$> ?x = Some (DUser _) |- _ =>
      destruct x as [user|] eqn:Hfound; [|done];
      cbv [fmap option_fmap option_map] in H; simplify_eq
  end.
  lazymatch goal with
  | Hcast : castObjectId env ?id = Some ?k, Hverify : jwt_verify _ = Resolved ?id,
    Hstored : users _ !! ?k = Some ?user |- _ =>
      exists k, user; split; [|done];
      split; [done|]; split; [done|];
      exists token, id; unfold bearer_token;
      rewrite Htoken in Hverify
  end.
  done.
Qed.

(** What [protect] does for the token of a stored user when the lookup
    does not fail. *)
Lemma protect_accepts (jwt_verify : option jsstring -> Outcome jsstring)
    (env : Env) (w : World) (authorization : option jsstring) k user :
  token_of jwt_verify env (db w) authorization k user ->
  db_fault env (trace w) (FindById MUser k) = None ->
  protect jwt_verify authorization env w = (Resolved [Proceed user], looked_up k w).
Proof.
  intros (Htruthy & Hbearer & token & id & Htoken & Hne & Hverify & Hcast & Hfound)
    Hfault.
  unfold bearer_token in Htoken.
  unfold protect. rewrite Htruthy, Hbearer, Htoken, Hverify. cbn [andb].
  unfold bind, try_catch, settle, ret, findById_param, findById, cast, ask, bind,
    db_call, get_trace, get_db, log, ret.
  cbn. rewrite Hcast. cbn. rewrite Hfault. cbn.
  unfold db_lookup. rewrite Hfound. cbn.
  by destruct token.
Qed.

Lemma post_and {A} (m : M A) env w (Q Q' : Outcome A -> World -> Prop) :
  post m env w Q -> post m env w Q' -> post m env w (fun r w' => Q r w' /\ Q' r w').
Proof. unfold post. auto. Qed.

(** The calls of [protect] on a response of Express: they all take
    effect, but for a header with [Bearer] and without a token, where the
    second answer throws. *)
Lemma protect_on_express (jwt_verify : option jsstring -> Outcome jsstring)
    (env : Env) (w : World) (authorization : option jsstring) :
  rejects_missing_token jwt_verify ->
  post (protect jwt_verify authorization) env w (fun r w' =>
    exists acts,
      r = Resolved acts /\
      on_express false acts
      = if bearer authorization && negb (JS.truthy (bearer_token authorization))
        then (take 1 acts, Some new_HeadersSent)
        else (acts, None)).
Proof.
  intros Hmissing. unfold bearer, bearer_token.
  wp; cbn [fst snd app] in *; try discriminate.
  all: eexists; split; [reflexivity|].
  all: cbn [andb]; try done.
  all: try (exfalso;
            match goal with
            | H : negb (JS.truthy ?t) = true, V : _ ?t = Resolved _ |- _ =>
                apply negb_true_iff in H; destruct (Hmissing t H) as [? ?]; congruence
            end).
  all: match goal with
       | V : _ ?t = Resolved _ |- _ =>
           destruct (JS.truthy t) eqn:Htruthy; [done|];
           destruct (Hmissing t Htruthy) as [? ?]; congruence
       end.
Qed.

(** X26: [protect] lets a request through exactly for a token that
    verifies and whose user is in the store.  Whatever the header and the
    environment, it never changes the store and always answers or calls
    [next()]; when the library refuses a missing token, a request that is
    let through is let through once, with the stored user whose id the
    token carries, and is not answered by [protect].  On a response of
    Express all its calls take effect and nothing throws, but for a
    header with [Bearer] and without a token: there the first answer is
    sent, the second throws, and the promise of [protect] rejects.  For a
    token that verifies to a stored user, when the lookup does not fail,
    [protect] looks the user up and calls [next()], and does nothing
    else. *)
Theorem protect_lets_through_verified (jwt_verify : option jsstring -> Outcome jsstring)
    (env : Env) (w : World) (authorization : option jsstring) :
  rejects_missing_token jwt_verify ->
  post (protect jwt_verify authorization) env w (fun r w' =>
    db w' = db w /\
    exists acts,
      r = Resolved acts /\ acts ≠ [] /\
      (forall user,
         Proceed user ∈ acts ->
         acts = [Proceed user] /\
         exists k, token_of jwt_verify env (db w) authorization k user) /\
      on_express false acts
      = if bearer authorization && negb (JS.truthy (bearer_token authorization))
        then (take 1 acts, Some new_HeadersSent)
        else (acts, None)) /\
  (forall k user,
     token_of jwt_verify env (db w) authorization k user ->
     db_fault env (trace w) (FindById MUser k) = None ->
     protect jwt_verify authorization env w
     = (Resolved [Proceed user], looked_up k w)).
Proof.
  intros Hmissing. split; [|apply protect_accepts].
  eapply post_mono;
    [apply post_and; [by apply protect_cases | by apply protect_on_express]|].
  intros r w' [Hcases (acts & -> & Hexpress)]. cbv beta in Hcases.
  destruct Hcases
    as [(k & user & Htoken & _ & [= ->] & ->)|(Hdb & _ & acts' & [= <-] & Hne & Hall)].
  - split; [done|]. eexists. split; [done|]. split; [done|]. split; [|done].
    intros user' [= ->]%list_elem_of_singleton. split; [done|]. by exists k.
  - split; [done|]. eexists. split; [done|]. split; [done|]. split; [|done].
    intros user Hin. rewrite Forall_forall in Hall.
    by destruct (Hall _ Hin) as [message Hanswer].
Qed.

Lemma test_verify_rejects_missing : rejects_missing_token test_verify.
Proof. intros [[|c t]|]; try done; intros _; by eexists. Qed.

Lemma protect_lets_through_verified_witness :
  post (protect test_verify (Some (lit "Bearer u-alice"))) store_ok (fresh sample_db)
    (fun r w' =>
       db w' = sample_db /\
       exists acts,
         r = Resolved acts /\ acts ≠ [] /\
         (forall user,
            Proceed user ∈ acts ->
            acts = [Proceed user] /\
            exists k, token_of test_verify store_ok sample_db
                        (Some (lit "Bearer u-alice")) k user) /\
         on_express false acts
         = if bearer (Some (lit "Bearer u-alice"))
              && negb (JS.truthy (bearer_token (Some (lit "Bearer u-alice"))))
           then (take 1 acts, Some new_HeadersSent)
           else (acts, None)) /\
  (forall k user,
     token_of test_verify store_ok sample_db (Some (lit "Bearer u-alice")) k user ->
     db_fault store_ok [] (FindById MUser k) = None ->
     protect test_verify (Some (lit "Bearer u-alice")) store_ok (fresh sample_db)
     = (Resolved [Proceed user], looked_up k (fresh sample_db))).
Proof.
  apply (protect_lets_through_verified test_verify store_ok (fresh sample_db)
           (Some (lit "Bearer u-alice")) test_verify_rejects_missing).
Defined.

(** X27: [protect] makes exactly one call of [res.status(...).json(...)]
    or of [next()], but for a header that starts with [Bearer] and whose
    second part, of those that spaces separate, is missing or empty: then
    it answers 401 twice, the second time that no token was provided,
    having asked nothing of the store. *)
Theorem protect_answers_once_but_without_token
    (jwt_verify : option jsstring -> Outcome jsstring)
    (env : Env) (w : World) (authorization : option jsstring) :
  rejects_missing_token jwt_verify ->
  post (protect jwt_verify authorization) env w (fun r w' =>
    exists acts,
      r = Resolved acts /\
      if bearer authorization && negb (JS.truthy (bearer_token authorization))
      then w' = w /\
           exists message,
             acts = [Answer 401 message;
                     Answer 401 (lit "Not authorized, no token provided")]
      else length acts = 1%nat).
Proof.
  intros Hmissing. unfold bearer, bearer_token.
  wp; cbn [fst snd app] in *; try discriminate.
  all: eexists; split; [reflexivity|].
  all: cbn [andb length]; try done.
  all: try (exfalso;
            match goal with
            | H : negb (JS.truthy ?t) = true, V : _ ?t = Resolved _ |- _ =>
                apply negb_true_iff in H; destruct (Hmissing t H) as [? ?]; congruence
            end).
  all: try (split; [done | by eexists]).
  all: match goal with
       | V : _ ?t = Resolved _ |- _ =>
           destruct (JS.truthy t) eqn:Htruthy; [done|];
           destruct (Hmissing t Htruthy) as [? ?]; congruence
       end.
Qed.

Lemma protect_answers_once_but_without_token_witness :
  post (protect test_verify (Some (lit "Bearer"))) store_ok (fresh sample_db)
    (fun r w' =>
       exists acts,
         r = Resolved acts /\
         if bearer (Some (lit "Bearer"))
            && negb (JS.truthy (bearer_token (Some (lit "Bearer"))))
         then w' = fresh sample_db /\
              exists message,
                acts = [Answer 401 message;
                        Answer 401 (lit "Not authorized, no token provided")]
         else length acts = 1%nat).
Proof.
  apply (protect_answers_once_but_without_token test_verify store_ok
           (fresh sample_db) (Some (lit "Bearer")) test_verify_rejects_missing).
Defined.

Lemma serve_proceed (user : User) (downstream : User -> M (list Sent)) env w :
  serve [Proceed user] downstream env w = downstream user env w.
Proof.
  cbn [serve]. unfold bind, ret.
  destruct (downstream user env w) as [[sent|e] w']; [|done].
  by rewrite app_nil_r.
Qed.

Lemma on_express_answers (acts : list MiddlewareAct) :
  acts ≠ [] ->
  Forall (fun a => exists message, a = Answer 401 message) acts ->
  exists message, fst (on_express false acts) = [Answer 401 message].
Proof.
  intros Hne Hall. destruct Hall as [|a acts [message ->] Hall]; [done|].
  exists message. cbn [on_express fst].
  by destruct Hall as [|b acts [message' ->] Hall].
Qed.

(** A route behind [protect]: the request is answered with 401, or what
    comes after [protect] is entered for the user of the token, once the
    user has been looked up. *)
Lemma behind_protect (jwt_verify : option jsstring -> Outcome jsstring)
    (env : Env) (w : World) (authorization : option jsstring)
    (downstream : User -> M (list Sent)) :
  rejects_missing_token jwt_verify ->
  post (let* acts := protect jwt_verify authorization in
        serve (fst (on_express false acts)) downstream)
    env w (fun r w' =>
      (exists k user,
         token_of jwt_verify env (db w) authorization k user /\
         (r, w') = downstream user env (looked_up k w))
      \/ unauthorized w r w').
Proof.
  intros Hmissing. apply post_bind.
  eapply post_mono; [by apply protect_cases|].
  intros r w1 [(k & user & Htoken & _ & -> & ->)|(Hdb & Hquiet & acts & -> & Hne & Hall)].
  - unfold post. cbn [on_express fst]. rewrite serve_proceed. left. exists k, user.
    split; [done|]. by destruct (downstream _ _ _).
  - unfold post.
    destruct (on_express_answers acts Hne Hall) as [message ->].
    right. split; [done|]. split; [done|]. by exists message.
Qed.

Lemma unauthorized_stopped w r w' : unauthorized w r w' -> stopped w r w'.
Proof.
  intros (Hdb & Hquiet & message & ->). split; [done|]. split; [done|].
  eexists. split; [done|]. split; [done|].
  apply List.Forall_cons; [|apply List.Forall_nil]. exists message. by left.
Qed.

(** X28: a route behind [protect] runs its controller only as the user
    of the token.  Either the request carries a token that verifies to
    the id of a stored user, and the route does what the controller does
    for that user, after the one lookup of [protect]; or the request is
    answered with 401, once and with nothing else, and the store is as it
    was, with no write, no file removal and nothing asked of the remote
    store. *)
Theorem protected_runs_controller_as_token_user
    (jwt_verify : option jsstring -> Outcome jsstring)
    (env : Env) (w : World) (authorization : option jsstring)
    (c : ReqUser -> M Reply) :
  rejects_missing_token jwt_verify ->
  post (protected jwt_verify authorization c) env w (fun r w' =>
    (exists k user,
       token_of jwt_verify env (db w) authorization k user /\
       (r, w') = controller (c (reqUser user)) env (looked_up k w))
    \/ unauthorized w r w').
Proof.
  intros Hmissing. unfold protected.
  by apply (behind_protect jwt_verify env w authorization
              (fun user => controller (c (reqUser user)))).
Qed.

Lemma protected_runs_controller_as_token_user_witness :
  post (route_deletePost test_verify (Some (lit "Bearer u-alice")) (lit "p1"))
    store_ok (fresh sample_db)
    (fun r w' =>
       (exists k user,
          token_of test_verify store_ok sample_db (Some (lit "Bearer u-alice")) k user /\
          (r, w') = controller (deletePost (reqUser user) (lit "p1")) store_ok
                      (looked_up k (fresh sample_db)))
       \/ unauthorized (fresh sample_db) r w').
Proof.
  apply (protected_runs_controller_as_token_user test_verify store_ok
           (fresh sample_db) (Some (lit "Bearer u-alice"))
           (fun user => deletePost user (lit "p1")) test_verify_rejects_missing).
Defined.

Lemma serve_forbidden (user : User) (downstream : User -> M (list Sent)) env w :
  u_isAdmin user = false ->
  serve (admin (Some user)) downstream env w
  = (Resolved [Answered 403 (lit "Forbidden: Not authorized as an admin")], w).
Proof. intros Hadmin. unfold admin. by rewrite Hadmin. Qed.

Lemma serve_admin (user : User) (downstream : User -> M (list Sent)) env w :
  u_isAdmin user = true ->
  serve (admin (Some user)) downstream env w = downstream user env w.
Proof. intros Hadmin. unfold admin. rewrite Hadmin. apply serve_proceed. Qed.

(** X29: the reject route of the administration runs [rejectUser] only
    for an administrator.  Either the request carries a token that
    verifies to the id of a stored user who is an administrator, and the
    route does what [rejectUser] does, after the one lookup of
    [protect]; or the request is answered with 401 or 403 and the store
    is as it was, no record deleted and no file removed. *)
Theorem reject_route_admin_only (jwt_verify : option jsstring -> Outcome jsstring)
    (env : Env) (w : World) (authorization : option jsstring) (userId : jsstring) :
  rejects_missing_token jwt_verify ->
  post (route_rejectUser jwt_verify authorization userId) env w (fun r w' =>
    (exists k user,
       token_of jwt_verify env (db w) authorization k user /\
       u_isAdmin user = true /\
       (r, w') = controller (rejectUser userId) env (looked_up k w))
    \/ stopped w r w').
Proof.
  intros Hmissing. unfold route_rejectUser.
  eapply post_mono; [by apply behind_protect|].
  intros r w' [(k & user & Htoken & Hrun)|Hstopped];
    [|right; by apply unauthorized_stopped].
  destruct (u_isAdmin user) eqn:Hadmin.
  - left. exists k, user. by rewrite serve_admin in Hrun.
  - right. rewrite serve_forbidden in Hrun by done. injection Hrun as -> ->.
    split; [done|]. split; [by eapply grew_quietly_lookup|].
    eexists. split; [done|]. split; [done|].
    apply List.Forall_cons; [|apply List.Forall_nil]. eexists. by right.
Qed.

Lemma reject_route_admin_only_witness :
  post (route_rejectUser test_verify (Some (lit "Bearer u-alice")) (lit "u-alice"))
    store_ok (fresh sample_db)
    (fun r w' =>
       (exists k user,
          token_of test_verify store_ok sample_db (Some (lit "Bearer u-alice")) k user /\
          u_isAdmin user = true /\
          (r, w') = controller (rejectUser (lit "u-alice")) store_ok
                      (looked_up k (fresh sample_db)))
       \/ stopped (fresh sample_db) r w').
Proof.
  apply (reject_route_admin_only test_verify store_ok (fresh sample_db)
           (Some (lit "Bearer u-alice")) (lit "u-alice") test_verify_rejects_missing).
Defined.

(** [rejectUser] on a user who is not verified, from any state of the
    log. *)
Lemma rejectUser_deletes_from (env : Env) (w : World) (id : jsstring) (k : ObjectId)
    (u : User) :
  castObjectId env id = Some k ->
  users (db w) !! k = Some u ->
  u_verified u = false ->
  (forall t op, db_fault env t op = None) ->
  rejectUser id env w
  = (Resolved (Json 200 true
                 (lit "User registration for " ++ u_username u
                  ++ lit " rejected and record deleted.") NoPayload),
     {| db := with_users (delete k) (db w);
        trace :=
          trace w
          ++ CDb (FindById MUser k) None
          :: (if JS.truthy (u_profilePic u)
                 && negb (bool_decide (u_profilePic u = Some DEFAULT_AVATAR_PATH))
              then [CUnlink (str (u_profilePic u))] else [])
          ++ [CDb (DeleteById MUser k) None] |}).
Proof.
  intros Hcast Hfound%db_lookup_user Hverified Hfault.
  assert (forall r w', post (rejectUser id) env w (fun r' w'' => r' = r /\ w'' = w') ->
                       rejectUser id env w = (r, w')) as Hpost.
  { intros r w'. unfold post. destruct (rejectUser id env w) as [r' w'']. cbn.
    by intros [-> ->]. }
  apply Hpost. unfold DEFAULT_AVATAR_PATH.
  wp; try excluded Hfault; same_document; try congruence.
  all: match goal with H : _ && _ = _ |- _ => rewrite H end.
  all: split; [done|]; f_equal; by rewrite <- !app_assoc.
Qed.

(** X30: the reject route for an administrator.  When the token of the
    request verifies to the id of a stored administrator, the user to
    reject is stored and not verified, and the store does not fail, the
    route answers 200 and the record is gone; the log has the lookup of
    [protect], the lookup of [rejectUser], the removal of a picture
    other than the default one, and the delete, in this order. *)
Theorem reject_route_deletes (jwt_verify : option jsstring -> Outcome jsstring)
    (env : Env) (d : Db) (authorization : option jsstring) (userId : jsstring)
    (ka k : ObjectId) (administrator u : User) :
  token_of jwt_verify env d authorization ka administrator ->
  u_isAdmin administrator = true ->
  castObjectId env userId = Some k ->
  users d !! k = Some u ->
  u_verified u = false ->
  (forall t op, db_fault env t op = None) ->
  run (route_rejectUser jwt_verify authorization userId) env d
  = (Resolved [Handled (Json 200 true
                          (lit "User registration for " ++ u_username u
                           ++ lit " rejected and record deleted.") NoPayload)],
     {| db := with_users (delete k) d;
        trace :=
          CDb (FindById MUser ka) None
          :: CDb (FindById MUser k) None
          :: (if JS.truthy (u_profilePic u)
                 && negb (bool_decide (u_profilePic u = Some DEFAULT_AVATAR_PATH))
              then [CUnlink (str (u_profilePic u))] else [])
          ++ [CDb (DeleteById MUser k) None] |}).
Proof.
  intros Htoken Hadmin Hcast Hfound Hverified Hfault.
  unfold run, route_rejectUser. unfold bind at 1.
  rewrite (protect_accepts jwt_verify env (fresh d) authorization ka administrator)
    by done.
  cbn [on_express fst].
  rewrite serve_proceed, serve_admin by done.
  unfold controller, bind.
  by rewrite (rejectUser_deletes_from env (looked_up ka (fresh d)) userId k u).
Qed.

Lemma carol_token :
  token_of test_verify store_ok admin_db (Some (lit "Bearer id-carol")) 8%N an_admin.
Proof.
  split; [done|]. split; [done|].
  exists (lit "id-carol"), (lit "id-carol"). by repeat split.
Qed.

Lemma reject_route_deletes_witness :
  run (route_rejectUser test_verify (Some (lit "Bearer id-carol")) (lit "u-alice"))
    store_ok admin_db
  = (Resolved [Handled (Json 200 true
                          (lit "User registration for alice rejected and record deleted.")
                          NoPayload)],
     {| db := with_users (delete 7%N) admin_db;
        trace := [CDb (FindById MUser 8) None; CDb (FindById MUser 7) None;
                  CDb (DeleteById MUser 7) None] |}).
Proof.
  apply (reject_route_deletes test_verify store_ok admin_db
           (Some (lit "Bearer id-carol")) (lit "u-alice") 8%N 7%N an_admin a_user
           carol_token eq_refl eq_refl eq_refl eq_refl (fun _ _ => eq_refl)).
Defined.
